(** * Momentum scroller: a shallow embedding of [rflect.ui.MomentumScroller]

    The development follows [src/momentum-scroller/momentumscroller.js].
    JavaScript numbers are modelled as real numbers extended with [NaN] and
    the two infinities; rounding and the sign of zero are not modelled (every
    zero divisor met by the modelled code is a difference of equal values or a
    measured size, hence [+0]). *)

From Stdlib Require Import Reals Lra Psatz ZArith Lia Bool List String Ascii.
Import ListNotations.

(** ** JavaScript numbers *)

Module JsNum.

Inductive number : Type :=
| NaN
| PosInf
| NegInf
| Fin (r : R).

Definition Rltb (a b : R) : bool := if Rlt_dec a b then true else false.
Definition Reqb (a b : R) : bool := if Req_dec_T a b then true else false.

(** [signum r] compares [r] with zero. *)
Definition signum (r : R) : comparison :=
  if Rlt_dec r 0 then Lt else if Rlt_dec 0 r then Gt else Eq.

(** An infinity of the given sign; a zero sign gives [NaN] (as [0 * Infinity]
    and [0 / 0] do). *)
Definition inf_of (c : comparison) : number :=
  match c with Lt => NegInf | Gt => PosInf | Eq => NaN end.

Definition isNaN (a : number) : bool :=
  match a with NaN => true | _ => false end.

(** Unary minus. *)
Definition neg (a : number) : number :=
  match a with
  | NaN => NaN
  | PosInf => NegInf
  | NegInf => PosInf
  | Fin r => Fin (- r)
  end.

Definition add (a b : number) : number :=
  match a, b with
  | NaN, _ | _, NaN => NaN
  | PosInf, NegInf | NegInf, PosInf => NaN
  | PosInf, _ | _, PosInf => PosInf
  | NegInf, _ | _, NegInf => NegInf
  | Fin x, Fin y => Fin (x + y)
  end.

Definition sub (a b : number) : number := add a (neg b).

Definition mul (a b : number) : number :=
  match a, b with
  | NaN, _ | _, NaN => NaN
  | Fin x, Fin y => Fin (x * y)
  | Fin x, PosInf | PosInf, Fin x => inf_of (signum x)
  | Fin x, NegInf | NegInf, Fin x => inf_of (CompOpp (signum x))
  | PosInf, PosInf | NegInf, NegInf => PosInf
  | PosInf, NegInf | NegInf, PosInf => NegInf
  end.

(** Division; a finite zero divisor is [+0]. *)
Definition div (a b : number) : number :=
  match a, b with
  | NaN, _ | _, NaN => NaN
  | Fin x, Fin y => if Req_dec_T y 0 then inf_of (signum x) else Fin (x / y)
  | Fin _, PosInf | Fin _, NegInf => Fin 0
  | PosInf, Fin y => if Rlt_dec y 0 then NegInf else PosInf
  | NegInf, Fin y => if Rlt_dec y 0 then PosInf else NegInf
  | _, _ => NaN
  end.

(** [Math.abs]. *)
Definition abs (a : number) : number :=
  match a with
  | NaN => NaN
  | PosInf | NegInf => PosInf
  | Fin r => Fin (Rabs r)
  end.

(** [Math.sqrt]. *)
Definition sqrt (a : number) : number :=
  match a with
  | NaN | NegInf => NaN
  | PosInf => PosInf
  | Fin r => if Rlt_dec r 0 then NaN else Fin (R_sqrt.sqrt r)
  end.

(** [Math.exp]. *)
Definition exp (a : number) : number :=
  match a with
  | NaN => NaN
  | PosInf => PosInf
  | NegInf => Fin 0
  | Fin r => Fin (Rtrigo_def.exp r)
  end.

(** The relational operators; every comparison with [NaN] is false. *)
Definition ltb (a b : number) : bool :=
  match a, b with
  | NaN, _ | _, NaN => false
  | _, NegInf => false
  | NegInf, _ => true
  | PosInf, _ => false
  | Fin _, PosInf => true
  | Fin x, Fin y => Rltb x y
  end.

Definition gtb (a b : number) : bool := ltb b a.

(** [==] on numbers. *)
Definition eqb (a b : number) : bool :=
  match a, b with
  | PosInf, PosInf | NegInf, NegInf => true
  | Fin x, Fin y => Reqb x y
  | _, _ => false
  end.

Definition leb (a b : number) : bool := ltb a b || eqb a b.
Definition geb (a b : number) : bool := leb b a.

End JsNum.

Import JsNum.

Declare Scope js_scope.
Delimit Scope js_scope with js.
Bind Scope js_scope with number.
Infix "+" := add : js_scope.
Infix "-" := sub : js_scope.
Infix "*" := mul : js_scope.
Infix "/" := div : js_scope.
Notation "- x" := (neg x) : js_scope.
Infix "<?" := ltb : js_scope.
Infix ">?" := gtb (at level 70) : js_scope.
Infix "<=?" := leb : js_scope.
Infix ">=?" := geb (at level 70) : js_scope.
Infix "==?" := eqb (at level 70) : js_scope.

(** ** [rflect.math] *)

(** Modelled from the spec: [rflect.math.sign] is required by the scroller but
    its module is not among the sources; the spec takes the sign of a velocity
    "from the position delta", so it is the usual three-valued sign. *)
Definition math_sign (a : number) : number :=
  match a with
  | NaN => NaN
  | PosInf => Fin 1
  | NegInf => Fin (-1)
  | Fin r => match signum r with Lt => Fin (-1) | Gt => Fin 1 | Eq => Fin 0 end
  end.

Arguments Fin r%_R.

(** ** Constants of [rflect.ui.MomentumScroller] *)

Definition DRAG_THRESHOLD : number := Fin 5.
Definition OUT_OF_BOUNDS_MAXIMUM : number := Fin 100.
Definition ACCELERATION_SLIDING : number := Fin (5 / 10000).
Definition ACCELERATION_BOUNCE_BACK_COEFF : number := Fin 10.
Definition MAXIMUM_VELOCITY : number := Fin (35 / 10).
Definition SCROLLBAR_MIN_HEIGHT : number := Fin 5.

(** [QUEUED_TRANSITION_STAGE]: stages of out-of-bounds transitions. *)
Inductive QUEUED_TRANSITION_STAGE : Type :=
| NONE
| TO_BOUNDS
| BOUNCED_OUT
| BOUNCED_BACK.

(** ** The DOM as the scroller sees it *)

(** Identity of a DOM node. *)
Definition ElemId : Type := nat.

(** [goog.math.Size]. *)
Record Size : Type := mkSize { width : number; height : number }.

(** The timing functions the scroller writes into [transition]. *)
Inductive Easing : Type :=
| EaseOut
| CubicBezier (x1 y1 x2 y2 : number).

(** The value of an element's inline [transition] style: [''] (or never
    written), a transition of [transform] with a duration in ms, or
    [SCROLLBAR_HIDE_TRANSITION]. *)
Inductive Transition : Type :=
| TransitionNone
| TransitionTransform (ms : number) (e : Easing)
| TransitionOpacity.

(** The value of an element's [transform] style: never written,
    ['translate3d(0, y px, 0)'] or ['scaleY(k)']. *)
Inductive Transform : Type :=
| TransformNone
| Translate3dY (y : number)
| ScaleY (k : number).

(** What a touch handler reads from its event: the first touch point
    ([touches[0]]) and [goog.now()] at the time of handling. *)
Record TouchEvent : Type := mkTouch {
  clientY : number;
  clientX : number;
  now : number
}.

(** What [getMatrixForElement] reads back from the renderer for the content
    element, the scrollbar container and the scrollbar line. *)
Record LiveMatrices : Type := mkLive {
  elementM42 : number;
  containerM42 : number;
  lineM22 : number
}.

(** The element found by [document.elementFromPoint], as far as
    [needsFocus] and [focusIfNeeded] look at it. *)
Record Element : Type := mkElement {
  nodeName : string;
  type : string;
  disabled : bool;
  readOnly : bool;
  hasSetSelectionRange : bool;
  value : string
}.

(** Calls a handler makes on its event and on the document. *)
Inductive Effect : Type :=
| StopPropagation
| PreventDefault
| DispatchClick (aClientX aClientY : number) (target : Element)
| SetSelectionRange (selStart selEnd : nat)
| Focus.

(** ** Instance state *)

(** The fields of a [MomentumScroller], followed by the scroller's view of
    the DOM: the listeners registered through [this.listen], the parent of
    the scrollbar container, and the [transform], [transition] and [opacity]
    styles of the content element, the scrollbar container and the scrollbar
    line.  [startTouchX] and [endMomentumVelocity_] are [undefined] until
    first assigned; they start as [NaN], which is what [undefined] is in
    arithmetic and comparisons. *)
Record Scroller : Type := mkScroller {
  enabled_ : option bool;
  startTouchY : number;
  startTouchX : number;
  contentOffsetY : number;
  contentStartOffsetY : number;
  previousPoint_ : number;
  previousMoment_ : number;
  currentPoint_ : number;
  currentMoment_ : number;
  isDragging_ : bool;
  isDecelerating_ : bool;
  stopPropagationOnTouchEnd_ : bool;
  queuedTransitionStage_ : QUEUED_TRANSITION_STAGE;
  endMomentumVelocity_ : number;
  element : option ElemId;
  frameElement : option ElemId;
  elementSize : option Size;
  frameElementSize : option Size;
  frameElementComputedStyle : option ElemId;
  scrollBarShowTimeout_ : option bool;
  listeners : list ElemId;
  scrollBarParent : option ElemId;
  elementTransform : Transform;
  elementTransition : Transition;
  containerTransform : Transform;
  containerTransition : Transition;
  containerOpacity : option bool;
  lineTransform : Transform;
  lineTransition : Transition
}.

Definition set_enabled_ (v : option bool) (s : Scroller) : Scroller :=
  mkScroller
    v (startTouchY s) (startTouchX s) (contentOffsetY s)
    (contentStartOffsetY s) (previousPoint_ s) (previousMoment_ s)
    (currentPoint_ s) (currentMoment_ s) (isDragging_ s) (isDecelerating_ s)
    (stopPropagationOnTouchEnd_ s) (queuedTransitionStage_ s)
    (endMomentumVelocity_ s) (element s) (frameElement s) (elementSize s)
    (frameElementSize s) (frameElementComputedStyle s)
    (scrollBarShowTimeout_ s) (listeners s) (scrollBarParent s)
    (elementTransform s) (elementTransition s) (containerTransform s)
    (containerTransition s) (containerOpacity s) (lineTransform s)
    (lineTransition s).
Definition set_startTouchY (v : number) (s : Scroller) : Scroller :=
  mkScroller
    (enabled_ s) v (startTouchX s) (contentOffsetY s) (contentStartOffsetY s)
    (previousPoint_ s) (previousMoment_ s) (currentPoint_ s)
    (currentMoment_ s) (isDragging_ s) (isDecelerating_ s)
    (stopPropagationOnTouchEnd_ s) (queuedTransitionStage_ s)
    (endMomentumVelocity_ s) (element s) (frameElement s) (elementSize s)
    (frameElementSize s) (frameElementComputedStyle s)
    (scrollBarShowTimeout_ s) (listeners s) (scrollBarParent s)
    (elementTransform s) (elementTransition s) (containerTransform s)
    (containerTransition s) (containerOpacity s) (lineTransform s)
    (lineTransition s).
Definition set_startTouchX (v : number) (s : Scroller) : Scroller :=
  mkScroller
    (enabled_ s) (startTouchY s) v (contentOffsetY s) (contentStartOffsetY s)
    (previousPoint_ s) (previousMoment_ s) (currentPoint_ s)
    (currentMoment_ s) (isDragging_ s) (isDecelerating_ s)
    (stopPropagationOnTouchEnd_ s) (queuedTransitionStage_ s)
    (endMomentumVelocity_ s) (element s) (frameElement s) (elementSize s)
    (frameElementSize s) (frameElementComputedStyle s)
    (scrollBarShowTimeout_ s) (listeners s) (scrollBarParent s)
    (elementTransform s) (elementTransition s) (containerTransform s)
    (containerTransition s) (containerOpacity s) (lineTransform s)
    (lineTransition s).
Definition set_contentOffsetY (v : number) (s : Scroller) : Scroller :=
  mkScroller
    (enabled_ s) (startTouchY s) (startTouchX s) v (contentStartOffsetY s)
    (previousPoint_ s) (previousMoment_ s) (currentPoint_ s)
    (currentMoment_ s) (isDragging_ s) (isDecelerating_ s)
    (stopPropagationOnTouchEnd_ s) (queuedTransitionStage_ s)
    (endMomentumVelocity_ s) (element s) (frameElement s) (elementSize s)
    (frameElementSize s) (frameElementComputedStyle s)
    (scrollBarShowTimeout_ s) (listeners s) (scrollBarParent s)
    (elementTransform s) (elementTransition s) (containerTransform s)
    (containerTransition s) (containerOpacity s) (lineTransform s)
    (lineTransition s).
Definition set_contentStartOffsetY (v : number) (s : Scroller) : Scroller :=
  mkScroller
    (enabled_ s) (startTouchY s) (startTouchX s) (contentOffsetY s) v
    (previousPoint_ s) (previousMoment_ s) (currentPoint_ s)
    (currentMoment_ s) (isDragging_ s) (isDecelerating_ s)
    (stopPropagationOnTouchEnd_ s) (queuedTransitionStage_ s)
    (endMomentumVelocity_ s) (element s) (frameElement s) (elementSize s)
    (frameElementSize s) (frameElementComputedStyle s)
    (scrollBarShowTimeout_ s) (listeners s) (scrollBarParent s)
    (elementTransform s) (elementTransition s) (containerTransform s)
    (containerTransition s) (containerOpacity s) (lineTransform s)
    (lineTransition s).
Definition set_previousPoint_ (v : number) (s : Scroller) : Scroller :=
  mkScroller
    (enabled_ s) (startTouchY s) (startTouchX s) (contentOffsetY s)
    (contentStartOffsetY s) v (previousMoment_ s) (currentPoint_ s)
    (currentMoment_ s) (isDragging_ s) (isDecelerating_ s)
    (stopPropagationOnTouchEnd_ s) (queuedTransitionStage_ s)
    (endMomentumVelocity_ s) (element s) (frameElement s) (elementSize s)
    (frameElementSize s) (frameElementComputedStyle s)
    (scrollBarShowTimeout_ s) (listeners s) (scrollBarParent s)
    (elementTransform s) (elementTransition s) (containerTransform s)
    (containerTransition s) (containerOpacity s) (lineTransform s)
    (lineTransition s).
Definition set_previousMoment_ (v : number) (s : Scroller) : Scroller :=
  mkScroller
    (enabled_ s) (startTouchY s) (startTouchX s) (contentOffsetY s)
    (contentStartOffsetY s) (previousPoint_ s) v (currentPoint_ s)
    (currentMoment_ s) (isDragging_ s) (isDecelerating_ s)
    (stopPropagationOnTouchEnd_ s) (queuedTransitionStage_ s)
    (endMomentumVelocity_ s) (element s) (frameElement s) (elementSize s)
    (frameElementSize s) (frameElementComputedStyle s)
    (scrollBarShowTimeout_ s) (listeners s) (scrollBarParent s)
    (elementTransform s) (elementTransition s) (containerTransform s)
    (containerTransition s) (containerOpacity s) (lineTransform s)
    (lineTransition s).
Definition set_currentPoint_ (v : number) (s : Scroller) : Scroller :=
  mkScroller
    (enabled_ s) (startTouchY s) (startTouchX s) (contentOffsetY s)
    (contentStartOffsetY s) (previousPoint_ s) (previousMoment_ s) v
    (currentMoment_ s) (isDragging_ s) (isDecelerating_ s)
    (stopPropagationOnTouchEnd_ s) (queuedTransitionStage_ s)
    (endMomentumVelocity_ s) (element s) (frameElement s) (elementSize s)
    (frameElementSize s) (frameElementComputedStyle s)
    (scrollBarShowTimeout_ s) (listeners s) (scrollBarParent s)
    (elementTransform s) (elementTransition s) (containerTransform s)
    (containerTransition s) (containerOpacity s) (lineTransform s)
    (lineTransition s).
Definition set_currentMoment_ (v : number) (s : Scroller) : Scroller :=
  mkScroller
    (enabled_ s) (startTouchY s) (startTouchX s) (contentOffsetY s)
    (contentStartOffsetY s) (previousPoint_ s) (previousMoment_ s)
    (currentPoint_ s) v (isDragging_ s) (isDecelerating_ s)
    (stopPropagationOnTouchEnd_ s) (queuedTransitionStage_ s)
    (endMomentumVelocity_ s) (element s) (frameElement s) (elementSize s)
    (frameElementSize s) (frameElementComputedStyle s)
    (scrollBarShowTimeout_ s) (listeners s) (scrollBarParent s)
    (elementTransform s) (elementTransition s) (containerTransform s)
    (containerTransition s) (containerOpacity s) (lineTransform s)
    (lineTransition s).
Definition set_isDragging_ (v : bool) (s : Scroller) : Scroller :=
  mkScroller
    (enabled_ s) (startTouchY s) (startTouchX s) (contentOffsetY s)
    (contentStartOffsetY s) (previousPoint_ s) (previousMoment_ s)
    (currentPoint_ s) (currentMoment_ s) v (isDecelerating_ s)
    (stopPropagationOnTouchEnd_ s) (queuedTransitionStage_ s)
    (endMomentumVelocity_ s) (element s) (frameElement s) (elementSize s)
    (frameElementSize s) (frameElementComputedStyle s)
    (scrollBarShowTimeout_ s) (listeners s) (scrollBarParent s)
    (elementTransform s) (elementTransition s) (containerTransform s)
    (containerTransition s) (containerOpacity s) (lineTransform s)
    (lineTransition s).
Definition set_isDecelerating_ (v : bool) (s : Scroller) : Scroller :=
  mkScroller
    (enabled_ s) (startTouchY s) (startTouchX s) (contentOffsetY s)
    (contentStartOffsetY s) (previousPoint_ s) (previousMoment_ s)
    (currentPoint_ s) (currentMoment_ s) (isDragging_ s) v
    (stopPropagationOnTouchEnd_ s) (queuedTransitionStage_ s)
    (endMomentumVelocity_ s) (element s) (frameElement s) (elementSize s)
    (frameElementSize s) (frameElementComputedStyle s)
    (scrollBarShowTimeout_ s) (listeners s) (scrollBarParent s)
    (elementTransform s) (elementTransition s) (containerTransform s)
    (containerTransition s) (containerOpacity s) (lineTransform s)
    (lineTransition s).
Definition set_stopPropagationOnTouchEnd_ (v : bool) (s : Scroller) : Scroller :=
  mkScroller
    (enabled_ s) (startTouchY s) (startTouchX s) (contentOffsetY s)
    (contentStartOffsetY s) (previousPoint_ s) (previousMoment_ s)
    (currentPoint_ s) (currentMoment_ s) (isDragging_ s) (isDecelerating_ s) v
    (queuedTransitionStage_ s) (endMomentumVelocity_ s) (element s)
    (frameElement s) (elementSize s) (frameElementSize s)
    (frameElementComputedStyle s) (scrollBarShowTimeout_ s) (listeners s)
    (scrollBarParent s) (elementTransform s) (elementTransition s)
    (containerTransform s) (containerTransition s) (containerOpacity s)
    (lineTransform s) (lineTransition s).
Definition set_queuedTransitionStage_ (v : QUEUED_TRANSITION_STAGE) (s : Scroller) : Scroller :=
  mkScroller
    (enabled_ s) (startTouchY s) (startTouchX s) (contentOffsetY s)
    (contentStartOffsetY s) (previousPoint_ s) (previousMoment_ s)
    (currentPoint_ s) (currentMoment_ s) (isDragging_ s) (isDecelerating_ s)
    (stopPropagationOnTouchEnd_ s) v (endMomentumVelocity_ s) (element s)
    (frameElement s) (elementSize s) (frameElementSize s)
    (frameElementComputedStyle s) (scrollBarShowTimeout_ s) (listeners s)
    (scrollBarParent s) (elementTransform s) (elementTransition s)
    (containerTransform s) (containerTransition s) (containerOpacity s)
    (lineTransform s) (lineTransition s).
Definition set_endMomentumVelocity_ (v : number) (s : Scroller) : Scroller :=
  mkScroller
    (enabled_ s) (startTouchY s) (startTouchX s) (contentOffsetY s)
    (contentStartOffsetY s) (previousPoint_ s) (previousMoment_ s)
    (currentPoint_ s) (currentMoment_ s) (isDragging_ s) (isDecelerating_ s)
    (stopPropagationOnTouchEnd_ s) (queuedTransitionStage_ s) v (element s)
    (frameElement s) (elementSize s) (frameElementSize s)
    (frameElementComputedStyle s) (scrollBarShowTimeout_ s) (listeners s)
    (scrollBarParent s) (elementTransform s) (elementTransition s)
    (containerTransform s) (containerTransition s) (containerOpacity s)
    (lineTransform s) (lineTransition s).
Definition set_element (v : option ElemId) (s : Scroller) : Scroller :=
  mkScroller
    (enabled_ s) (startTouchY s) (startTouchX s) (contentOffsetY s)
    (contentStartOffsetY s) (previousPoint_ s) (previousMoment_ s)
    (currentPoint_ s) (currentMoment_ s) (isDragging_ s) (isDecelerating_ s)
    (stopPropagationOnTouchEnd_ s) (queuedTransitionStage_ s)
    (endMomentumVelocity_ s) v (frameElement s) (elementSize s)
    (frameElementSize s) (frameElementComputedStyle s)
    (scrollBarShowTimeout_ s) (listeners s) (scrollBarParent s)
    (elementTransform s) (elementTransition s) (containerTransform s)
    (containerTransition s) (containerOpacity s) (lineTransform s)
    (lineTransition s).
Definition set_frameElement (v : option ElemId) (s : Scroller) : Scroller :=
  mkScroller
    (enabled_ s) (startTouchY s) (startTouchX s) (contentOffsetY s)
    (contentStartOffsetY s) (previousPoint_ s) (previousMoment_ s)
    (currentPoint_ s) (currentMoment_ s) (isDragging_ s) (isDecelerating_ s)
    (stopPropagationOnTouchEnd_ s) (queuedTransitionStage_ s)
    (endMomentumVelocity_ s) (element s) v (elementSize s)
    (frameElementSize s) (frameElementComputedStyle s)
    (scrollBarShowTimeout_ s) (listeners s) (scrollBarParent s)
    (elementTransform s) (elementTransition s) (containerTransform s)
    (containerTransition s) (containerOpacity s) (lineTransform s)
    (lineTransition s).
Definition set_elementSize (v : option Size) (s : Scroller) : Scroller :=
  mkScroller
    (enabled_ s) (startTouchY s) (startTouchX s) (contentOffsetY s)
    (contentStartOffsetY s) (previousPoint_ s) (previousMoment_ s)
    (currentPoint_ s) (currentMoment_ s) (isDragging_ s) (isDecelerating_ s)
    (stopPropagationOnTouchEnd_ s) (queuedTransitionStage_ s)
    (endMomentumVelocity_ s) (element s) (frameElement s) v
    (frameElementSize s) (frameElementComputedStyle s)
    (scrollBarShowTimeout_ s) (listeners s) (scrollBarParent s)
    (elementTransform s) (elementTransition s) (containerTransform s)
    (containerTransition s) (containerOpacity s) (lineTransform s)
    (lineTransition s).
Definition set_frameElementSize (v : option Size) (s : Scroller) : Scroller :=
  mkScroller
    (enabled_ s) (startTouchY s) (startTouchX s) (contentOffsetY s)
    (contentStartOffsetY s) (previousPoint_ s) (previousMoment_ s)
    (currentPoint_ s) (currentMoment_ s) (isDragging_ s) (isDecelerating_ s)
    (stopPropagationOnTouchEnd_ s) (queuedTransitionStage_ s)
    (endMomentumVelocity_ s) (element s) (frameElement s) (elementSize s) v
    (frameElementComputedStyle s) (scrollBarShowTimeout_ s) (listeners s)
    (scrollBarParent s) (elementTransform s) (elementTransition s)
    (containerTransform s) (containerTransition s) (containerOpacity s)
    (lineTransform s) (lineTransition s).
Definition set_frameElementComputedStyle (v : option ElemId) (s : Scroller) : Scroller :=
  mkScroller
    (enabled_ s) (startTouchY s) (startTouchX s) (contentOffsetY s)
    (contentStartOffsetY s) (previousPoint_ s) (previousMoment_ s)
    (currentPoint_ s) (currentMoment_ s) (isDragging_ s) (isDecelerating_ s)
    (stopPropagationOnTouchEnd_ s) (queuedTransitionStage_ s)
    (endMomentumVelocity_ s) (element s) (frameElement s) (elementSize s)
    (frameElementSize s) v (scrollBarShowTimeout_ s) (listeners s)
    (scrollBarParent s) (elementTransform s) (elementTransition s)
    (containerTransform s) (containerTransition s) (containerOpacity s)
    (lineTransform s) (lineTransition s).
Definition set_scrollBarShowTimeout_ (v : option bool) (s : Scroller) : Scroller :=
  mkScroller
    (enabled_ s) (startTouchY s) (startTouchX s) (contentOffsetY s)
    (contentStartOffsetY s) (previousPoint_ s) (previousMoment_ s)
    (currentPoint_ s) (currentMoment_ s) (isDragging_ s) (isDecelerating_ s)
    (stopPropagationOnTouchEnd_ s) (queuedTransitionStage_ s)
    (endMomentumVelocity_ s) (element s) (frameElement s) (elementSize s)
    (frameElementSize s) (frameElementComputedStyle s) v (listeners s)
    (scrollBarParent s) (elementTransform s) (elementTransition s)
    (containerTransform s) (containerTransition s) (containerOpacity s)
    (lineTransform s) (lineTransition s).
Definition set_listeners (v : list ElemId) (s : Scroller) : Scroller :=
  mkScroller
    (enabled_ s) (startTouchY s) (startTouchX s) (contentOffsetY s)
    (contentStartOffsetY s) (previousPoint_ s) (previousMoment_ s)
    (currentPoint_ s) (currentMoment_ s) (isDragging_ s) (isDecelerating_ s)
    (stopPropagationOnTouchEnd_ s) (queuedTransitionStage_ s)
    (endMomentumVelocity_ s) (element s) (frameElement s) (elementSize s)
    (frameElementSize s) (frameElementComputedStyle s)
    (scrollBarShowTimeout_ s) v (scrollBarParent s) (elementTransform s)
    (elementTransition s) (containerTransform s) (containerTransition s)
    (containerOpacity s) (lineTransform s) (lineTransition s).
Definition set_scrollBarParent (v : option ElemId) (s : Scroller) : Scroller :=
  mkScroller
    (enabled_ s) (startTouchY s) (startTouchX s) (contentOffsetY s)
    (contentStartOffsetY s) (previousPoint_ s) (previousMoment_ s)
    (currentPoint_ s) (currentMoment_ s) (isDragging_ s) (isDecelerating_ s)
    (stopPropagationOnTouchEnd_ s) (queuedTransitionStage_ s)
    (endMomentumVelocity_ s) (element s) (frameElement s) (elementSize s)
    (frameElementSize s) (frameElementComputedStyle s)
    (scrollBarShowTimeout_ s) (listeners s) v (elementTransform s)
    (elementTransition s) (containerTransform s) (containerTransition s)
    (containerOpacity s) (lineTransform s) (lineTransition s).
Definition set_elementTransform (v : Transform) (s : Scroller) : Scroller :=
  mkScroller
    (enabled_ s) (startTouchY s) (startTouchX s) (contentOffsetY s)
    (contentStartOffsetY s) (previousPoint_ s) (previousMoment_ s)
    (currentPoint_ s) (currentMoment_ s) (isDragging_ s) (isDecelerating_ s)
    (stopPropagationOnTouchEnd_ s) (queuedTransitionStage_ s)
    (endMomentumVelocity_ s) (element s) (frameElement s) (elementSize s)
    (frameElementSize s) (frameElementComputedStyle s)
    (scrollBarShowTimeout_ s) (listeners s) (scrollBarParent s) v
    (elementTransition s) (containerTransform s) (containerTransition s)
    (containerOpacity s) (lineTransform s) (lineTransition s).
Definition set_elementTransition (v : Transition) (s : Scroller) : Scroller :=
  mkScroller
    (enabled_ s) (startTouchY s) (startTouchX s) (contentOffsetY s)
    (contentStartOffsetY s) (previousPoint_ s) (previousMoment_ s)
    (currentPoint_ s) (currentMoment_ s) (isDragging_ s) (isDecelerating_ s)
    (stopPropagationOnTouchEnd_ s) (queuedTransitionStage_ s)
    (endMomentumVelocity_ s) (element s) (frameElement s) (elementSize s)
    (frameElementSize s) (frameElementComputedStyle s)
    (scrollBarShowTimeout_ s) (listeners s) (scrollBarParent s)
    (elementTransform s) v (containerTransform s) (containerTransition s)
    (containerOpacity s) (lineTransform s) (lineTransition s).
Definition set_containerTransform (v : Transform) (s : Scroller) : Scroller :=
  mkScroller
    (enabled_ s) (startTouchY s) (startTouchX s) (contentOffsetY s)
    (contentStartOffsetY s) (previousPoint_ s) (previousMoment_ s)
    (currentPoint_ s) (currentMoment_ s) (isDragging_ s) (isDecelerating_ s)
    (stopPropagationOnTouchEnd_ s) (queuedTransitionStage_ s)
    (endMomentumVelocity_ s) (element s) (frameElement s) (elementSize s)
    (frameElementSize s) (frameElementComputedStyle s)
    (scrollBarShowTimeout_ s) (listeners s) (scrollBarParent s)
    (elementTransform s) (elementTransition s) v (containerTransition s)
    (containerOpacity s) (lineTransform s) (lineTransition s).
Definition set_containerTransition (v : Transition) (s : Scroller) : Scroller :=
  mkScroller
    (enabled_ s) (startTouchY s) (startTouchX s) (contentOffsetY s)
    (contentStartOffsetY s) (previousPoint_ s) (previousMoment_ s)
    (currentPoint_ s) (currentMoment_ s) (isDragging_ s) (isDecelerating_ s)
    (stopPropagationOnTouchEnd_ s) (queuedTransitionStage_ s)
    (endMomentumVelocity_ s) (element s) (frameElement s) (elementSize s)
    (frameElementSize s) (frameElementComputedStyle s)
    (scrollBarShowTimeout_ s) (listeners s) (scrollBarParent s)
    (elementTransform s) (elementTransition s) (containerTransform s) v
    (containerOpacity s) (lineTransform s) (lineTransition s).
Definition set_containerOpacity (v : option bool) (s : Scroller) : Scroller :=
  mkScroller
    (enabled_ s) (startTouchY s) (startTouchX s) (contentOffsetY s)
    (contentStartOffsetY s) (previousPoint_ s) (previousMoment_ s)
    (currentPoint_ s) (currentMoment_ s) (isDragging_ s) (isDecelerating_ s)
    (stopPropagationOnTouchEnd_ s) (queuedTransitionStage_ s)
    (endMomentumVelocity_ s) (element s) (frameElement s) (elementSize s)
    (frameElementSize s) (frameElementComputedStyle s)
    (scrollBarShowTimeout_ s) (listeners s) (scrollBarParent s)
    (elementTransform s) (elementTransition s) (containerTransform s)
    (containerTransition s) v (lineTransform s) (lineTransition s).
Definition set_lineTransform (v : Transform) (s : Scroller) : Scroller :=
  mkScroller
    (enabled_ s) (startTouchY s) (startTouchX s) (contentOffsetY s)
    (contentStartOffsetY s) (previousPoint_ s) (previousMoment_ s)
    (currentPoint_ s) (currentMoment_ s) (isDragging_ s) (isDecelerating_ s)
    (stopPropagationOnTouchEnd_ s) (queuedTransitionStage_ s)
    (endMomentumVelocity_ s) (element s) (frameElement s) (elementSize s)
    (frameElementSize s) (frameElementComputedStyle s)
    (scrollBarShowTimeout_ s) (listeners s) (scrollBarParent s)
    (elementTransform s) (elementTransition s) (containerTransform s)
    (containerTransition s) (containerOpacity s) v (lineTransition s).
Definition set_lineTransition (v : Transition) (s : Scroller) : Scroller :=
  mkScroller
    (enabled_ s) (startTouchY s) (startTouchX s) (contentOffsetY s)
    (contentStartOffsetY s) (previousPoint_ s) (previousMoment_ s)
    (currentPoint_ s) (currentMoment_ s) (isDragging_ s) (isDecelerating_ s)
    (stopPropagationOnTouchEnd_ s) (queuedTransitionStage_ s)
    (endMomentumVelocity_ s) (element s) (frameElement s) (elementSize s)
    (frameElementSize s) (frameElementComputedStyle s)
    (scrollBarShowTimeout_ s) (listeners s) (scrollBarParent s)
    (elementTransform s) (elementTransition s) (containerTransform s)
    (containerTransition s) (containerOpacity s) (lineTransform s) v.

(** A new instance: the prototype's values. *)
Definition newScroller : Scroller :=
  {| enabled_ := None;
     startTouchY := Fin 0;
     startTouchX := NaN;
     contentOffsetY := Fin 0;
     contentStartOffsetY := Fin 0;
     previousPoint_ := Fin 0;
     previousMoment_ := Fin 0;
     currentPoint_ := Fin 0;
     currentMoment_ := Fin 0;
     isDragging_ := false;
     isDecelerating_ := false;
     stopPropagationOnTouchEnd_ := false;
     queuedTransitionStage_ := NONE;
     endMomentumVelocity_ := NaN;
     element := None;
     frameElement := None;
     elementSize := None;
     frameElementSize := None;
     frameElementComputedStyle := None;
     scrollBarShowTimeout_ := None;
     listeners := [];
     scrollBarParent := None;
     elementTransform := TransformNone;
     elementTransition := TransitionNone;
     containerTransform := TransformNone;
     containerTransition := TransitionNone;
     containerOpacity := None;
     lineTransform := TransformNone;
     lineTransition := TransitionNone |}.

Open Scope js_scope.

(** ** The motion engine

    Everything in this section runs between [calculateSizes] (in
    [enable(true)]) and [enable(false)]: [aElementSize] and
    [aFrameElementSize] are the measured [this.elementSize] and
    [this.frameElementSize]. *)

Section Engine.

Variables aElementSize aFrameElementSize : Size.

Definition getScrollBarLineHeight : number :=
  let height_ := height aFrameElementSize /
                 (height aElementSize / height aFrameElementSize) in
  if height_ <? SCROLLBAR_MIN_HEIGHT then SCROLLBAR_MIN_HEIGHT else height_.

Definition getLowestContentPosition : number :=
  - height aElementSize + height aFrameElementSize.

Definition positionIsOutOfBounds (aPosition : number) : bool :=
  (aPosition >? Fin 0) || (aPosition <? getLowestContentPosition).

Definition isOutOfBounds (s : Scroller) : bool :=
  positionIsOutOfBounds (contentOffsetY s).

(** [isDragging] returns its answer and stores it in [isDragging_]. *)
Definition isDragging (s : Scroller) : bool * Scroller :=
  if isDragging_ s then (true, s)
  else
    let b := abs (currentPoint_ s - startTouchY s) >=? DRAG_THRESHOLD in
    (b, set_isDragging_ b s).

Definition shouldStartMomentum (s : Scroller) : bool :=
  if isOutOfBounds s then false else true.

Definition getEndMomentumVelocity
    (aStartVelocity aDisplacement aAcceleration : number) : number :=
  sqrt (aStartVelocity * aStartVelocity +
        aDisplacement * Fin 2 * aAcceleration).

Definition getAcceleration (aVelocity : number) : number :=
  if aVelocity <? Fin 0 then ACCELERATION_SLIDING
  else - ACCELERATION_SLIDING.


Definition getEndVelocity (s : Scroller) : number :=
  let velocity := (currentPoint_ s - previousPoint_ s) /
                  (currentMoment_ s - previousMoment_ s) in
  let velocitySign := math_sign (currentPoint_ s - previousPoint_ s) in
  if isNaN velocity then Fin 0
  else if abs velocity >? MAXIMUM_VELOCITY
       then velocitySign * MAXIMUM_VELOCITY
       else velocity.

Definition showScrollBar (aShow : bool) (s : Scroller) : Scroller :=
  let s := set_scrollBarShowTimeout_ None s in
  let s := if negb aShow then set_containerTransition TransitionOpacity s
           else s in
  set_containerOpacity (Some aShow) s.

(** The timeout's callback is kept as the pending argument of
    [showScrollBar]. *)
Definition showScrollBarDelayed (aShow : bool) (s : Scroller) : Scroller :=
  let s := set_scrollBarShowTimeout_ None s in
  set_scrollBarShowTimeout_ (Some aShow) s.

Definition animateTo (offsetY : number) (opt_doNotAnimateScrollBar : bool)
    (s : Scroller) : Scroller :=
  let s := set_contentOffsetY offsetY s in
  let s := set_elementTransform (Translate3dY offsetY) s in
  if negb opt_doNotAnimateScrollBar then
    let lowestContentPosition := getLowestContentPosition in
    let offsetYWithinBounds :=
      if offsetY >? Fin 0 then Fin 0
      else if offsetY <? lowestContentPosition then lowestContentPosition
      else offsetY in
    let deltaOutOfBounds := abs (offsetY - offsetYWithinBounds) in
    let scrollBarLineReduced := getScrollBarLineHeight - deltaOutOfBounds in
    let scrollBarLineReducedBounded :=
      if scrollBarLineReduced <? SCROLLBAR_MIN_HEIGHT
      then SCROLLBAR_MIN_HEIGHT else scrollBarLineReduced in
    let s :=
      if offsetY >? Fin 0 then
        set_containerTransform
          (Translate3dY (scrollBarLineReducedBounded / Fin 2)) s
      else if offsetY <? lowestContentPosition then
        set_containerTransform
          (Translate3dY (height aFrameElementSize -
                         scrollBarLineReducedBounded / Fin 2)) s
      else
        set_containerTransform
          (Translate3dY
             (- (offsetYWithinBounds /
                 (height aElementSize / height aFrameElementSize) -
                 getScrollBarLineHeight / Fin 2))) s in
    set_lineTransform (ScaleY scrollBarLineReducedBounded) s
  else s.

Definition animateWithinBounds (aOffsetY : number) (s : Scroller)
    : Scroller :=
  let lowestContentPosition := getLowestContentPosition in
  let offsetY :=
    if aOffsetY >? Fin 0 then Fin 0
    else if aOffsetY <? lowestContentPosition then lowestContentPosition
    else aOffsetY in
  animateTo offsetY false s.

Definition snapToBounds (s : Scroller) : Scroller :=
  let transition := TransitionTransform (Fin 500) EaseOut in
  let s := set_elementTransition transition s in
  let s := set_containerTransition transition s in
  let s := set_lineTransition transition s in
  let s :=
    if contentOffsetY s >? Fin 0 then
      let s := set_contentOffsetY (Fin 0) s in
      set_containerTransform
        (Translate3dY (getScrollBarLineHeight / Fin 2)) s
    else
      let s := set_contentOffsetY getLowestContentPosition s in
      set_containerTransform
        (Translate3dY (height aFrameElementSize -
                       getScrollBarLineHeight / Fin 2)) s in
  let s := set_elementTransform (Translate3dY (contentOffsetY s)) s in
  let s := set_lineTransform (ScaleY getScrollBarLineHeight) s in
  set_isDecelerating_ true s.

Definition setUpTransitionStage1 (s : Scroller) : Scroller :=
  let velocity := getEndVelocity s in
  let acceleration := getAcceleration velocity in
  let '(displacement, s) :=
    if velocity >? Fin 0 then
      (- contentOffsetY s, set_contentOffsetY (Fin 0) s)
    else
      (getLowestContentPosition - contentOffsetY s,
       set_contentOffsetY getLowestContentPosition s) in
  let s :=
    set_endMomentumVelocity_
      ((if velocity <? Fin 0 then Fin (-1) else Fin 1) *
       getEndMomentumVelocity velocity displacement acceleration) s in
  let time :=
    abs ((velocity - endMomentumVelocity_ s) / acceleration) in
  let valueToLowerCubicBezierWith :=
    abs (endMomentumVelocity_ s / velocity) * Fin (33 / 100) in
  let transition :=
    TransitionTransform time
      (CubicBezier (Fin (33 / 100))
                   (Fin (66 / 100) - valueToLowerCubicBezierWith)
                   (Fin (66 / 100))
                   (Fin 1 - valueToLowerCubicBezierWith)) in
  let s := set_elementTransition transition s in
  let s := set_elementTransform (Translate3dY (contentOffsetY s)) s in
  let s := set_containerTransition transition s in
  let s :=
    set_containerTransform
      (Translate3dY
         (- (contentOffsetY s /
             (height aElementSize / height aFrameElementSize) -
             getScrollBarLineHeight / Fin 2))) s in
  set_queuedTransitionStage_ TO_BOUNDS s.

(** The local [displacement] of [setUpTransitionStage2], once both of its
    clamps have run. *)
Definition overshootDisplacement (velocity : number) : number :=
  let acceleration :=
    getAcceleration velocity * ACCELERATION_BOUNCE_BACK_COEFF in
  let displacement := (- (velocity * velocity)) / (Fin 2 * acceleration) in
  let displacement :=
    if displacement >? OUT_OF_BOUNDS_MAXIMUM then OUT_OF_BOUNDS_MAXIMUM
    else displacement in
  let displacement :=
    if displacement <? - OUT_OF_BOUNDS_MAXIMUM then - OUT_OF_BOUNDS_MAXIMUM
    else displacement in
  displacement.

Definition setUpTransitionStage2 (s : Scroller) : Scroller :=
  let velocity := endMomentumVelocity_ s in
  let displacement := overshootDisplacement velocity in
  let time := Fin 100 in
  let newY :=
    if velocity >? Fin 0 then displacement
    else contentOffsetY s + displacement in
  let s := set_contentOffsetY newY s in
  let transition :=
    TransitionTransform time
      (CubicBezier (Fin (33 / 100)) (Fin (66 / 100)) (Fin (66 / 100))
                   (Fin 1)) in
  let s := set_elementTransition transition s in
  let s := set_elementTransform (Translate3dY newY) s in
  let scrollBarLineReduced := getScrollBarLineHeight - abs displacement in
  let s := set_containerTransition transition s in
  let s := set_lineTransition transition s in
  let s := set_lineTransform (ScaleY scrollBarLineReduced) s in
  let s :=
    if velocity >? Fin 0 then
      set_containerTransform
        (Translate3dY (scrollBarLineReduced / Fin 2)) s
    else
      set_containerTransform
        (Translate3dY (height aFrameElementSize -
                       scrollBarLineReduced / Fin 2)) s in
  set_queuedTransitionStage_ BOUNCED_OUT s.

Definition setUpTransitionStage3 (s : Scroller) : Scroller :=
  let s := snapToBounds s in
  set_queuedTransitionStage_ BOUNCED_BACK s.

Definition doMomentum (s : Scroller) : Scroller :=
  let velocity := getEndVelocity s in
  if negb (velocity ==? Fin 0) then
    let acceleration := getAcceleration velocity in
    let displacement :=
      (- (velocity * velocity)) / (Fin 2 * acceleration) in
    let time := (- velocity) / acceleration in
    let newY := contentOffsetY s + displacement in
    let s :=
      if positionIsOutOfBounds newY then setUpTransitionStage1 s
      else
        let transition :=
          TransitionTransform time
            (CubicBezier (Fin (33 / 100)) (Fin (66 / 100))
                         (Fin (66 / 100)) (Fin 1)) in
        let s := set_elementTransition transition s in
        let s := set_containerTransition transition s in
        let s := set_contentOffsetY newY s in
        let s := set_elementTransform (Translate3dY newY) s in
        set_containerTransform
          (Translate3dY
             (- (newY / (height aElementSize / height aFrameElementSize) -
                 getScrollBarLineHeight / Fin 2))) s in
    set_isDecelerating_ true s
  else showScrollBarDelayed false s.

Definition stopMomentum (live : LiveMatrices) (s : Scroller) : Scroller :=
  let s :=
    if isDecelerating_ s then
      let s := set_elementTransition TransitionNone s in
      let s := set_containerTransition TransitionNone s in
      let s := set_lineTransition TransitionNone s in
      let s := animateTo (elementM42 live) true s in
      let s := set_containerTransform (Translate3dY (containerM42 live)) s in
      let s := set_lineTransform (ScaleY (lineM22 live)) s in
      let s := set_queuedTransitionStage_ NONE s in
      set_stopPropagationOnTouchEnd_ true s
    else set_stopPropagationOnTouchEnd_ false s in
  set_isDecelerating_ false s.

(** [String.prototype.toLowerCase], on ASCII. *)
Definition toLowerCaseAscii (c : ascii) : ascii :=
  let n := nat_of_ascii c in
  if (Nat.leb 65 n && Nat.leb n 90)%bool then ascii_of_nat (n + 32) else c.

Fixpoint toLowerCase (str : string) : string :=
  match str with
  | EmptyString => EmptyString
  | String c rest => String (toLowerCaseAscii c) (toLowerCase rest)
  end.

Definition typeIsOneOf (t : string) (ts : list string) : bool :=
  existsb (String.eqb t) ts.

Definition needsFocus (aElement : Element) : bool :=
  let name := toLowerCase (nodeName aElement) in
  if String.eqb name "textarea" then true
  else if String.eqb name "select" then true
  else if String.eqb name "input" then
    if typeIsOneOf (type aElement)
         ["button"; "checkbox"; "file"; "image"; "radio"; "submit"]%string
    then false
    else negb (disabled aElement) && negb (readOnly aElement)
  else false.

Definition focusIfNeeded (aElement : Element) : list Effect :=
  if needsFocus aElement then
    if hasSetSelectionRange aElement &&
       negb (String.prefix "date" (type aElement)) &&
       negb (String.eqb (type aElement) "time") &&
       negb (String.eqb (type aElement) "month")
    then
      let length := String.length (value aElement) in
      [SetSelectionRange length length]
    else [Focus]
  else [].

(** [target] is what [document.elementFromPoint] finds at the point. *)
Definition synthesizeClick (aClientX aClientY : number) (target : Element)
    : list Effect :=
  DispatchClick aClientX aClientY target :: focusIfNeeded target.

Definition onTouchStart (aEvent : TouchEvent) (live : LiveMatrices)
    (s : Scroller) : Scroller * list Effect :=
  let s := stopMomentum live s in
  let s := showScrollBar true s in
  let fx :=
    if stopPropagationOnTouchEnd_ s then [StopPropagation; PreventDefault]
    else [] in
  let s := set_startTouchY (clientY aEvent) s in
  let s := set_startTouchX (clientX aEvent) s in
  let s := set_contentStartOffsetY (contentOffsetY s) s in
  let s := set_currentPoint_ (startTouchY s) s in
  let s := set_previousPoint_ (currentPoint_ s) s in
  let s := set_currentMoment_ (now aEvent) s in
  let s := set_previousMoment_ (currentMoment_ s) s in
  (set_isDragging_ true s, fx).

Definition onTouchMove (aEvent : TouchEvent) (s : Scroller) : Scroller :=
  let '(dragging, s) := isDragging s in
  if dragging then
    let currentY := clientY aEvent in
    let deltaY := currentY - startTouchY s in
    let deltaY :=
      if isOutOfBounds s then deltaY / exp (abs (deltaY / Fin 550))
      else deltaY in
    let newY := deltaY + contentStartOffsetY s in
    let s := set_previousPoint_ (currentPoint_ s) s in
    let s := set_previousMoment_ (currentMoment_ s) s in
    let s := set_currentPoint_ currentY s in
    let s := set_currentMoment_ (now aEvent) s in
    animateTo newY false s
  else s.

Definition onTouchEnd (target : Element) (s : Scroller)
    : Scroller * list Effect :=
  let '(dragging, s) := isDragging s in
  let s :=
    if dragging then
      if shouldStartMomentum s then doMomentum s else snapToBounds s
    else showScrollBarDelayed false s in
  let '(s, fx) :=
    if stopPropagationOnTouchEnd_ s ||
       (abs (currentPoint_ s - startTouchY s) >=? DRAG_THRESHOLD)
    then (set_stopPropagationOnTouchEnd_ false s,
          [StopPropagation; PreventDefault])
    else (s, synthesizeClick (startTouchX s) (startTouchY s) target) in
  let s := set_currentMoment_ (Fin 0) s in
  let s := set_currentPoint_ (Fin 0) s in
  let s := set_previousMoment_ (Fin 0) s in
  let s := set_previousPoint_ (Fin 0) s in
  let s := set_startTouchY (Fin 0) s in
  let s := set_startTouchX (Fin 0) s in
  (set_isDragging_ false s, fx).

Definition targetIsElement (target : ElemId) (s : Scroller) : bool :=
  match element s with
  | Some e => Nat.eqb target e
  | None => false
  end.

Definition onTransitionEnd (target : ElemId) (s : Scroller) : Scroller :=
  if negb (targetIsElement target s) then s
  else
    match queuedTransitionStage_ s with
    | NONE =>
        let s := set_elementTransition TransitionNone s in
        let s := set_containerTransition TransitionNone s in
        let s := set_lineTransition TransitionNone s in
        let s := showScrollBarDelayed false s in
        set_isDecelerating_ false s
    | TO_BOUNDS => setUpTransitionStage2 s
    | BOUNCED_OUT => setUpTransitionStage3 s
    | BOUNCED_BACK =>
        let s := set_queuedTransitionStage_ NONE s in
        let s := set_elementTransition TransitionNone s in
        let s := set_lineTransition TransitionNone s in
        let s := set_containerTransition TransitionNone s in
        let s := showScrollBarDelayed false s in
        set_isDecelerating_ false s
    end.

(** The callback installed by [showScrollBarDelayed]. *)
Definition onScrollBarTimeout (s : Scroller) : Scroller :=
  match scrollBarShowTimeout_ s with
  | Some aShow => showScrollBar aShow s
  | None => s
  end.

Definition setScrollTop (aScrollTop : number) (s : Scroller) : Scroller :=
  let scrollTop :=
    if isNaN aScrollTop || (aScrollTop ==? Fin 0) then Fin 0
    else - aScrollTop in
  animateWithinBounds scrollTop s.

End Engine.

Definition getScrollTop (s : Scroller) : number :=
  if isNaN (contentOffsetY s) || (contentOffsetY s ==? Fin 0) then Fin 0
  else - contentOffsetY s.

Definition resetInternal (s : Scroller) : Scroller :=
  let s := set_startTouchY (Fin 0) s in
  let s := set_contentOffsetY (Fin 0) s in
  set_contentStartOffsetY (Fin 0) s.

(** ** Attaching and detaching *)

(** Writes to the frame element's inline [overflow] and [position]:
    [setUpStyles] on an element, and [restoreStyles] on an element from the
    computed style object of (possibly another) element. *)
Inductive FrameStyleWrite : Type :=
| SetUpStyles (frame : ElemId)
| RestoreStyles (frame : ElemId) (computedStyleOf : ElemId).

(** What all instances share: the static [instancesCount_], the number of
    [style] nodes carrying the scroller's stylesheet id in [document.head],
    and the writes to frame styles, most recent first. *)
Record Global : Type := mkGlobal {
  instancesCount_ : Z;
  styleSheets : nat;
  frameStyleWrites : list FrameStyleWrite
}.

Definition set_instancesCount_ (v : Z) (g : Global) : Global :=
  mkGlobal v (styleSheets g) (frameStyleWrites g).
Definition set_styleSheets (v : nat) (g : Global) : Global :=
  mkGlobal (instancesCount_ g) v (frameStyleWrites g).
Definition set_frameStyleWrites (v : list FrameStyleWrite) (g : Global)
    : Global :=
  mkGlobal (instancesCount_ g) (styleSheets g) v.

(** What a call reads from the document: [goog.style.getSize] and
    [goog.dom.getFirstElementChild].  A scrollable element has a content
    child; elements are not [null] where the source takes an [Element]. *)
Record Env : Type := mkEnv {
  getSize : ElemId -> Size;
  getFirstElementChild : ElemId -> ElemId
}.

(** How a call ends: it returns, or a [TypeError] is thrown (on a [null] or
    [undefined] element, size or style); either way with the state reached. *)
Inductive Completion (A : Type) : Type :=
| Normal (a : A)
| Throws (a : A).
Arguments Normal {A} a.
Arguments Throws {A} a.

Definition andThen {A : Type} (c : Completion A) (k : A -> Completion A)
    : Completion A :=
  match c with
  | Normal a => k a
  | Throws a => Throws a
  end.

Definition stateOf {A : Type} (c : Completion A) : A :=
  match c with Normal a | Throws a => a end.

Notation "c >>= k" := (andThen c k) (at level 58, left associativity).

Definition isEnabled (s : Scroller) : option bool := enabled_ s.

(** [enabled == aEnabled]: [undefined] equals neither boolean. *)
Definition looseEq (enabled : option bool) (aEnabled : bool) : bool :=
  match enabled with
  | Some b => Bool.eqb b aEnabled
  | None => false
  end.

Definition addStyleSheet (g : Global) : Global :=
  set_styleSheets (S (styleSheets g)) g.

Definition removeStyleSheet (g : Global) : Global :=
  set_styleSheets (Nat.pred (styleSheets g)) g.

Definition setUpStyles (gs : Global * Scroller)
    : Completion (Global * Scroller) :=
  let '(g, s) := gs in
  match frameElement s with
  | None => Throws (g, s)
  | Some frame =>
      let s := set_frameElementComputedStyle (Some frame) s in
      Normal (set_frameStyleWrites (SetUpStyles frame :: frameStyleWrites g) g,
              s)
  end.

Definition restoreStyles (gs : Global * Scroller)
    : Completion (Global * Scroller) :=
  let '(g, s) := gs in
  match frameElement s, frameElementComputedStyle s with
  | Some frame, Some style =>
      Normal (set_frameStyleWrites
                (RestoreStyles frame style :: frameStyleWrites g) g, s)
  | _, _ => Throws (g, s)
  end.

Definition calculateSizes (env : Env) (s : Scroller) : Completion Scroller :=
  match element s with
  | None => Throws s
  | Some el =>
      let s := set_elementSize (Some (getSize env el)) s in
      match frameElement s with
      | None => Throws s
      | Some frame =>
          Normal (set_frameElementSize (Some (getSize env frame)) s)
      end
  end.

(** The listeners of one [enterDocument] are kept as the element they were
    registered on. *)
Definition enterDocument (s : Scroller) : Completion Scroller :=
  match element s with
  | None => Throws s
  | Some el => Normal (set_listeners (el :: listeners s) s)
  end.

Definition exitDocument (s : Scroller) : Scroller := set_listeners [] s.

(** Runs a function of the motion engine on the measured sizes; reading the
    height of an [undefined] size throws. *)
Definition measured (f : Size -> Size -> Scroller -> Scroller)
    (s : Scroller) : Completion Scroller :=
  match elementSize s, frameElementSize s with
  | Some aElementSize, Some aFrameElementSize =>
      Normal (f aElementSize aFrameElementSize s)
  | _, _ => Throws s
  end.

Definition onScroller (g : Global) (c : Completion Scroller)
    : Completion (Global * Scroller) :=
  match c with
  | Normal s => Normal (g, s)
  | Throws s => Throws (g, s)
  end.

Definition enable (env : Env) (aEnabled : bool) (gs : Global * Scroller)
    : Completion (Global * Scroller) :=
  let '(g, s) := gs in
  let enabled := isEnabled s in
  if looseEq enabled aEnabled then Normal (g, s)
  else
    let s := set_enabled_ (Some aEnabled) s in
    if aEnabled then
      let g := set_instancesCount_ (instancesCount_ g + 1) g in
      let g := if (1 =? instancesCount_ g)%Z then addStyleSheet g else g in
      setUpStyles (g, s) >>= fun '(g, s) =>
      onScroller g (calculateSizes env s) >>= fun '(g, s) =>
      onScroller g (enterDocument s) >>= fun '(g, s) =>
      onScroller g
        (measured (fun e f => animateWithinBounds e f (contentOffsetY s)) s)
      >>= fun '(g, s) =>
      onScroller g
        (measured (fun e f => set_lineTransform
                                (ScaleY (getScrollBarLineHeight e f))) s)
      >>= fun '(g, s) =>
      match frameElement s with
      | None => Throws (g, s)
      | Some frame => Normal (g, set_scrollBarParent (Some frame) s)
      end
    else
      let g := set_instancesCount_ (instancesCount_ g - 1) g in
      let g := if (instancesCount_ g <? 0)%Z then set_instancesCount_ 0 g
               else g in
      let s := set_scrollBarParent None s in
      let g := if (0 =? instancesCount_ g)%Z then removeStyleSheet g else g in
      restoreStyles (g, s) >>= fun '(g, s) =>
      let s := exitDocument s in
      let s := set_element None s in
      let s := set_frameElement None s in
      Normal (g, s).

Definition setElement (aElement : ElemId) (s : Scroller) : Scroller :=
  set_element (Some aElement) s.

Definition setFrameElement (aFrameElement : ElemId) (s : Scroller)
    : Scroller :=
  set_frameElement (Some aFrameElement) s.

Definition add (env : Env) (aElement : ElemId) (gs : Global * Scroller)
    : Completion (Global * Scroller) :=
  let '(g, s) := gs in
  let s := setFrameElement aElement s in
  let s := setElement (getFirstElementChild env aElement) s in
  enable env true (g, s).

Definition remove (env : Env) (gs : Global * Scroller)
    : Completion (Global * Scroller) :=
  enable env false gs.

Definition reset (env : Env) (aElement : ElemId) (gs : Global * Scroller)
    : Completion (Global * Scroller) :=
  remove env gs >>= fun '(g, s) =>
  add env aElement (g, resetInternal s).

Definition suspend (env : Env) (gs : Global * Scroller)
    : Completion (Global * Scroller) :=
  remove env gs.

Definition resume (env : Env) (aElement : ElemId) (gs : Global * Scroller)
    : Completion (Global * Scroller) :=
  add env aElement gs >>= fun '(g, s) =>
  onScroller g
    (measured (fun e f => animateWithinBounds e f (contentOffsetY s)) s).

(** ** The page: shared state and instances *)

Record World : Type := mkWorld {
  global : Global;
  scrollers : nat -> Scroller
}.

Definition initialWorld : World :=
  {| global := {| instancesCount_ := 0%Z;
                  styleSheets := 0%nat;
                  frameStyleWrites := [] |};
     scrollers := fun _ => newScroller |}.

Definition setScroller (i : nat) (s : Scroller) (f : nat -> Scroller)
    : nat -> Scroller :=
  fun j => if Nat.eqb j i then s else f j.

(** What can happen to instance [i]: a call of one of its methods, or, while
    it listens, an event reaching one of its handlers. *)
Inductive Call : Type :=
| CallSetElement (aElement : ElemId)
| CallSetFrameElement (aFrameElement : ElemId)
| CallEnable (aEnabled : bool)
| CallAdd (aElement : ElemId)
| CallRemove
| CallReset (aElement : ElemId)
| CallSuspend
| CallResume (aElement : ElemId)
| CallSetScrollTop (aScrollTop : number)
| TouchStart (aEvent : TouchEvent) (live : LiveMatrices)
| TouchMove (aEvent : TouchEvent)
| TouchEnd (target : Element)
| TransitionEnd (target : ElemId)
| ScrollBarTimeout.

(** A handler runs when the instance has listeners. *)
Definition listening (s : Scroller) : bool :=
  match listeners s with [] => false | _ :: _ => true end.

Definition handle (f : Size -> Size -> Scroller -> Scroller) (s : Scroller)
    : Completion Scroller :=
  if listening s then measured f s else Normal s.

Definition lifecycle (w : World) (i : nat)
    (c : Completion (Global * Scroller)) : Completion World :=
  match c with
  | Normal (g, s) => Normal (mkWorld g (setScroller i s (scrollers w)))
  | Throws (g, s) => Throws (mkWorld g (setScroller i s (scrollers w)))
  end.

Definition motion (w : World) (i : nat) (c : Completion Scroller)
    : Completion World :=
  lifecycle w i (onScroller (global w) c).

Definition call (env : Env) (i : nat) (c : Call) (w : World)
    : Completion World :=
  let s := scrollers w i in
  let gs := (global w, s) in
  match c with
  | CallSetElement aElement => motion w i (Normal (setElement aElement s))
  | CallSetFrameElement aFrameElement =>
      motion w i (Normal (setFrameElement aFrameElement s))
  | CallEnable aEnabled => lifecycle w i (enable env aEnabled gs)
  | CallAdd aElement => lifecycle w i (add env aElement gs)
  | CallRemove => lifecycle w i (remove env gs)
  | CallReset aElement => lifecycle w i (reset env aElement gs)
  | CallSuspend => lifecycle w i (suspend env gs)
  | CallResume aElement => lifecycle w i (resume env aElement gs)
  | CallSetScrollTop aScrollTop =>
      motion w i (measured (fun e f => setScrollTop e f aScrollTop) s)
  | TouchStart aEvent live =>
      motion w i (handle (fun e f s => fst (onTouchStart e f aEvent live s)) s)
  | TouchMove aEvent =>
      motion w i (handle (fun e f => onTouchMove e f aEvent) s)
  | TouchEnd target =>
      motion w i (handle (fun e f s => fst (onTouchEnd e f target s)) s)
  | TransitionEnd target =>
      motion w i (handle (fun e f => onTransitionEnd e f target) s)
  | ScrollBarTimeout => motion w i (Normal (onScrollBarTimeout s))
  end.

(** A history: each step is what the document shows at that time, the
    instance concerned and what happens to it.  A thrown error ends the
    call, not the page. *)
Definition Step : Type := (Env * nat * Call)%type.

Definition step (w : World) (st : Step) : World :=
  let '(env, i, c) := st in stateOf (call env i c w).

Definition run (history : list Step) (w : World) : World :=
  fold_left step history w.

Definition reachable (w : World) : Prop :=
  exists history, w = run history initialWorld.

Close Scope js_scope.

(** ** The transition cycle *)

(** The cycle of the spec, a step per transition-finished signal:
    [TO_BOUNDS], then [BOUNCED_OUT], then [BOUNCED_BACK], then [NONE], where
    it stays. *)
Definition cycle (stage : QUEUED_TRANSITION_STAGE)
    : QUEUED_TRANSITION_STAGE :=
  match stage with
  | NONE => NONE
  | TO_BOUNDS => BOUNCED_OUT
  | BOUNCED_OUT => BOUNCED_BACK
  | BOUNCED_BACK => NONE
  end.

(** The handler run on a sequence of transition-finished signals, given by
    their targets. *)
Definition finishSignals (e f : Size) (targets : list ElemId) (s : Scroller)
    : Scroller :=
  fold_left (fun s target => onTransitionEnd e f target s) targets s.

(** ** Rubber-band damping *)

(** The damping of the spec on a finite delta: [delta / exp(|delta| / K)]
    with [K = 550]. *)
Definition damped (delta : R) : R :=
  (delta / Rtrigo_def.exp (Rabs delta / 550))%R.

(** ** Invariants *)

(** While a staged transition is queued the scroller is decelerating. *)
Definition stageInv (s : Scroller) : Prop :=
  queuedTransitionStage_ s <> NONE -> isDecelerating_ s = true.

(** Functions that leave both the queued stage and the deceleration flag
    alone. *)
Definition keepsStage (g : Scroller -> Scroller) : Prop :=
  forall s, queuedTransitionStage_ (g s) = queuedTransitionStage_ s
            /\ isDecelerating_ (g s) = isDecelerating_ s.

(** Functions that leave alone what the end of a touch reads of the touch:
    where it started, the current sample point and the propagation flag. *)
Definition keepsTouch (g : Scroller -> Scroller) : Prop :=
  forall s, startTouchY (g s) = startTouchY s
            /\ startTouchX (g s) = startTouchX s
            /\ currentPoint_ (g s) = currentPoint_ s
            /\ stopPropagationOnTouchEnd_ (g s) = stopPropagationOnTouchEnd_ s.

(** An instance attached to the content element [el], with the measured
    sizes [e] and [f], and listening. *)
Definition attached (e f : Size) (el : ElemId) (s : Scroller) : Prop :=
  element s = Some el /\ elementSize s = Some e /\ frameElementSize s = Some f
  /\ listening s = true.

(** Functions that leave the attachment alone. *)
Definition keepsAttachment (g : Scroller -> Scroller) : Prop :=
  forall s, element (g s) = element s
            /\ elementSize (g s) = elementSize s
            /\ frameElementSize (g s) = frameElementSize s
            /\ listeners (g s) = listeners s
            /\ frameElement (g s) = frameElement s
            /\ frameElementComputedStyle (g s) = frameElementComputedStyle s.

(** What the handlers and [enable(false)] dereference: both elements, the
    frame's computed style and both sizes. *)
Definition allDefined (s : Scroller) : Prop :=
  element s <> None /\ frameElement s <> None
  /\ frameElementComputedStyle s <> None
  /\ elementSize s <> None /\ frameElementSize s <> None.

(** An instance that listens has all of it. *)
Definition attachedInv (s : Scroller) : Prop :=
  listening s = true -> allDefined s.

Definition worldAttachedInv (w : World) : Prop :=
  forall i : nat, attachedInv (scrollers w i).

(** Functions that leave the enabled flag alone. *)
Definition keepsEnabled (g : Scroller -> Scroller) : Prop :=
  forall s, enabled_ (g s) = enabled_ s.

(** An instance that listens is flagged enabled. *)
Definition enabledInv (s : Scroller) : Prop :=
  listening s = true -> enabled_ s = Some true.

(** The stylesheet node is in the document exactly while the counter is
    positive. *)
Definition sheetInv (g : Global) : Prop :=
  (0 <= instancesCount_ g)%Z
  /\ styleSheets g = if (instancesCount_ g =? 0)%Z then 0%nat else 1%nat.



(** A drag: the handler run on a sequence of touch moves. *)
Definition touchMoves (e f : Size) (moves : list TouchEvent) (s : Scroller)
    : Scroller :=
  fold_left (fun s aEvent => onTouchMove e f aEvent s) moves s.

Definition worldInv (w : World) : Prop :=
  forall i : nat, stageInv (scrollers w i).

(** ** Concrete states used by the examples below *)

(** A scroller whose velocity window holds the given samples. *)
Definition sampleWindow (p0 t0 p1 t1 : R) : Scroller :=
  set_previousPoint_ (Fin p0)
    (set_previousMoment_ (Fin t0)
       (set_currentPoint_ (Fin p1)
          (set_currentMoment_ (Fin t1) newScroller))).

(** The geometry of the spec's scenarios: a frame 300 high and a content
    900 high (both 320 wide). *)
Definition frame300 : Size := mkSize (Fin 320) (Fin 300).
Definition content900 : Size := mkSize (Fin 320) (Fin 900).

(** A scroller that has reached a bound (offset [y]) with end velocity [v]
    and waits, in stage [TO_BOUNDS], for its transition to finish. *)
Definition atBound (v y : R) : Scroller :=
  set_endMomentumVelocity_ (Fin v)
    (set_contentOffsetY (Fin y)
       (set_isDecelerating_ true
          (set_queuedTransitionStage_ TO_BOUNDS
             (set_element (Some 1%nat) newScroller)))).

(** A scroller at rest with its content at offset [y]. *)
Definition restingAt (y : R) : Scroller :=
  set_contentOffsetY (Fin y) newScroller.

(** An enabled instance on the frame [fr], with its content at offset
    [y]. *)
Definition enabledOn (fr : ElemId) (y : R) : Scroller :=
  set_contentOffsetY (Fin y)
    (set_frameElementComputedStyle (Some fr)
       (set_frameElement (Some fr) (set_enabled_ (Some true) newScroller))).

(** A page whose element 7 is a frame 300 high with the content 900 high as
    first child (element 1). *)
Definition page : Env :=
  {| getSize := fun el => if Nat.eqb el 7 then frame300 else content900;
     getFirstElementChild := fun _ => 1%nat |}.

(** Instance 0 attached to that frame. *)
Definition attachedWorld : World :=
  run [(page, 0%nat, CallAdd 7%nat)] initialWorld.

(** A scroller in a drag that started with the finger at [y0] and the
    content at offset [c0], the content now being at offset [c]. *)
Definition draggingAt (y0 c0 c : R) : Scroller :=
  set_isDragging_ true
    (set_startTouchY (Fin y0)
       (set_currentPoint_ (Fin y0)
          (set_contentStartOffsetY (Fin c0)
             (set_contentOffsetY (Fin c) newScroller)))).

(** A touch that starts at y = 100 on the content resting at offset -50,
    moves up by 3 within 10 ms and ends. *)
Definition touchDown : TouchEvent := mkTouch (Fin 100) (Fin 20) (Fin 0).
Definition touchUp3 : TouchEvent := mkTouch (Fin 97) (Fin 20) (Fin 10).
Definition liveAtRest : LiveMatrices := mkLive (Fin (-50)) (Fin 0) (Fin 100).
Definition afterSmallMove : Scroller :=
  onTouchMove content900 frame300 touchUp3
    (fst (onTouchStart content900 frame300 touchDown liveAtRest
            (restingAt (-50)))).

(** A link and a text field, as targets of a click. *)
Definition linkElement : Element :=
  mkElement "A" "" false false false "".
Definition textField : Element :=
  mkElement "INPUT" "text" false false true "abc".

(** The touch goes on: the finger moves down by 30 within 5 ms and lifts,
    a fling towards the top bound. *)
Definition touchDown30 : TouchEvent := mkTouch (Fin 130) (Fin 20) (Fin 5).

(** Instance 0 is attached, scrolled to scroll top 50, then flung. *)
Definition flingHistory : list Step :=
  [(page, 0%nat, CallAdd 7%nat);
   (page, 0%nat, CallSetScrollTop (Fin 50));
   (page, 0%nat, TouchStart touchDown liveAtRest);
   (page, 0%nat, TouchMove touchDown30);
   (page, 0%nat, TouchEnd linkElement)].

Definition flungWorld : World := run flingHistory initialWorld.

(** The transition to the top bound then finishes. *)
Definition bouncedOutWorld : World :=
  run (flingHistory ++ [(page, 0%nat, TransitionEnd 1%nat)]) initialWorld.

(** * Facts *)

Open Scope R_scope.

(** ** Tactics *)

(** Decides the comparisons of real numbers that a goal or a hypothesis
    branches on, closing the impossible branches by linear arithmetic. *)
Ltac rdec :=
  repeat match goal with
  | |- context [Rlt_dec ?a ?b] => destruct (Rlt_dec a b); try lra
  | |- context [Req_dec_T ?a ?b] => destruct (Req_dec_T a b); try lra
  | H : context [Rlt_dec ?a ?b] |- _ => destruct (Rlt_dec a b); try lra
  | H : context [Req_dec_T ?a ?b] |- _ => destruct (Req_dec_T a b); try lra
  end.

(** Reads fields through the setters, and nothing else. *)
Ltac fields :=
  cbn [enabled_ startTouchY startTouchX contentOffsetY contentStartOffsetY
       previousPoint_ previousMoment_ currentPoint_ currentMoment_
       isDragging_ isDecelerating_ stopPropagationOnTouchEnd_
       queuedTransitionStage_ endMomentumVelocity_ element frameElement
       elementSize frameElementSize frameElementComputedStyle
       scrollBarShowTimeout_ listeners scrollBarParent elementTransform
       elementTransition containerTransform containerTransition
       containerOpacity lineTransform lineTransition set_enabled_
       set_startTouchY set_startTouchX set_contentOffsetY
       set_contentStartOffsetY set_previousPoint_ set_previousMoment_
       set_currentPoint_ set_currentMoment_ set_isDragging_
       set_isDecelerating_ set_stopPropagationOnTouchEnd_
       set_queuedTransitionStage_ set_endMomentumVelocity_ set_element
       set_frameElement set_elementSize set_frameElementSize
       set_frameElementComputedStyle set_scrollBarShowTimeout_
       set_listeners set_scrollBarParent set_elementTransform
       set_elementTransition set_containerTransform set_containerTransition
       set_containerOpacity set_lineTransform set_lineTransition].

(** Splits on every condition a goal branches on and closes the branches by
    computation: for a field that all branches leave or set alike. *)
Ltac by_cases :=
  repeat match goal with
         | |- context [if ?c then _ else _] => destruct c
         end;
  reflexivity.

(** Setting a field other than the queued stage and the deceleration flag. *)
Ltac stageInv_field :=
  match goal with
  | H : stageInv ?s |- _ => unfold stageInv in *; fields; exact H
  end.

(** ** Numbers *)

Lemma ltb_Fin (a b : R) : ltb (Fin a) (Fin b) = true <-> a < b.
Proof. unfold ltb, Rltb. destruct (Rlt_dec a b); split; intros; try easy. Qed.

Lemma ltb_Fin_false (a b : R) : ltb (Fin a) (Fin b) = false <-> b <= a.
Proof.
  unfold ltb, Rltb. destruct (Rlt_dec a b); split; intros; try easy; lra.
Qed.

Lemma eqb_Fin (a b : R) : eqb (Fin a) (Fin b) = true <-> a = b.
Proof. unfold eqb, Reqb. destruct (Req_dec_T a b); split; intros; try easy. Qed.

Lemma leb_Fin (a b : R) : leb (Fin a) (Fin b) = true <-> a <= b.
Proof.
  unfold leb. rewrite orb_true_iff, ltb_Fin, eqb_Fin. lra.
Qed.

Lemma leb_Fin_false (a b : R) : leb (Fin a) (Fin b) = false <-> b < a.
Proof.
  unfold leb. rewrite orb_false_iff, ltb_Fin_false.
  unfold eqb, Reqb. destruct (Req_dec_T a b); split; intros H; lra.
Qed.

Lemma Rabs_cases (x : R) : (0 <= x /\ Rabs x = x) \/ (x < 0 /\ Rabs x = - x).
Proof.
  unfold Rabs. destruct (Rcase_abs x); [right | left]; lra.
Qed.

Ltac rabs x := destruct (Rabs_cases x) as [[? ?] | [? ?]].

Lemma Rabs_div_pos (x c : R) : 0 < c -> Rabs (x / c) = Rabs x / c.
Proof.
  intros Hc. unfold Rdiv. rewrite Rabs_mult. f_equal.
  apply Rabs_pos_eq. left. apply Rinv_0_lt_compat; exact Hc.
Qed.

(** ** The velocity estimate *)

(** The estimate as a function of the two deltas. *)
Lemma getEndVelocity_deltas (s : Scroller) :
  getEndVelocity s
  = let dp := sub (currentPoint_ s) (previousPoint_ s) in
    let dt := sub (currentMoment_ s) (previousMoment_ s) in
    if isNaN (div dp dt) then Fin 0
    else if gtb (abs (div dp dt)) MAXIMUM_VELOCITY
         then mul (math_sign dp) MAXIMUM_VELOCITY else div dp dt.
Proof. reflexivity. Qed.

Lemma capped_bound (dp dt : number) :
  leb (abs (if isNaN (div dp dt) then Fin 0
            else if gtb (abs (div dp dt)) MAXIMUM_VELOCITY
                 then mul (math_sign dp) MAXIMUM_VELOCITY else div dp dt))
      MAXIMUM_VELOCITY = true.
Proof.
  unfold MAXIMUM_VELOCITY.
  destruct dp as [ | | | p], dt as [ | | | t]; simpl;
    try (apply leb_Fin; rewrite Rabs_R0; lra);
    unfold signum; rdec; simpl;
    try (apply leb_Fin; rewrite ?Rabs_R0; lra);
    unfold gtb, ltb, Rltb; simpl; rdec; simpl;
    try (apply leb_Fin; rewrite ?Rabs_R0; lra).
  all: try (apply leb_Fin; match goal with |- Rabs ?x <= _ => rabs x end; lra).
Qed.

(** The estimate on finite samples. *)
Lemma getEndVelocity_samples (s : Scroller) (p0 t0 p1 t1 : R) :
  previousPoint_ s = Fin p0 -> previousMoment_ s = Fin t0 ->
  currentPoint_ s = Fin p1 -> currentMoment_ s = Fin t1 ->
  (t1 = t0 -> p1 = p0 -> getEndVelocity s = Fin 0)
  /\ (t1 = t0 -> p0 < p1 -> getEndVelocity s = Fin (35 / 10))
  /\ (t1 = t0 -> p1 < p0 -> getEndVelocity s = Fin (- (35 / 10)))
  /\ (t1 <> t0 -> Rabs ((p1 - p0) / (t1 - t0)) <= 35 / 10 ->
      getEndVelocity s = Fin ((p1 - p0) / (t1 - t0)))
  /\ (t1 <> t0 -> 35 / 10 < Rabs ((p1 - p0) / (t1 - t0)) -> p0 < p1 ->
      getEndVelocity s = Fin (35 / 10))
  /\ (t1 <> t0 -> 35 / 10 < Rabs ((p1 - p0) / (t1 - t0)) -> p1 < p0 ->
      getEndVelocity s = Fin (- (35 / 10))).
Proof.
  intros Hp0 Ht0 Hp1 Ht1.
  rewrite getEndVelocity_deltas, Hp0, Ht0, Hp1, Ht1.
  unfold MAXIMUM_VELOCITY; simpl.
  replace (p1 + - p0) with (p1 - p0) by lra.
  replace (t1 + - t0) with (t1 - t0) by lra.
  repeat split; intros.
  - unfold signum; rdec; reflexivity.
  - unfold signum; rdec; simpl. unfold gtb, ltb; simpl.
    unfold signum; rdec. f_equal; lra.
  - unfold signum; rdec; simpl. unfold gtb, ltb; simpl.
    unfold signum; rdec. f_equal; lra.
  - rdec; simpl. unfold gtb, ltb, Rltb; rdec. reflexivity.
  - rdec; simpl. unfold gtb, ltb, Rltb; rdec.
    unfold signum; rdec. simpl; f_equal; lra.
  - rdec; simpl. unfold gtb, ltb, Rltb; rdec.
    unfold signum; rdec. simpl; f_equal; lra.
Qed.

(** C2, as stated, fails: with a time delta of 0 and a position delta of 10
    the quotient is [Infinity], not [NaN], and the estimate is the maximum
    velocity 3.5 instead of 0. *)
Lemma getEndVelocity_zero_time_delta_not_zero :
  sub (currentMoment_ (sampleWindow 0 7 10 7))
      (previousMoment_ (sampleWindow 0 7 10 7)) = Fin 0
  /\ getEndVelocity (sampleWindow 0 7 10 7) = Fin (35 / 10)
  /\ getEndVelocity (sampleWindow 0 7 10 7) <> Fin 0.
Proof.
  assert (E : getEndVelocity (sampleWindow 0 7 10 7) = Fin (35 / 10)).
  { destruct (getEndVelocity_samples (sampleWindow 0 7 10 7) 0 7 10 7
                eq_refl eq_refl eq_refl eq_refl) as (_ & H & _).
    apply H; [reflexivity | lra]. }
  split; [simpl; f_equal; lra | split; [exact E | rewrite E]].
  intros H; injection H; lra.
Qed.

(** C2, amended: the magnitude of the estimate never exceeds
    [MAXIMUM_VELOCITY]; on finite samples the estimate is 0 when both deltas
    are 0, it is 3.5 with the sign of the position delta when only the time
    delta is 0 (the quotient is infinite, not [NaN]), and otherwise it is the
    quotient of the deltas, replaced by 3.5 with the sign of the position
    delta when its magnitude exceeds 3.5. *)
Theorem getEndVelocity_capped (s : Scroller) :
  leb (abs (getEndVelocity s)) MAXIMUM_VELOCITY = true
  /\ (forall p0 t0 p1 t1 : R,
        previousPoint_ s = Fin p0 -> previousMoment_ s = Fin t0 ->
        currentPoint_ s = Fin p1 -> currentMoment_ s = Fin t1 ->
        (t1 = t0 -> p1 = p0 -> getEndVelocity s = Fin 0)
        /\ (t1 = t0 -> p0 < p1 -> getEndVelocity s = Fin (35 / 10))
        /\ (t1 = t0 -> p1 < p0 -> getEndVelocity s = Fin (- (35 / 10)))
        /\ (t1 <> t0 -> Rabs ((p1 - p0) / (t1 - t0)) <= 35 / 10 ->
            getEndVelocity s = Fin ((p1 - p0) / (t1 - t0)))
        /\ (t1 <> t0 -> 35 / 10 < Rabs ((p1 - p0) / (t1 - t0)) -> p0 < p1 ->
            getEndVelocity s = Fin (35 / 10))
        /\ (t1 <> t0 -> 35 / 10 < Rabs ((p1 - p0) / (t1 - t0)) -> p1 < p0 ->
            getEndVelocity s = Fin (- (35 / 10)))).
Proof.
  split.
  - rewrite getEndVelocity_deltas. apply capped_bound.
  - intros p0 t0 p1 t1. apply getEndVelocity_samples.
Qed.

Lemma getEndVelocity_capped_witness :
  getEndVelocity (sampleWindow 0 0 10 2) = Fin (35 / 10).
Proof.
  destruct (getEndVelocity_capped (sampleWindow 0 0 10 2)) as [_ H].
  destruct (H 0 0 10 2 eq_refl eq_refl eq_refl eq_refl)
    as (_ & _ & _ & _ & H5 & _).
  apply H5; try lra.
  replace ((10 - 0) / (2 - 0)) with 5 by lra.
  rewrite Rabs_pos_eq; lra.
Defined.

(** ** Bounds *)

Lemma getLowestContentPosition_Fin (e f : Size) (eh fh : R) :
  height e = Fin eh -> height f = Fin fh ->
  getLowestContentPosition e f = Fin (fh - eh).
Proof.
  intros He Hf. unfold getLowestContentPosition. rewrite He, Hf. simpl.
  f_equal; lra.
Qed.

(** [animateTo] stores the offset it is given. *)
Lemma contentOffsetY_animateTo (e f : Size) (y : number) (b : bool)
    (s : Scroller) :
  contentOffsetY (animateTo e f y b s) = y.
Proof.
  unfold animateTo. destruct b; simpl; [reflexivity | ].
  repeat match goal with |- context [if ?c then _ else _] => destruct c end;
    reflexivity.
Qed.

Lemma contentOffsetY_animateWithinBounds (e f : Size) (a : number)
    (s : Scroller) :
  contentOffsetY (animateWithinBounds e f a s)
  = if gtb a (Fin 0) then Fin 0
    else if ltb a (getLowestContentPosition e f)
         then getLowestContentPosition e f else a.
Proof. unfold animateWithinBounds. apply contentOffsetY_animateTo. Qed.

(** Whatever offset is asked for, [animateWithinBounds] leaves the content
    between the lowest position and 0, when the content is at least as high
    as the frame. *)
Lemma animateWithinBounds_in_range (e f : Size) (eh fh : R) (a : number)
    (s : Scroller) :
  height e = Fin eh -> height f = Fin fh -> fh <= eh ->
  a <> NaN ->
  exists y, contentOffsetY (animateWithinBounds e f a s) = Fin y
            /\ fh - eh <= y <= 0.
Proof.
  intros He Hf Hle Ha. rewrite contentOffsetY_animateWithinBounds.
  rewrite (getLowestContentPosition_Fin e f eh fh He Hf).
  destruct a as [ | | | r]; simpl; [congruence | | | ].
  - exists 0; split; [reflexivity | lra].
  - exists (fh - eh); split; [reflexivity | lra].
  - unfold gtb, ltb, Rltb; rdec.
    + exists 0; split; [reflexivity | lra].
    + exists (fh - eh); split; [reflexivity | lra].
    + exists r; split; [reflexivity | lra].
Qed.

Lemma setScrollTop_negative_argument :
  contentOffsetY
    (setScrollTop content900 frame300 (Fin (- 10000)) newScroller)
  = Fin 0.
Proof.
  unfold setScrollTop. rewrite contentOffsetY_animateWithinBounds. simpl.
  unfold Reqb; rdec; simpl. unfold gtb, ltb, Rltb; rdec. reflexivity.
Qed.

(** C3, as stated, fails: on the 300/900 geometry [setScrollTop(-10000)]
    leaves the content at offset 0, not at -600. *)
Lemma setScrollTop_minus_10000_is_top :
  getLowestContentPosition content900 frame300 = Fin (- 600)
  /\ contentOffsetY
       (setScrollTop content900 frame300 (Fin (- 10000)) newScroller)
     = Fin 0
  /\ contentOffsetY
       (setScrollTop content900 frame300 (Fin (- 10000)) newScroller)
     <> Fin (- 600).
Proof.
  split; [ | split; [exact setScrollTop_negative_argument | ]].
  - unfold getLowestContentPosition; simpl. f_equal; lra.
  - rewrite setScrollTop_negative_argument. intros H; injection H; lra.
Qed.

(** C3, amended: the argument of [setScrollTop] is a DOM scroll top, the
    negated content offset.  On the 300/900 geometry [setScrollTop(10000)]
    leaves the content at -600 (scroll top 600) and [setScrollTop(-10000)]
    at 0; and whatever the argument, [NaN] and the infinities included, the
    content offset ends between the lowest position and 0 when the content
    is at least as high as the frame. *)
Theorem setScrollTop_clamps :
  contentOffsetY (setScrollTop content900 frame300 (Fin 10000) newScroller)
  = Fin (- 600)
  /\ getScrollTop (setScrollTop content900 frame300 (Fin 10000) newScroller)
     = Fin 600
  /\ contentOffsetY
       (setScrollTop content900 frame300 (Fin (- 10000)) newScroller)
     = Fin 0
  /\ forall (e f : Size) (eh fh : R) (a : number) (s : Scroller),
       height e = Fin eh -> height f = Fin fh -> fh <= eh ->
       exists y, contentOffsetY (setScrollTop e f a s) = Fin y
                 /\ fh - eh <= y <= 0.
Proof.
  assert (E : contentOffsetY
                (setScrollTop content900 frame300 (Fin 10000) newScroller)
              = Fin (- 600)).
  { unfold setScrollTop. rewrite contentOffsetY_animateWithinBounds. simpl.
    unfold Reqb; rdec; simpl. unfold gtb, ltb, Rltb; rdec.
    unfold getLowestContentPosition; simpl. f_equal; lra. }
  split; [exact E | split; [ | split]].
  - unfold getScrollTop. rewrite E. simpl. unfold Reqb; rdec.
    simpl; f_equal; lra.
  - exact setScrollTop_negative_argument.
  - intros e f eh fh a s He Hf Hle. unfold setScrollTop.
    apply animateWithinBounds_in_range with (eh := eh) (fh := fh); trivial.
    destruct a; simpl; try discriminate.
    unfold Reqb; rdec; simpl; discriminate.
Qed.

Lemma setScrollTop_clamps_witness :
  exists y, contentOffsetY (setScrollTop content900 frame300 NaN newScroller)
            = Fin y /\ 300 - 900 <= y <= 0.
Proof.
  destruct setScrollTop_clamps as (_ & _ & _ & H).
  apply H; [reflexivity | reflexivity | lra].
Defined.

(** ** The overshoot *)

Lemma getAcceleration_Fin (v : R) :
  getAcceleration (Fin v)
  = if Rlt_dec v 0 then Fin (5 / 10000) else Fin (- (5 / 10000)).
Proof.
  unfold getAcceleration, ltb, Rltb, ACCELERATION_SLIDING.
  destruct (Rlt_dec v 0); reflexivity.
Qed.

(** The stopping displacement [-v * v / (2 * a)] under the bounce
    acceleration, before it is clamped. *)
Lemma bounce_displacement_Fin (v : R) :
  div (neg (mul (Fin v) (Fin v)))
      (mul (Fin 2)
           (mul (getAcceleration (Fin v)) ACCELERATION_BOUNCE_BACK_COEFF))
  = Fin (if Rlt_dec v 0 then - (100 * (v * v)) else 100 * (v * v)).
Proof.
  rewrite getAcceleration_Fin. unfold ACCELERATION_BOUNCE_BACK_COEFF.
  destruct (Rlt_dec v 0); simpl; rdec; f_equal; field.
Qed.

Lemma overshootDisplacement_Fin (v : R) :
  overshootDisplacement (Fin v)
  = Fin (if Rlt_dec v 0 then Rmax (- 100) (- (100 * (v * v)))
         else Rmin 100 (100 * (v * v))).
Proof.
  unfold overshootDisplacement; cbv zeta. rewrite bounce_displacement_Fin.
  unfold OUT_OF_BOUNDS_MAXIMUM, Rmax, Rmin.
  assert (0 <= v * v) by nra.
  destruct (Rlt_dec v 0); unfold gtb, ltb, Rltb; simpl; rdec; simpl;
    unfold Rltb; rdec;
    match goal with |- context [Rle_dec ?a ?b] => destruct (Rle_dec a b) end;
    f_equal; lra.
Qed.

Lemma overshootDisplacement_bound (v : number) :
  gtb (abs (overshootDisplacement v)) OUT_OF_BOUNDS_MAXIMUM = false
  /\ (v <> NaN ->
      leb (abs (overshootDisplacement v)) OUT_OF_BOUNDS_MAXIMUM = true).
Proof.
  destruct v as [ | | | v].
  - split; [reflexivity | congruence].
  - assert (E : overshootDisplacement PosInf = Fin 100).
    { unfold overshootDisplacement, getAcceleration; simpl.
      unfold signum; rdec; simpl. unfold signum; rdec; simpl.
      unfold Rltb; rdec. reflexivity. }
    rewrite E. unfold OUT_OF_BOUNDS_MAXIMUM; simpl.
    rewrite Rabs_pos_eq by lra.
    split; [apply ltb_Fin_false; lra | intros _; apply leb_Fin; lra].
  - assert (E : overshootDisplacement NegInf = Fin (- 100)).
    { unfold overshootDisplacement, getAcceleration; simpl.
      unfold signum; rdec; simpl. unfold signum; rdec; simpl.
      unfold Rltb; rdec. reflexivity. }
    rewrite E. unfold OUT_OF_BOUNDS_MAXIMUM; simpl.
    rewrite Rabs_left by lra.
    split; [apply ltb_Fin_false; lra | intros _; apply leb_Fin; lra].
  - rewrite overshootDisplacement_Fin. unfold OUT_OF_BOUNDS_MAXIMUM; simpl.
    assert (B : Rabs (if Rlt_dec v 0 then Rmax (- 100) (- (100 * (v * v)))
                      else Rmin 100 (100 * (v * v))) <= 100).
    { assert (0 <= v * v) by nra.
      unfold Rmax, Rmin. destruct (Rlt_dec v 0);
        match goal with |- context [Rle_dec ?a ?b] => destruct (Rle_dec a b) end;
        match goal with |- Rabs ?x <= _ => rabs x end; lra. }
    split; [apply ltb_Fin_false; lra | intros _; apply leb_Fin; lra].
Qed.

(** C5: the displacement planned by [setUpTransitionStage2] is
    [-v * v / (2 * a)], where [a] is ten times the sliding acceleration
    opposing the pending velocity [v], clamped to 100 either way: its
    magnitude never exceeds [OUT_OF_BOUNDS_MAXIMUM], and it is what the stage
    adds to the content offset (or, for an upward bounce, sets it to). *)
Theorem setUpTransitionStage2_overshoot_bounded (e f : Size) (s : Scroller) :
  let d := overshootDisplacement (endMomentumVelocity_ s) in
  gtb (abs d) OUT_OF_BOUNDS_MAXIMUM = false
  /\ (endMomentumVelocity_ s <> NaN ->
      leb (abs d) OUT_OF_BOUNDS_MAXIMUM = true)
  /\ contentOffsetY (setUpTransitionStage2 e f s)
     = (if gtb (endMomentumVelocity_ s) (Fin 0) then d
        else JsNum.add (contentOffsetY s) d)
  /\ (forall v : R, endMomentumVelocity_ s = Fin v ->
      d = Fin (if Rlt_dec v 0
               then Rmax (- 100) (- (v * v) / (2 * (5 / 10000 * 10)))
               else Rmin 100 (- (v * v) / (2 * (- (5 / 10000) * 10))))).
Proof.
  cbv zeta. repeat split.
  - apply overshootDisplacement_bound.
  - apply overshootDisplacement_bound.
  - unfold setUpTransitionStage2; cbv zeta.
    destruct (gtb (endMomentumVelocity_ s) (Fin 0)); reflexivity.
  - intros v Hv. rewrite Hv, overshootDisplacement_Fin.
    destruct (Rlt_dec v 0); do 2 f_equal; field.
Qed.

Lemma setUpTransitionStage2_overshoot_bounded_witness :
  leb (abs (overshootDisplacement (endMomentumVelocity_ (atBound 3 0))))
      OUT_OF_BOUNDS_MAXIMUM = true.
Proof.
  apply (setUpTransitionStage2_overshoot_bounded content900 frame300
           (atBound 3 0)).
  simpl. discriminate.
Defined.

(** ** The scrollbar line *)

Lemma getScrollBarLineHeight_min (e f : Size) :
  getScrollBarLineHeight e f <> NaN ->
  leb SCROLLBAR_MIN_HEIGHT (getScrollBarLineHeight e f) = true.
Proof.
  unfold getScrollBarLineHeight, SCROLLBAR_MIN_HEIGHT; cbv zeta.
  destruct (div (height f) (div (height e) (height f))) as [ | | | h];
    simpl; intros H; try congruence; try reflexivity;
    unfold Rltb; rdec; apply leb_Fin; lra.
Qed.

Lemma getScrollBarLineHeight_900_300 :
  getScrollBarLineHeight content900 frame300 = Fin 100.
Proof.
  unfold getScrollBarLineHeight, SCROLLBAR_MIN_HEIGHT; simpl.
  rdec; simpl. rdec. unfold Rltb; rdec. f_equal; lra.
Qed.

(** What [animateTo] applies to the scrollbar line when it moves the
    scrollbar. *)
Lemma lineTransform_animateTo (e f : Size) (y : number) (s : Scroller) :
  exists k,
    lineTransform (animateTo e f y false s) = ScaleY k
    /\ (k <> NaN -> leb SCROLLBAR_MIN_HEIGHT k = true).
Proof.
  unfold animateTo; cbv zeta. cbn [negb].
  match goal with
  | |- context [set_lineTransform (ScaleY ?k)] => exists k
  end.
  split.
  - repeat match goal with
           | |- context [if ?c then set_containerTransform _ _ else _] =>
               destruct c
           end; reflexivity.
  - match goal with
    | |- context [ltb ?r SCROLLBAR_MIN_HEIGHT] => generalize r
    end.
    intros r. unfold SCROLLBAR_MIN_HEIGHT.
    destruct r as [ | | | h]; simpl; intros H; try congruence;
      try reflexivity; unfold Rltb; rdec; apply leb_Fin; lra.
Qed.

Lemma lineTransform_setUpTransitionStage2 (e f : Size) (s : Scroller) :
  lineTransform (setUpTransitionStage2 e f s)
  = ScaleY (sub (getScrollBarLineHeight e f)
                (abs (overshootDisplacement (endMomentumVelocity_ s)))).
Proof. unfold setUpTransitionStage2; cbv zeta. by_cases. Qed.

(** ** Snapping to bounds *)


Lemma getLowestContentPosition_900_300 :
  getLowestContentPosition content900 frame300 = Fin (- 600).
Proof.
  rewrite (getLowestContentPosition_Fin content900 frame300 900 300)
    by reflexivity.
  f_equal; lra.
Qed.





(** ** The transition state machine *)

Lemma onTransitionEnd_other_target (e f : Size) (target : ElemId)
    (s : Scroller) :
  targetIsElement target s = false -> onTransitionEnd e f target s = s.
Proof. intros H. unfold onTransitionEnd. rewrite H. reflexivity. Qed.

Lemma element_onTransitionEnd (e f : Size) (target : ElemId) (s : Scroller) :
  element (onTransitionEnd e f target s) = element s.
Proof.
  unfold onTransitionEnd, setUpTransitionStage2, setUpTransitionStage3,
    snapToBounds, showScrollBarDelayed; cbv zeta.
  destruct (targetIsElement target s); [ | reflexivity].
  destruct (queuedTransitionStage_ s); cbn [negb]; by_cases.
Qed.

Lemma stage_onTransitionEnd (e f : Size) (target : ElemId) (s : Scroller) :
  targetIsElement target s = true ->
  queuedTransitionStage_ (onTransitionEnd e f target s)
  = cycle (queuedTransitionStage_ s).
Proof.
  intros H.
  unfold onTransitionEnd, setUpTransitionStage2, setUpTransitionStage3,
    snapToBounds, showScrollBarDelayed; cbv zeta.
  rewrite H.
  destruct (queuedTransitionStage_ s) eqn:E; cbn [negb cycle];
    [fields; exact E | by_cases ..].
Qed.

Lemma stage_setUpTransitionStage1 (e f : Size) (s : Scroller) :
  queuedTransitionStage_ (setUpTransitionStage1 e f s) = TO_BOUNDS.
Proof.
  unfold setUpTransitionStage1; cbv zeta.
  destruct (gtb (getEndVelocity s) (Fin 0)); reflexivity.
Qed.

Lemma targetIsElement_eq (target el : ElemId) (s : Scroller) :
  element s = Some el ->
  targetIsElement target s = if Nat.eq_dec target el then true else false.
Proof.
  intros H. unfold targetIsElement. rewrite H.
  destruct (Nat.eq_dec target el) as [-> | n].
  - apply Nat.eqb_refl.
  - apply Nat.eqb_neq; exact n.
Qed.

Lemma iter_cycle_comm (n : nat) (stage : QUEUED_TRANSITION_STAGE) :
  Nat.iter n cycle (cycle stage) = cycle (Nat.iter n cycle stage).
Proof. induction n; simpl; congruence. Qed.

Lemma stage_finishSignals (e f : Size) (targets : list ElemId) :
  forall (s : Scroller) (el : ElemId),
    element s = Some el ->
    queuedTransitionStage_ (finishSignals e f targets s)
    = Nat.iter (count_occ Nat.eq_dec targets el) cycle
        (queuedTransitionStage_ s).
Proof.
  induction targets as [ | target targets IH]; intros s el Hel;
    [reflexivity | ].
  cbn [finishSignals fold_left count_occ].
  change (fold_left (fun s0 t => onTransitionEnd e f t s0) targets
            (onTransitionEnd e f target s))
    with (finishSignals e f targets (onTransitionEnd e f target s)).
  rewrite (IH _ el) by (rewrite element_onTransitionEnd; exact Hel).
  pose proof (targetIsElement_eq target el s Hel) as Ht.
  destruct (Nat.eq_dec target el) as [Heq | Hne].
  - rewrite stage_onTransitionEnd by exact Ht.
    destruct (Nat.eq_dec target el); [ | contradiction].
    cbn [Nat.iter]. rewrite iter_cycle_comm.
    destruct (Nat.eq_dec el target); [reflexivity | congruence].
  - rewrite onTransitionEnd_other_target by exact Ht.
    destruct (Nat.eq_dec el target); [congruence | reflexivity].
Qed.

Lemma iter_cycle_NONE (n : nat) : Nat.iter n cycle NONE = NONE.
Proof. induction n; simpl; [ | rewrite IHn]; reflexivity. Qed.

Lemma iter_cycle_three (n : nat) (stage : QUEUED_TRANSITION_STAGE) :
  (3 <= n)%nat -> Nat.iter n cycle stage = NONE.
Proof.
  intros H. replace n with ((n - 3) + 3)%nat by lia.
  rewrite Nat.iter_add.
  replace (Nat.iter 3 cycle stage) with NONE by (destruct stage; reflexivity).
  apply iter_cycle_NONE.
Qed.

Lemma element_setUpTransitionStage1 (e f : Size) (s : Scroller) :
  element (setUpTransitionStage1 e f s) = element s.
Proof.
  unfold setUpTransitionStage1; cbv zeta.
  destruct (gtb (getEndVelocity s) (Fin 0)); reflexivity.
Qed.

(** C1: [setUpTransitionStage1] enters [TO_BOUNDS]; each transition-finished
    signal on the tracked content element then moves the stage one step along
    [TO_BOUNDS], [BOUNCED_OUT], [BOUNCED_BACK], [NONE]; a signal in stage
    [NONE] leaves the stage [NONE]; a signal with another target changes
    nothing.  So after any sequence of signals the stage is the start stage
    moved by the number of signals on the tracked element: it is [NONE] from
    the third such signal on, and stays [NONE] when it starts there. *)
Theorem transition_stages_cycle (e f : Size) (s : Scroller) :
  queuedTransitionStage_ (setUpTransitionStage1 e f s) = TO_BOUNDS
  /\ (forall target : ElemId,
        targetIsElement target s = false ->
        onTransitionEnd e f target s = s)
  /\ (forall target : ElemId,
        targetIsElement target s = true ->
        queuedTransitionStage_ (onTransitionEnd e f target s)
        = cycle (queuedTransitionStage_ s))
  /\ (forall el : ElemId,
        element s = Some el ->
        map (fun targets =>
               queuedTransitionStage_
                 (finishSignals e f targets (setUpTransitionStage1 e f s)))
            [[]; [el]; [el; el]; [el; el; el]]
        = [TO_BOUNDS; BOUNCED_OUT; BOUNCED_BACK; NONE])
  /\ (forall (targets : list ElemId) (el : ElemId),
        element s = Some el ->
        queuedTransitionStage_ (finishSignals e f targets s)
        = Nat.iter (count_occ Nat.eq_dec targets el) cycle
            (queuedTransitionStage_ s)
        /\ ((3 <= count_occ Nat.eq_dec targets el)%nat ->
            queuedTransitionStage_ (finishSignals e f targets s) = NONE)
        /\ (queuedTransitionStage_ s = NONE ->
            queuedTransitionStage_ (finishSignals e f targets s) = NONE)).
Proof.
  split; [apply stage_setUpTransitionStage1 | ].
  split; [intros; apply onTransitionEnd_other_target; assumption | ].
  split; [intros; apply stage_onTransitionEnd; assumption | ].
  split.
  - intros el Hel. cbn [map].
    rewrite !(stage_finishSignals e f _ _ el)
      by (rewrite element_setUpTransitionStage1; exact Hel).
    rewrite stage_setUpTransitionStage1. cbn [count_occ].
    destruct (Nat.eq_dec el el); [reflexivity | congruence].
  - intros targets el Hel.
    rewrite (stage_finishSignals e f targets s el Hel).
    split; [reflexivity | split].
    + apply iter_cycle_three.
    + intros ->. apply iter_cycle_NONE.
Qed.

Lemma transition_stages_cycle_witness :
  queuedTransitionStage_
    (finishSignals content900 frame300 [1; 7; 1; 1]%nat (atBound 1 0))
  = NONE.
Proof.
  destruct (transition_stages_cycle content900 frame300 (atBound 1 0))
    as (_ & _ & _ & _ & H).
  destruct (H [1; 7; 1; 1]%nat 1%nat eq_refl) as (_ & H3 & _).
  apply H3. cbn. lia.
Defined.

(** ** Touch start and the queued stage *)

Lemma keepsStage_inv (g : Scroller -> Scroller) (s : Scroller) :
  keepsStage g -> stageInv s -> stageInv (g s).
Proof.
  intros Hg Hs. destruct (Hg s) as [H1 H2]. unfold stageInv.
  rewrite H1, H2. exact Hs.
Qed.

Lemma keepsStage_animateTo (e f : Size) (y : number) (b : bool) :
  keepsStage (animateTo e f y b).
Proof.
  intros s. unfold animateTo; cbv zeta. destruct b; cbn [negb]; split;
    by_cases.
Qed.

Lemma keepsStage_animateWithinBounds (e f : Size) (y : number) :
  keepsStage (animateWithinBounds e f y).
Proof. intros s. apply keepsStage_animateTo. Qed.

Lemma keepsStage_setScrollTop (e f : Size) (a : number) :
  keepsStage (setScrollTop e f a).
Proof. intros s. apply keepsStage_animateWithinBounds. Qed.

Lemma keepsStage_showScrollBar (b : bool) : keepsStage (showScrollBar b).
Proof. intros s. unfold showScrollBar; cbv zeta. destruct b; split; reflexivity. Qed.

Lemma keepsStage_showScrollBarDelayed (b : bool) :
  keepsStage (showScrollBarDelayed b).
Proof. intros s. split; reflexivity. Qed.

Lemma keepsStage_onScrollBarTimeout : keepsStage onScrollBarTimeout.
Proof.
  intros s. unfold onScrollBarTimeout.
  destruct (scrollBarShowTimeout_ s); [apply keepsStage_showScrollBar | ].
  split; reflexivity.
Qed.

Lemma keepsStage_isDragging (s : Scroller) :
  queuedTransitionStage_ (snd (isDragging s)) = queuedTransitionStage_ s
  /\ isDecelerating_ (snd (isDragging s)) = isDecelerating_ s.
Proof. unfold isDragging. destruct (isDragging_ s); split; reflexivity. Qed.

Lemma keepsStage_onTouchMove (e f : Size) (ev : TouchEvent) :
  keepsStage (onTouchMove e f ev).
Proof.
  intros s. unfold onTouchMove.
  pose proof (keepsStage_isDragging s) as H.
  destruct (isDragging s) as [dragging s1]; cbn [snd] in H.
  destruct dragging; [ | exact H].
  cbv zeta.
  match goal with
  | |- context [animateTo e f ?y false ?s2] =>
      destruct (keepsStage_animateTo e f y false s2) as [H1 H2]
  end.
  rewrite H1, H2. exact H.
Qed.

Lemma keepsStage_resetInternal : keepsStage resetInternal.
Proof. intros s. split; reflexivity. Qed.

(** After [stopMomentum] nothing is queued and nothing decelerates, if the
    invariant held before. *)
Lemma stopMomentum_collapses (e f : Size) (live : LiveMatrices)
    (s : Scroller) :
  stageInv s ->
  queuedTransitionStage_ (stopMomentum e f live s) = NONE
  /\ isDecelerating_ (stopMomentum e f live s) = false.
Proof.
  intros Hs. unfold stopMomentum; cbv zeta.
  destruct (isDecelerating_ s) eqn:Hd.
  - split; reflexivity.
  - split; [ | reflexivity]. fields.
    destruct (queuedTransitionStage_ s) eqn:Hq; try reflexivity;
      assert (isDecelerating_ s = true)
        by (apply Hs; rewrite Hq; discriminate);
      congruence.
Qed.

Lemma onTouchStart_after_stopMomentum (e f : Size) (ev : TouchEvent)
    (live : LiveMatrices) (s : Scroller) :
  queuedTransitionStage_ (fst (onTouchStart e f ev live s))
  = queuedTransitionStage_ (stopMomentum e f live s)
  /\ isDecelerating_ (fst (onTouchStart e f ev live s))
     = isDecelerating_ (stopMomentum e f live s)
  /\ contentOffsetY (fst (onTouchStart e f ev live s))
     = contentOffsetY (stopMomentum e f live s)
  /\ contentStartOffsetY (fst (onTouchStart e f ev live s))
     = contentOffsetY (stopMomentum e f live s)
  /\ elementTransform (fst (onTouchStart e f ev live s))
     = elementTransform (stopMomentum e f live s).
Proof.
  unfold onTouchStart, showScrollBar; cbv zeta. cbn [fst negb].
  repeat split; reflexivity.
Qed.

Lemma stageInv_onTouchStart (e f : Size) (ev : TouchEvent)
    (live : LiveMatrices) (s : Scroller) :
  stageInv s -> stageInv (fst (onTouchStart e f ev live s)).
Proof.
  intros Hs.
  destruct (onTouchStart_after_stopMomentum e f ev live s) as (H1 & _).
  destruct (stopMomentum_collapses e f live s Hs) as [H3 _].
  unfold stageInv. rewrite H1, H3. congruence.
Qed.

Lemma stageInv_snapToBounds (e f : Size) (s : Scroller) :
  stageInv (snapToBounds e f s).
Proof. intros _. reflexivity. Qed.

Lemma stageInv_doMomentum (e f : Size) (s : Scroller) :
  stageInv s -> stageInv (doMomentum e f s).
Proof.
  intros Hs. unfold doMomentum; cbv zeta.
  destruct (negb (eqb (getEndVelocity s) (Fin 0))).
  - intros _. reflexivity.
  - apply keepsStage_inv; [apply keepsStage_showScrollBarDelayed | exact Hs].
Qed.

Lemma stageInv_onTouchEnd (e f : Size) (target : Element) (s : Scroller) :
  stageInv s -> stageInv (fst (onTouchEnd e f target s)).
Proof.
  intros Hs. unfold onTouchEnd.
  pose proof (keepsStage_isDragging s) as [H1 H2].
  destruct (isDragging s) as [dragging s1]; cbn [snd] in H1, H2.
  assert (Hs1 : stageInv s1) by (unfold stageInv; rewrite H1, H2; exact Hs).
  match goal with
  | |- context [let '(s, fx) := if ?c then _ else _ in _] => destruct c
  end;
  cbn [fst]; unfold stageInv; fields;
  (destruct dragging;
   [ destruct (shouldStartMomentum e f s1);
     [ apply stageInv_doMomentum; exact Hs1 | apply stageInv_snapToBounds ]
   | apply (keepsStage_inv _ _ (keepsStage_showScrollBarDelayed false) Hs1) ]).
Qed.

Lemma stageInv_onTransitionEnd (e f : Size) (target : ElemId)
    (s : Scroller) :
  stageInv s -> stageInv (onTransitionEnd e f target s).
Proof.
  intros Hs. unfold onTransitionEnd.
  destruct (negb (targetIsElement target s)); [exact Hs | ].
  destruct (queuedTransitionStage_ s) eqn:Hq.
  - intros H. exfalso. apply H. cbv zeta. fields. exact Hq.
  - intros _. unfold setUpTransitionStage2; cbv zeta.
    assert (Hd : isDecelerating_ s = true)
      by (apply Hs; rewrite Hq; discriminate).
    rewrite <- Hd. by_cases.
  - intros _. reflexivity.
  - intros H. exfalso. apply H. reflexivity.
Qed.

(** *** The invariant across the life cycle *)

Lemma stageInv_andThen (c : Completion (Global * Scroller))
    (k : Global * Scroller -> Completion (Global * Scroller)) :
  stageInv (snd (stateOf c)) ->
  (forall gs, stageInv (snd gs) -> stageInv (snd (stateOf (k gs)))) ->
  stageInv (snd (stateOf (c >>= k))).
Proof.
  intros Hc Hk. destruct c as [gs | gs]; cbn [andThen stateOf] in *.
  - apply Hk; exact Hc.
  - exact Hc.
Qed.

Lemma stageInv_onScroller (g : Global) (c : Completion Scroller) :
  stageInv (stateOf c) -> stageInv (snd (stateOf (onScroller g c))).
Proof. destruct c; intros H; exact H. Qed.

Lemma stageInv_measured_gen (g : Size -> Size -> Scroller -> Scroller)
    (s : Scroller) :
  (forall e f s0, stageInv s0 -> stageInv (g e f s0)) -> stageInv s ->
  stageInv (stateOf (measured g s)).
Proof.
  intros Hg Hs. unfold measured.
  destruct (elementSize s), (frameElementSize s); cbn [stateOf];
    try exact Hs.
  apply Hg; exact Hs.
Qed.

Lemma stageInv_measured (g : Size -> Size -> Scroller -> Scroller)
    (s : Scroller) :
  (forall e f, keepsStage (g e f)) -> stageInv s ->
  stageInv (stateOf (measured g s)).
Proof.
  intros Hg. apply stageInv_measured_gen.
  intros e f s0. apply keepsStage_inv, Hg.
Qed.

Lemma stageInv_handle (g : Size -> Size -> Scroller -> Scroller)
    (s : Scroller) :
  (forall e f s0, stageInv s0 -> stageInv (g e f s0)) -> stageInv s ->
  stageInv (stateOf (handle g s)).
Proof.
  intros Hg Hs. unfold handle.
  destruct (listening s); [apply stageInv_measured_gen; assumption | exact Hs].
Qed.

Lemma stageInv_enable (env : Env) (aEnabled : bool) (g : Global)
    (s : Scroller) :
  stageInv s -> stageInv (snd (stateOf (enable env aEnabled (g, s)))).
Proof.
  intros Hs. unfold enable.
  destruct (looseEq (isEnabled s) aEnabled); [exact Hs | ].
  cbv zeta. destruct aEnabled.
  - apply stageInv_andThen.
    { unfold setUpStyles. destruct (frameElement _); cbn [stateOf snd];
        stageInv_field. }
    clear s Hs; intros [g1 s] Hs; cbn [snd] in Hs; cbv beta iota.
    apply stageInv_andThen.
    { apply stageInv_onScroller. unfold calculateSizes.
      destruct (element s); cbn [stateOf]; [ | exact Hs].
      fields. destruct (frameElement s); cbn [stateOf]; stageInv_field. }
    clear s Hs; intros [g2 s] Hs; cbn [snd] in Hs; cbv beta iota.
    apply stageInv_andThen.
    { apply stageInv_onScroller. unfold enterDocument.
      destruct (element s); cbn [stateOf]; stageInv_field. }
    clear s Hs; intros [g3 s] Hs; cbn [snd] in Hs; cbv beta iota.
    apply stageInv_andThen.
    { apply stageInv_onScroller. apply stageInv_measured; [ | exact Hs].
      intros e f. apply keepsStage_animateWithinBounds. }
    clear s Hs; intros [g4 s] Hs; cbn [snd] in Hs; cbv beta iota.
    apply stageInv_andThen.
    { apply stageInv_onScroller. apply stageInv_measured; [ | exact Hs].
      intros e f s0. split; reflexivity. }
    clear s Hs; intros [g5 s] Hs; cbn [snd] in Hs; cbv beta iota.
    destruct (frameElement s); cbn [stateOf snd]; stageInv_field.
  - apply stageInv_andThen.
    { unfold restoreStyles. fields.
      destruct (frameElement s); [destruct (frameElementComputedStyle s) | ];
        cbn [stateOf snd]; stageInv_field. }
    clear s Hs; intros [g1 s] Hs; cbn [snd] in Hs; cbv beta iota.
    cbn [stateOf snd]. unfold exitDocument. stageInv_field.
Qed.

Lemma stageInv_add (env : Env) (aElement : ElemId) (g : Global)
    (s : Scroller) :
  stageInv s -> stageInv (snd (stateOf (add env aElement (g, s)))).
Proof.
  intros Hs. unfold add, setElement, setFrameElement.
  apply stageInv_enable. stageInv_field.
Qed.

Lemma stageInv_reset (env : Env) (aElement : ElemId) (g : Global)
    (s : Scroller) :
  stageInv s -> stageInv (snd (stateOf (reset env aElement (g, s)))).
Proof.
  intros Hs. unfold reset, remove.
  apply stageInv_andThen; [apply stageInv_enable; exact Hs | ].
  intros [g' s'] Hs'. apply stageInv_add.
  apply keepsStage_inv; [apply keepsStage_resetInternal | exact Hs'].
Qed.

Lemma stageInv_resume (env : Env) (aElement : ElemId) (g : Global)
    (s : Scroller) :
  stageInv s -> stageInv (snd (stateOf (resume env aElement (g, s)))).
Proof.
  intros Hs. unfold resume.
  apply stageInv_andThen; [apply stageInv_add; exact Hs | ].
  intros [g' s'] Hs'. apply stageInv_onScroller.
  apply stageInv_measured; [ | exact Hs'].
  intros e f. apply keepsStage_animateWithinBounds.
Qed.

Lemma worldInv_lifecycle (w : World) (i : nat)
    (c : Completion (Global * Scroller)) :
  worldInv w -> stageInv (snd (stateOf c)) ->
  worldInv (stateOf (lifecycle w i c)).
Proof.
  intros Hw Hc j.
  destruct c as [[g s] | [g s]]; cbn [lifecycle stateOf scrollers snd] in *;
    unfold setScroller; destruct (Nat.eqb j i); auto.
Qed.

Lemma worldInv_motion (w : World) (i : nat) (c : Completion Scroller) :
  worldInv w -> stageInv (stateOf c) -> worldInv (stateOf (motion w i c)).
Proof.
  intros Hw Hc. unfold motion. apply worldInv_lifecycle; [exact Hw | ].
  apply stageInv_onScroller; exact Hc.
Qed.

Lemma worldInv_call (env : Env) (i : nat) (c : Call) (w : World) :
  worldInv w -> worldInv (stateOf (call env i c w)).
Proof.
  intros Hw. pose proof (Hw i) as Hs.
  destruct c; cbn [call]; cbv zeta;
    first [ apply worldInv_motion; [exact Hw | ]
          | apply worldInv_lifecycle; [exact Hw | ] ].
  - cbn [stateOf]. unfold setElement. stageInv_field.
  - cbn [stateOf]. unfold setFrameElement. stageInv_field.
  - apply stageInv_enable; exact Hs.
  - apply stageInv_add; exact Hs.
  - apply stageInv_enable; exact Hs.
  - apply stageInv_reset; exact Hs.
  - apply stageInv_enable; exact Hs.
  - apply stageInv_resume; exact Hs.
  - apply stageInv_measured; [ | exact Hs].
    intros e f. apply keepsStage_setScrollTop.
  - apply stageInv_handle; [ | exact Hs].
    intros e f s0. apply stageInv_onTouchStart.
  - apply stageInv_handle; [ | exact Hs].
    intros e f s0. apply keepsStage_inv, keepsStage_onTouchMove.
  - apply stageInv_handle; [ | exact Hs].
    intros e f s0. apply stageInv_onTouchEnd.
  - apply stageInv_handle; [ | exact Hs].
    intros e f s0. apply stageInv_onTransitionEnd.
  - cbn [stateOf]. apply keepsStage_inv;
      [apply keepsStage_onScrollBarTimeout | exact Hs].
Qed.

Lemma worldInv_run (history : list Step) :
  forall w, worldInv w -> worldInv (run history w).
Proof.
  induction history as [ | [[env i] c] history IH]; intros w Hw;
    [exact Hw | ].
  cbn [run fold_left]. apply IH. apply worldInv_call; exact Hw.
Qed.

Lemma worldInv_initialWorld : worldInv initialWorld.
Proof. intros i H. exfalso; apply H; reflexivity. Qed.

Lemma reachable_worldInv (w : World) : reachable w -> worldInv w.
Proof.
  intros [history ->]. apply worldInv_run, worldInv_initialWorld.
Qed.

(** C6: in every state the page can reach (any history of method calls and
    handled events, on any number of instances), a queued stage implies that
    the scroller is decelerating; so after the touch-start handler the queued
    stage is [NONE] and nothing decelerates, and whenever it interrupts a
    deceleration (in particular whenever a stage was queued) the content
    offset, the drag's start offset and the content's transform are the
    offset read back from the renderer, with the transition cleared. *)
Theorem onTouchStart_collapses_stage (w : World) (i : nat) (e f : Size)
    (aEvent : TouchEvent) (live : LiveMatrices) :
  reachable w ->
  let s := scrollers w i in
  let s' := fst (onTouchStart e f aEvent live s) in
  queuedTransitionStage_ s' = NONE
  /\ isDecelerating_ s' = false
  /\ (queuedTransitionStage_ s <> NONE -> isDecelerating_ s = true)
  /\ (isDecelerating_ s = true ->
      contentOffsetY s' = elementM42 live
      /\ contentStartOffsetY s' = elementM42 live
      /\ elementTransform s' = Translate3dY (elementM42 live)
      /\ elementTransition s' = TransitionNone)
  /\ (isDecelerating_ s = false -> contentOffsetY s' = contentOffsetY s).
Proof.
  intros Hw s s'.
  pose proof (reachable_worldInv w Hw i) as Hs. fold s in Hs.
  destruct (onTouchStart_after_stopMomentum e f aEvent live s)
    as (H1 & H2 & H3 & H4 & H5).
  destruct (stopMomentum_collapses e f live s Hs) as [H6 H7].
  assert (Hread : isDecelerating_ s = true ->
                  contentOffsetY (stopMomentum e f live s) = elementM42 live
                  /\ elementTransform (stopMomentum e f live s)
                     = Translate3dY (elementM42 live)
                  /\ elementTransition (stopMomentum e f live s)
                     = TransitionNone).
  { intros Hd. unfold stopMomentum; cbv zeta. rewrite Hd.
    repeat split; reflexivity. }
  assert (Hkeep : isDecelerating_ s = false ->
                  contentOffsetY (stopMomentum e f live s)
                  = contentOffsetY s).
  { intros Hd. unfold stopMomentum; cbv zeta. rewrite Hd. reflexivity. }
  assert (Htr : elementTransition s'
                = elementTransition (stopMomentum e f live s)).
  { subst s'. unfold onTouchStart, showScrollBar; cbv zeta. reflexivity. }
  subst s'. rewrite H1, H2, H3, H4, H5, Htr.
  split; [exact H6 | split; [exact H7 | split; [exact Hs | split]]].
  - intros Hd. destruct (Hread Hd) as (R1 & R2 & R3).
    repeat split; assumption.
  - exact Hkeep.
Qed.


(** ** Rubber-band damping *)

Lemma exp_gt_1 (x : R) : 0 < x -> 1 < Rtrigo_def.exp x.
Proof.
  intros H. assert (Hx : x <> 0) by lra.
  pose proof (exp_ineq1 x Hx). lra.
Qed.

Lemma damped_0 : damped 0 = 0.
Proof. unfold damped. lra. Qed.

Lemma Rabs_damped (d : R) :
  Rabs (damped d) = Rabs d / Rtrigo_def.exp (Rabs d / 550).
Proof.
  unfold damped, Rdiv. rewrite Rabs_mult. f_equal.
  apply Rabs_pos_eq. left. apply Rinv_0_lt_compat, exp_pos.
Qed.

Lemma damped_lt (d : R) : d <> 0 -> Rabs (damped d) < Rabs d.
Proof.
  intros Hd. rewrite Rabs_damped.
  assert (Hpos : 0 < Rabs d) by (apply Rabs_pos_lt; exact Hd).
  assert (HE : 1 < Rtrigo_def.exp (Rabs d / 550)) by (apply exp_gt_1; lra).
  apply Rmult_lt_reg_r with (r := Rtrigo_def.exp (Rabs d / 550)); [lra | ].
  unfold Rdiv at 1. rewrite Rmult_assoc, Rinv_l by lra. nra.
Qed.

Lemma damped_effect_le (d : R) : Rabs (d - damped d) <= Rabs d.
Proof.
  assert (HE : 1 <= Rtrigo_def.exp (Rabs d / 550)).
  { destruct (Req_dec d 0) as [-> | Hd].
    - rewrite Rabs_R0. replace (0 / 550) with 0 by lra. rewrite exp_0. lra.
    - left. apply exp_gt_1. pose proof (Rabs_pos_lt d Hd). lra. }
  set (E := Rtrigo_def.exp (Rabs d / 550)) in *.
  replace (d - damped d) with (d * (1 - / E)) by (unfold damped; fold E; field; lra).
  rewrite Rabs_mult.
  assert (0 < / E <= 1).
  { split; [apply Rinv_0_lt_compat; lra | ].
    rewrite <- Rinv_1. apply Rinv_le_contravar; lra. }
  rewrite (Rabs_pos_eq (1 - / E)) by lra.
  pose proof (Rabs_pos d). nra.
Qed.

(** What a touch-move leaves as content offset, on finite samples, when a
    drag is under way. *)
Lemma contentOffsetY_onTouchMove (e f : Size) (aEvent : TouchEvent)
    (s : Scroller) (y0 y1 c0 : R) :
  isDragging_ s = true ->
  startTouchY s = Fin y0 -> clientY aEvent = Fin y1 ->
  contentStartOffsetY s = Fin c0 ->
  contentOffsetY (onTouchMove e f aEvent s)
  = if isOutOfBounds e f s then Fin (damped (y1 - y0) + c0)
    else Fin (y1 - y0 + c0).
Proof.
  intros Hdrag Hy0 Hy1 Hc0. unfold onTouchMove, isDragging.
  rewrite Hdrag. cbv zeta. rewrite contentOffsetY_animateTo.
  rewrite Hy0, Hy1, Hc0.
  destruct (isOutOfBounds e f s); simpl.
  - rdec. simpl. rdec.
    + pose proof (exp_pos (Rabs ((y1 + - y0) / 550))). lra.
    + simpl. f_equal. unfold damped.
      replace (y1 + - y0) with (y1 - y0) by lra.
      rewrite (Rabs_div_pos (y1 - y0) 550) by lra. reflexivity.
  - f_equal; lra.
Qed.

(** C4, as stated, fails: dragged back to where the drag started while the
    content is out of bounds (offset 40 above the top), the raw delta is 0
    and so is the damped delta; its magnitude is not strictly less. *)
Lemma onTouchMove_zero_delta_not_damped :
  isOutOfBounds content900 frame300 (draggingAt 100 10 40) = true
  /\ sub (clientY (mkTouch (Fin 100) (Fin 20) (Fin 16)))
         (startTouchY (draggingAt 100 10 40)) = Fin 0
  /\ contentOffsetY
       (onTouchMove content900 frame300 (mkTouch (Fin 100) (Fin 20) (Fin 16))
          (draggingAt 100 10 40))
     = Fin (0 + 10)
  /\ ~ Rabs 0 < Rabs 0.
Proof.
  assert (Hout : isOutOfBounds content900 frame300 (draggingAt 100 10 40)
                 = true).
  { unfold isOutOfBounds, positionIsOutOfBounds. simpl.
    unfold gtb, ltb, Rltb; rdec; reflexivity. }
  split; [exact Hout | split; [simpl; f_equal; lra | split; [ | lra]]].
  rewrite (contentOffsetY_onTouchMove content900 frame300 _ _ 100 100 10)
    by reflexivity.
  rewrite Hout. f_equal. replace (100 - 100) with 0 by lra.
  rewrite damped_0. reflexivity.
Qed.

(** C4, amended: in a drag on finite samples, a touch-move that finds the
    content out of bounds places it at the drag's start offset plus the
    damped delta [d / exp(|d| / 550)], where [d] is the finger's distance
    from where the drag started (in bounds, the delta is applied as it is).
    The damped delta's magnitude is strictly less than the raw delta's for
    every delta but 0, which stays 0; and the difference between the raw and
    the damped delta is at most [|d|], so it tends to 0 with [|d|]. *)
Theorem onTouchMove_damps_out_of_bounds :
  (forall (e f : Size) (aEvent : TouchEvent) (s : Scroller) (y0 y1 c0 : R),
      isDragging_ s = true ->
      startTouchY s = Fin y0 -> clientY aEvent = Fin y1 ->
      contentStartOffsetY s = Fin c0 ->
      (isOutOfBounds e f s = true ->
       contentOffsetY (onTouchMove e f aEvent s)
       = Fin (damped (y1 - y0) + c0))
      /\ (isOutOfBounds e f s = false ->
          contentOffsetY (onTouchMove e f aEvent s) = Fin (y1 - y0 + c0)))
  /\ (forall d : R, d <> 0 -> Rabs (damped d) < Rabs d)
  /\ damped 0 = 0
  /\ (forall eps : R, 0 < eps ->
      exists delta : R, 0 < delta /\
        forall d : R, Rabs d < delta -> Rabs (d - damped d) < eps).
Proof.
  split; [ | split; [exact damped_lt | split; [exact damped_0 | ]]].
  - intros e f aEvent s y0 y1 c0 Hdrag Hy0 Hy1 Hc0.
    rewrite (contentOffsetY_onTouchMove e f aEvent s y0 y1 c0) by assumption.
    split; intros ->; reflexivity.
  - intros eps Heps. exists eps. split; [exact Heps | ].
    intros d Hd. pose proof (damped_effect_le d). lra.
Qed.

Lemma onTouchMove_damps_out_of_bounds_witness :
  contentOffsetY
    (onTouchMove content900 frame300 (mkTouch (Fin 130) (Fin 20) (Fin 16))
       (draggingAt 100 10 40))
  = Fin (damped (130 - 100) + 10)
  /\ Rabs (damped 30) < Rabs 30.
Proof.
  destruct onTouchMove_damps_out_of_bounds as (H1 & H2 & _).
  split.
  - apply (H1 content900 frame300 (mkTouch (Fin 130) (Fin 20) (Fin 16))
             (draggingAt 100 10 40) 100 130 10); try reflexivity.
    unfold isOutOfBounds, positionIsOutOfBounds. simpl.
    unfold gtb, ltb, Rltb; rdec; reflexivity.
  - apply H2. lra.
Defined.

(** ** Touch end and taps *)

Lemma keepsTouch_showScrollBarDelayed (b : bool) :
  keepsTouch (showScrollBarDelayed b).
Proof. intros s. repeat split; reflexivity. Qed.

Lemma keepsTouch_snapToBounds (e f : Size) : keepsTouch (snapToBounds e f).
Proof.
  intros s. unfold snapToBounds; cbv zeta. repeat split; by_cases.
Qed.

Lemma keepsTouch_setUpTransitionStage1 (e f : Size) :
  keepsTouch (setUpTransitionStage1 e f).
Proof.
  intros s. unfold setUpTransitionStage1; cbv zeta.
  destruct (gtb (getEndVelocity s) (Fin 0)); repeat split; reflexivity.
Qed.

Lemma keepsTouch_doMomentum (e f : Size) : keepsTouch (doMomentum e f).
Proof.
  intros s. unfold doMomentum; cbv zeta.
  destruct (negb (eqb (getEndVelocity s) (Fin 0)));
    [ | apply keepsTouch_showScrollBarDelayed].
  match goal with
  | |- context [if ?c then _ else _] => destruct c
  end; fields.
  - apply keepsTouch_setUpTransitionStage1.
  - repeat split; reflexivity.
Qed.

(** The state in which [onTouchEnd] decides between stopping the event and
    synthesizing a click. *)
Lemma onTouchEnd_effects (e f : Size) (target : Element) (s : Scroller) :
  snd (onTouchEnd e f target s)
  = if stopPropagationOnTouchEnd_ s
       || geb (abs (sub (currentPoint_ s) (startTouchY s))) DRAG_THRESHOLD
    then [StopPropagation; PreventDefault]
    else synthesizeClick (startTouchX s) (startTouchY s) target.
Proof.
  unfold onTouchEnd.
  assert (Hd : keepsTouch (fun s => snd (isDragging s))).
  { intros s0. unfold isDragging. destruct (isDragging_ s0);
      repeat split; reflexivity. }
  destruct (Hd s) as (D1 & D2 & D3 & D4).
  destruct (isDragging s) as [dragging s1]; cbn [snd] in D1, D2, D3, D4.
  assert (Hk : forall s2,
             s2 = (if dragging
                   then if shouldStartMomentum e f s1 then doMomentum e f s1
                        else snapToBounds e f s1
                   else showScrollBarDelayed false s1) ->
             startTouchY s2 = startTouchY s
             /\ startTouchX s2 = startTouchX s
             /\ currentPoint_ s2 = currentPoint_ s
             /\ stopPropagationOnTouchEnd_ s2 = stopPropagationOnTouchEnd_ s).
  { intros s2 ->. rewrite <- D1, <- D2, <- D3, <- D4.
    destruct dragging; [destruct (shouldStartMomentum e f s1) | ].
    - apply keepsTouch_doMomentum.
    - apply keepsTouch_snapToBounds.
    - apply keepsTouch_showScrollBarDelayed. }
  cbv zeta.
  match goal with
  | |- context [stopPropagationOnTouchEnd_ ?s2] =>
      destruct (Hk s2 eq_refl) as (K1 & K2 & K3 & K4);
      rewrite K1, K2, K3, K4
  end.
  match goal with
  | |- context [if ?c then _ else _] => destruct c
  end; reflexivity.
Qed.

(** What a touch-move records of its sample, in a drag. *)
Lemma onTouchMove_fields (e f : Size) (aEvent : TouchEvent) (s : Scroller) :
  isDragging_ s = true ->
  let s' := onTouchMove e f aEvent s in
  isDragging_ s' = true
  /\ stopPropagationOnTouchEnd_ s' = stopPropagationOnTouchEnd_ s
  /\ startTouchY s' = startTouchY s
  /\ startTouchX s' = startTouchX s
  /\ previousPoint_ s' = currentPoint_ s
  /\ previousMoment_ s' = currentMoment_ s
  /\ currentPoint_ s' = clientY aEvent
  /\ currentMoment_ s' = now aEvent.
Proof.
  intros Hd. unfold onTouchMove, isDragging. rewrite Hd. cbv zeta.
  unfold animateTo; cbv zeta. cbn [negb].
  repeat split; try by_cases.
  rewrite <- Hd. by_cases.
Qed.

(** Right after [onTouchStart] both samples of the velocity window are the
    touch itself. *)
Lemma onTouchStart_fields (e f : Size) (aEvent : TouchEvent)
    (live : LiveMatrices) (s : Scroller) :
  let s' := fst (onTouchStart e f aEvent live s) in
  isDragging_ s' = true
  /\ stopPropagationOnTouchEnd_ s' = isDecelerating_ s
  /\ startTouchY s' = clientY aEvent
  /\ startTouchX s' = clientX aEvent
  /\ previousPoint_ s' = clientY aEvent
  /\ currentPoint_ s' = clientY aEvent
  /\ previousMoment_ s' = now aEvent
  /\ currentMoment_ s' = now aEvent.
Proof.
  unfold onTouchStart, stopMomentum, showScrollBar; cbv zeta. cbn [fst negb].
  repeat split; try reflexivity.
  fields. destruct (isDecelerating_ s); reflexivity.
Qed.

Lemma contentOffsetY_onTouchStart_idle (e f : Size) (aEvent : TouchEvent)
    (live : LiveMatrices) (s : Scroller) :
  isDecelerating_ s = false ->
  contentOffsetY (fst (onTouchStart e f aEvent live s)) = contentOffsetY s.
Proof.
  intros Hd. unfold onTouchStart, stopMomentum, showScrollBar; cbv zeta.
  rewrite Hd. reflexivity.
Qed.

Lemma restingAt_in_bounds (y : R) :
  - 600 <= y <= 0 ->
  positionIsOutOfBounds content900 frame300 (Fin y) = false.
Proof.
  intros Hy. unfold positionIsOutOfBounds.
  rewrite getLowestContentPosition_900_300.
  unfold gtb, ltb, Rltb. rdec; reflexivity.
Qed.

Lemma afterSmallMove_fields :
  isDragging_ afterSmallMove = true
  /\ stopPropagationOnTouchEnd_ afterSmallMove = false
  /\ startTouchY afterSmallMove = Fin 100
  /\ startTouchX afterSmallMove = Fin 20
  /\ previousPoint_ afterSmallMove = Fin 100
  /\ previousMoment_ afterSmallMove = Fin 0
  /\ currentPoint_ afterSmallMove = Fin 97
  /\ currentMoment_ afterSmallMove = Fin 10
  /\ contentOffsetY afterSmallMove = Fin (- 53).
Proof.
  unfold afterSmallMove.
  set (s0 := restingAt (- 50)).
  assert (Hidle : isDecelerating_ s0 = false) by reflexivity.
  assert (Hoff0 : contentOffsetY s0 = Fin (- 50)) by reflexivity.
  destruct (onTouchStart_fields content900 frame300 touchDown liveAtRest s0)
    as (Hd & Hstop & Hy0 & Hx0 & Hp0 & Hp1 & Ht0 & Ht1).
  destruct (onTouchStart_after_stopMomentum content900 frame300 touchDown
              liveAtRest s0) as (_ & _ & Hc & Hc0 & _).
  pose proof (contentOffsetY_onTouchStart_idle content900 frame300 touchDown
                liveAtRest s0 Hidle) as Hoff.
  rewrite <- Hc, Hoff, Hoff0 in Hc0. rewrite Hoff0 in Hoff. clear Hc.
  set (s1 := fst (onTouchStart content900 frame300 touchDown liveAtRest s0))
    in *.
  destruct (onTouchMove_fields content900 frame300 touchUp3 s1 Hd)
    as (M1 & M2 & M3 & M4 & M5 & M6 & M7 & M8).
  rewrite M1, M2, M3, M4, M5, M6, M7, M8, Hstop, Hy0, Hx0, Hp1, Ht1, Hidle.
  repeat split.
  rewrite (contentOffsetY_onTouchMove content900 frame300 touchUp3 s1
             100 97 (- 50) Hd Hy0 eq_refl Hc0).
  unfold isOutOfBounds. rewrite Hoff, restingAt_in_bounds by lra.
  f_equal. lra.
Qed.

Lemma getEndVelocity_afterSmallMove :
  getEndVelocity afterSmallMove = Fin (- (3 / 10)).
Proof.
  destruct afterSmallMove_fields
    as (_ & _ & _ & _ & Hp0 & Ht0 & Hp1 & Ht1 & _).
  destruct (getEndVelocity_samples afterSmallMove 100 0 97 10 Hp0 Ht0 Hp1 Ht1)
    as (_ & _ & _ & H4 & _).
  rewrite H4; [f_equal; lra | lra | ].
  replace ((97 - 100) / (10 - 0)) with (- (3 / 10)) by lra.
  rewrite Rabs_left by lra. lra.
Qed.


(** The stopping displacement [-v * v / (2 * a)] under the sliding
    acceleration. *)
Lemma sliding_displacement_Fin (v : R) :
  div (neg (mul (Fin v) (Fin v))) (mul (Fin 2) (getAcceleration (Fin v)))
  = Fin (if Rlt_dec v 0 then - (1000 * (v * v)) else 1000 * (v * v)).
Proof.
  rewrite getAcceleration_Fin.
  destruct (Rlt_dec v 0); simpl; rdec; f_equal; field.
Qed.

(** Momentum that comes to rest within the bounds moves the content there
    directly. *)
Lemma contentOffsetY_doMomentum_direct (e f : Size) (s : Scroller)
    (v y : R) :
  getEndVelocity s = Fin v -> v <> 0 -> contentOffsetY s = Fin y ->
  positionIsOutOfBounds e f
    (Fin (y + (if Rlt_dec v 0 then - (1000 * (v * v)) else 1000 * (v * v))))
  = false ->
  contentOffsetY (doMomentum e f s)
  = Fin (y + (if Rlt_dec v 0 then - (1000 * (v * v)) else 1000 * (v * v)))
  /\ queuedTransitionStage_ (doMomentum e f s) = queuedTransitionStage_ s.
Proof.
  intros Hv Hv0 Hy Hin. unfold doMomentum; cbv zeta.
  rewrite Hv, sliding_displacement_Fin, Hy.
  replace (eqb (Fin v) (Fin 0)) with false
    by (symmetry; unfold eqb, Reqb; rdec; reflexivity).
  cbn [negb]. cbn [JsNum.add]. rewrite Hin. split; reflexivity.
Qed.

Lemma contentOffsetY_doMomentum_afterSmallMove :
  contentOffsetY (doMomentum content900 frame300 afterSmallMove)
  = Fin (- 143).
Proof.
  destruct afterSmallMove_fields as (_ & _ & _ & _ & _ & _ & _ & _ & Hy).
  destruct (contentOffsetY_doMomentum_direct content900 frame300
              afterSmallMove (- (3 / 10)) (- 53)) as [H _];
    try assumption; try lra.
  - apply getEndVelocity_afterSmallMove.
  - unfold positionIsOutOfBounds. rewrite getLowestContentPosition_900_300.
    unfold gtb, ltb, Rltb. rdec; reflexivity.
  - rewrite H. f_equal. rdec; lra.
Qed.

Lemma contentOffsetY_onTouchEnd (e f : Size) (target : Element)
    (s : Scroller) :
  isDragging_ s = true ->
  contentOffsetY (fst (onTouchEnd e f target s))
  = contentOffsetY (if shouldStartMomentum e f s then doMomentum e f s
                    else snapToBounds e f s).
Proof.
  intros Hd. unfold onTouchEnd, isDragging. rewrite Hd. cbv zeta.
  match goal with
  | |- context [if ?c then (_, _) else _] => destruct c
  end; reflexivity.
Qed.

Lemma doMomentum_no_velocity (e f : Size) (s : Scroller) :
  getEndVelocity s = Fin 0 -> doMomentum e f s = showScrollBarDelayed false s.
Proof.
  intros Hv. unfold doMomentum; cbv zeta. rewrite Hv.
  replace (eqb (Fin 0) (Fin 0)) with true
    by (symmetry; apply eqb_Fin; reflexivity).
  reflexivity.
Qed.

Lemma small_distance (a b : R) :
  Rabs (a - b) < 5 ->
  geb (abs (sub (Fin a) (Fin b))) DRAG_THRESHOLD = false.
Proof.
  intros H. unfold DRAG_THRESHOLD, geb. simpl.
  replace (a + - b) with (a - b) by lra.
  apply leb_Fin_false. exact H.
Qed.

(** C8, as stated, fails: a touch on content resting at offset -50 that
    moves the finger by 3, less than the threshold, within 10 ms has already
    moved the content to -53 when it ends, and the touch-end handler both
    synthesizes the click and starts momentum to offset -143. *)
Lemma onTouchEnd_small_move_scrolls :
  Rabs (97 - 100) < 5
  /\ currentPoint_ afterSmallMove = Fin 97
  /\ startTouchY afterSmallMove = Fin 100
  /\ contentOffsetY afterSmallMove = Fin (- 53)
  /\ snd (onTouchEnd content900 frame300 linkElement afterSmallMove)
     = [DispatchClick (Fin 20) (Fin 100) linkElement]
  /\ contentOffsetY
       (fst (onTouchEnd content900 frame300 linkElement afterSmallMove))
     = Fin (- 143)
  /\ Fin (- 143) <> Fin (- 53).
Proof.
  destruct afterSmallMove_fields
    as (Hd & Hstop & Hy0 & Hx0 & _ & _ & Hp1 & _ & Hy).
  assert (Hsmall : Rabs (97 - 100) < 5) by (rewrite Rabs_left; lra).
  repeat split; try assumption.
  - rewrite onTouchEnd_effects, Hstop, Hp1, Hy0, Hx0.
    rewrite small_distance by exact Hsmall. reflexivity.
  - rewrite contentOffsetY_onTouchEnd by exact Hd.
    unfold shouldStartMomentum, isOutOfBounds, positionIsOutOfBounds.
    rewrite Hy, getLowestContentPosition_900_300.
    unfold gtb, ltb, Rltb. rdec. cbn [orb].
    apply contentOffsetY_doMomentum_afterSmallMove.
  - intros H. injection H. lra.
Qed.

Lemma contentOffsetY_onTouchEnd_no_velocity (e f : Size) (target : Element)
    (s : Scroller) :
  isDragging_ s = true -> isOutOfBounds e f s = false ->
  getEndVelocity s = Fin 0 ->
  contentOffsetY (fst (onTouchEnd e f target s)) = contentOffsetY s.
Proof.
  intros Hd Hin Hv. rewrite contentOffsetY_onTouchEnd by exact Hd.
  unfold shouldStartMomentum. rewrite Hin.
  rewrite doMomentum_no_velocity by exact Hv. reflexivity.
Qed.

(** C8, amended: when the finger is less than [DRAG_THRESHOLD] away from
    where the touch started, the touch-end handler synthesizes a click at the
    coordinates of the touch start on the element found there, followed by
    what [focusIfNeeded] does for a focusable form field (the caret at the
    end of the value, or focus), unless the touch start interrupted a
    deceleration: then it stops the event's propagation and synthesizes
    nothing.  The content offset is left as it is when the content is in
    bounds and the velocity estimate is 0; so a touch start on resting,
    in-bounds content followed at once by a touch end clicks at the touch
    point and leaves the content offset unchanged. *)
Theorem onTouchEnd_tap (e f : Size) (target : Element) :
  (forall (s : Scroller) (y0 p : R),
      startTouchY s = Fin y0 -> currentPoint_ s = Fin p ->
      Rabs (p - y0) < 5 ->
      (stopPropagationOnTouchEnd_ s = false ->
       snd (onTouchEnd e f target s)
       = DispatchClick (startTouchX s) (Fin y0) target
           :: focusIfNeeded target)
      /\ (stopPropagationOnTouchEnd_ s = true ->
          snd (onTouchEnd e f target s) = [StopPropagation; PreventDefault])
      /\ (isDragging_ s = true -> isOutOfBounds e f s = false ->
          getEndVelocity s = Fin 0 ->
          contentOffsetY (fst (onTouchEnd e f target s)) = contentOffsetY s))
  /\ (forall (s : Scroller) (aEvent : TouchEvent) (live : LiveMatrices)
        (y t : R),
      clientY aEvent = Fin y -> now aEvent = Fin t ->
      isDecelerating_ s = false -> isOutOfBounds e f s = false ->
      let tapped :=
        onTouchEnd e f target (fst (onTouchStart e f aEvent live s)) in
      snd tapped
      = DispatchClick (clientX aEvent) (clientY aEvent) target
          :: focusIfNeeded target
      /\ contentOffsetY (fst tapped) = contentOffsetY s)
  /\ (needsFocus target = false -> focusIfNeeded target = [])
  /\ (needsFocus target = true ->
      focusIfNeeded target = [Focus]
      \/ focusIfNeeded target
         = [SetSelectionRange (String.length (value target))
              (String.length (value target))]).
Proof.
  split; [ | split; [ | split]].
  - intros s y0 p Hy0 Hp Hsmall.
    split; [ | split].
    + intros Hstop. rewrite onTouchEnd_effects, Hstop, Hp, Hy0.
      rewrite small_distance by exact Hsmall. reflexivity.
    + intros Hstop. rewrite onTouchEnd_effects, Hstop. reflexivity.
    + apply contentOffsetY_onTouchEnd_no_velocity.
  - intros s aEvent live y t Hy Ht Hidle Hin tapped. subst tapped.
    destruct (onTouchStart_fields e f aEvent live s)
      as (Hd & Hstop & Hy0 & Hx0 & Hp0 & Hp1 & Ht0 & Ht1).
    pose proof (contentOffsetY_onTouchStart_idle e f aEvent live s Hidle)
      as Hoff.
    set (s1 := fst (onTouchStart e f aEvent live s)) in *.
    split.
    + rewrite onTouchEnd_effects, Hstop, Hidle, Hp1, Hy0, Hx0, Hy.
      rewrite small_distance; [reflexivity | ].
      replace (y - y) with 0 by lra. rewrite Rabs_R0. lra.
    + rewrite <- Hoff. apply contentOffsetY_onTouchEnd_no_velocity.
      * exact Hd.
      * unfold isOutOfBounds in *. rewrite Hoff. exact Hin.
      * rewrite Hy in Hp0, Hp1. rewrite Ht in Ht0, Ht1.
        destruct (getEndVelocity_samples s1 y t y t Hp0 Ht0 Hp1 Ht1)
          as (H0 & _).
        apply H0; reflexivity.
  - intros H. unfold focusIfNeeded. rewrite H. reflexivity.
  - intros H. unfold focusIfNeeded. rewrite H.
    match goal with
    | |- context [if ?c then _ else _] => destruct c
    end; [right | left]; reflexivity.
Qed.

Lemma onTouchEnd_tap_witness :
  snd (onTouchEnd content900 frame300 textField
         (fst (onTouchStart content900 frame300 touchDown liveAtRest
                 (restingAt (- 50)))))
  = [DispatchClick (Fin 20) (Fin 100) textField; SetSelectionRange 3 3]
  /\ contentOffsetY
       (fst (onTouchEnd content900 frame300 textField
               (fst (onTouchStart content900 frame300 touchDown liveAtRest
                       (restingAt (- 50))))))
     = Fin (- 50).
Proof.
  destruct (onTouchEnd_tap content900 frame300 textField) as (_ & H & _).
  apply (H (restingAt (- 50)) touchDown liveAtRest 100 0);
    try reflexivity.
  unfold isOutOfBounds, positionIsOutOfBounds.
  rewrite getLowestContentPosition_900_300. simpl.
  unfold gtb, ltb, Rltb. rdec; reflexivity.
Defined.

(** ** Enabling and the instance counter *)

Lemma andThen_preserves {A : Type} (P : A -> Prop) (c : Completion A)
    (k : A -> Completion A) :
  P (stateOf c) -> (forall a, P a -> P (stateOf (k a))) ->
  P (stateOf (c >>= k)).
Proof.
  intros Hc Hk. destruct c as [a | a]; cbn [andThen stateOf] in *.
  - apply Hk; exact Hc.
  - exact Hc.
Qed.

(** [enable(aEnabled)] on an instance whose flag is already [aEnabled]
    returns at once. *)
Lemma enable_same (env : Env) (aEnabled : bool) (g : Global) (s : Scroller) :
  enabled_ s = Some aEnabled -> enable env aEnabled (g, s) = Normal (g, s).
Proof.
  intros H. unfold enable, isEnabled, looseEq. rewrite H.
  rewrite Bool.eqb_reflx. reflexivity.
Qed.

Lemma enabled_animateWithinBounds (e f : Size) (y : number) (s : Scroller) :
  enabled_ (animateWithinBounds e f y s) = enabled_ s.
Proof.
  unfold animateWithinBounds, animateTo; cbv zeta. cbn [negb]. by_cases.
Qed.

(** The counter and the flag across the steps of [enable] that follow their
    update. *)
Lemma enable_true_steps (env : Env) (g : Global) (s : Scroller) (n : Z)
    (b : bool) :
  instancesCount_ g = n -> enabled_ s = Some b ->
  let gs' :=
    stateOf
      (setUpStyles (g, s) >>= fun '(g, s) =>
       onScroller g (calculateSizes env s) >>= fun '(g, s) =>
       onScroller g (enterDocument s) >>= fun '(g, s) =>
       onScroller g
         (measured (fun e f => animateWithinBounds e f (contentOffsetY s)) s)
       >>= fun '(g, s) =>
       onScroller g
         (measured (fun e f => set_lineTransform
                                 (ScaleY (getScrollBarLineHeight e f))) s)
       >>= fun '(g, s) =>
       match frameElement s with
       | None => Throws (g, s)
       | Some frame => Normal (g, set_scrollBarParent (Some frame) s)
       end) in
  instancesCount_ (fst gs') = n /\ enabled_ (snd gs') = Some b.
Proof.
  intros Hn Hb. cbv zeta.
  set (P := fun gs : Global * Scroller =>
              instancesCount_ (fst gs) = n /\ enabled_ (snd gs) = Some b).
  change (P (stateOf
    (setUpStyles (g, s) >>= fun '(g, s) =>
       onScroller g (calculateSizes env s) >>= fun '(g, s) =>
       onScroller g (enterDocument s) >>= fun '(g, s) =>
       onScroller g
         (measured (fun e f => animateWithinBounds e f (contentOffsetY s)) s)
       >>= fun '(g, s) =>
       onScroller g
         (measured (fun e f => set_lineTransform
                                 (ScaleY (getScrollBarLineHeight e f))) s)
       >>= fun '(g, s) =>
       match frameElement s with
       | None => Throws (g, s)
       | Some frame => Normal (g, set_scrollBarParent (Some frame) s)
       end))).
  apply andThen_preserves.
  { unfold setUpStyles. destruct (frameElement s); split; assumption. }
  clear g s Hn Hb. intros [g s] [Hn Hb]; cbn [fst snd] in Hn, Hb.
  apply andThen_preserves.
  { unfold calculateSizes. destruct (element s); [ | split; assumption].
    fields. destruct (frameElement s); split; assumption. }
  clear g s Hn Hb. intros [g s] [Hn Hb]; cbn [fst snd] in Hn, Hb.
  apply andThen_preserves.
  { unfold enterDocument. destruct (element s); split; assumption. }
  clear g s Hn Hb. intros [g s] [Hn Hb]; cbn [fst snd] in Hn, Hb.
  apply andThen_preserves.
  { unfold measured. destruct (elementSize s), (frameElementSize s);
      split; try assumption.
    cbn [onScroller stateOf snd]. rewrite enabled_animateWithinBounds.
    exact Hb. }
  clear g s Hn Hb. intros [g s] [Hn Hb]; cbn [fst snd] in Hn, Hb.
  apply andThen_preserves.
  { unfold measured. destruct (elementSize s), (frameElementSize s);
      split; assumption. }
  clear g s Hn Hb. intros [g s] [Hn Hb]; cbn [fst snd] in Hn, Hb.
  destruct (frameElement s); split; assumption.
Qed.

(** What a call of [enable] leaves in the counter and in the flag, however
    it ends. *)
Lemma enable_counter (env : Env) (aEnabled : bool) (g : Global)
    (s : Scroller) :
  let gs' := stateOf (enable env aEnabled (g, s)) in
  instancesCount_ (fst gs')
  = (if looseEq (enabled_ s) aEnabled then instancesCount_ g
     else if aEnabled then instancesCount_ g + 1
          else Z.max 0 (instancesCount_ g - 1))%Z
  /\ (looseEq (enabled_ s) aEnabled = false ->
      enabled_ (snd gs') = Some aEnabled).
Proof.
  cbv zeta. unfold enable, isEnabled.
  destruct (looseEq (enabled_ s) aEnabled);
    [split; [reflexivity | discriminate] | ].
  cbv zeta. destruct aEnabled.
  - match goal with
    | |- context [setUpStyles (?g1, ?s1)] =>
        destruct (enable_true_steps env g1 s1 (instancesCount_ g + 1)%Z true)
          as [H1 H2]
    end.
    + destruct (1 =? _)%Z; reflexivity.
    + reflexivity.
    + split; [exact H1 | intros _; exact H2].
  - match goal with
    | |- context [restoreStyles (?g1, ?s1)] =>
        assert (Hg : instancesCount_ g1 = Z.max 0 (instancesCount_ g - 1));
        [ | assert (Hs : enabled_ s1 = Some false) by reflexivity;
            generalize dependent g1; generalize dependent s1 ]
    end.
    + cbn [instancesCount_ set_instancesCount_].
      destruct (instancesCount_ g - 1 <? 0)%Z eqn:Hneg;
        cbn [instancesCount_ set_instancesCount_];
        [ apply Z.ltb_lt in Hneg | apply Z.ltb_ge in Hneg ];
        match goal with
        | |- context [(0 =? ?z)%Z] => destruct (0 =? z)%Z
        end; simpl; lia.
    + intros s1 Hs g1 Hg. unfold restoreStyles.
      destruct (frameElement s1); [destruct (frameElementComputedStyle s1) | ];
        cbn [andThen stateOf fst snd]; split; try assumption; intros _;
        assumption.
Qed.

Lemma counter_enable (env : Env) (aEnabled : bool) (g : Global)
    (s : Scroller) :
  (0 <= instancesCount_ g)%Z ->
  (0 <= instancesCount_ (fst (stateOf (enable env aEnabled (g, s)))))%Z.
Proof.
  intros Hg. destruct (enable_counter env aEnabled g s) as [H _].
  rewrite H. destruct (looseEq (enabled_ s) aEnabled); [exact Hg | ].
  destruct aEnabled; lia.
Qed.

Lemma counter_add (env : Env) (aElement : ElemId) (g : Global)
    (s : Scroller) :
  (0 <= instancesCount_ g)%Z ->
  (0 <= instancesCount_ (fst (stateOf (add env aElement (g, s)))))%Z.
Proof. intros Hg. unfold add. apply counter_enable; exact Hg. Qed.

Lemma counter_reset (env : Env) (aElement : ElemId) (g : Global)
    (s : Scroller) :
  (0 <= instancesCount_ g)%Z ->
  (0 <= instancesCount_ (fst (stateOf (reset env aElement (g, s)))))%Z.
Proof.
  intros Hg. unfold reset, remove.
  apply (andThen_preserves
           (fun gs : Global * Scroller => (0 <= instancesCount_ (fst gs))%Z)).
  - apply counter_enable; exact Hg.
  - intros [g' s'] Hg'. apply counter_add; exact Hg'.
Qed.

Lemma counter_resume (env : Env) (aElement : ElemId) (g : Global)
    (s : Scroller) :
  (0 <= instancesCount_ g)%Z ->
  (0 <= instancesCount_ (fst (stateOf (resume env aElement (g, s)))))%Z.
Proof.
  intros Hg. unfold resume.
  apply (andThen_preserves
           (fun gs : Global * Scroller => (0 <= instancesCount_ (fst gs))%Z)).
  - apply counter_add; exact Hg.
  - intros [g' s'] Hg'.
    destruct (measured _ s'); exact Hg'.
Qed.

Lemma global_lifecycle (w : World) (i : nat)
    (c : Completion (Global * Scroller)) :
  global (stateOf (lifecycle w i c)) = fst (stateOf c).
Proof. destruct c as [[g s] | [g s]]; reflexivity. Qed.

Lemma global_motion (w : World) (i : nat) (c : Completion Scroller) :
  global (stateOf (motion w i c)) = global w.
Proof. destruct c; reflexivity. Qed.

Lemma counter_call (env : Env) (i : nat) (c : Call) (w : World) :
  (0 <= instancesCount_ (global w))%Z ->
  (0 <= instancesCount_ (global (stateOf (call env i c w))))%Z.
Proof.
  intros Hw.
  destruct c; cbn [call]; cbv zeta;
    rewrite ?global_motion; try exact Hw; rewrite global_lifecycle.
  - apply counter_enable; exact Hw.
  - apply counter_add; exact Hw.
  - apply counter_enable; exact Hw.
  - apply counter_reset; exact Hw.
  - apply counter_enable; exact Hw.
  - apply counter_resume; exact Hw.
Qed.

Lemma counter_run (history : list Step) :
  forall w, (0 <= instancesCount_ (global w))%Z ->
            (0 <= instancesCount_ (global (run history w)))%Z.
Proof.
  induction history as [ | [[env i] c] history IH]; intros w Hw;
    [exact Hw | ].
  cbn [run fold_left]. apply IH. apply counter_call; exact Hw.
Qed.

Lemma scrollers_lifecycle (w : World) (i : nat)
    (c : Completion (Global * Scroller)) :
  scrollers (stateOf (lifecycle w i c)) i = snd (stateOf c).
Proof.
  destruct c as [[g s] | [g s]]; cbn [lifecycle stateOf scrollers snd];
    unfold setScroller; rewrite Nat.eqb_refl; reflexivity.
Qed.

(** After [remove], however it ends, the flag is [false]. *)
Lemma enabled_after_remove (env : Env) (g : Global) (s : Scroller) :
  enabled_ (snd (stateOf (remove env (g, s)))) = Some false.
Proof.
  unfold remove. destruct (looseEq (enabled_ s) false) eqn:Hl.
  - assert (Hs : enabled_ s = Some false).
    { unfold looseEq in Hl. destruct (enabled_ s) as [[ | ] | ];
        try discriminate; reflexivity. }
    rewrite enable_same by exact Hs. exact Hs.
  - destruct (enable_counter env false g s) as [_ H]. apply H; exact Hl.
Qed.

(** C10: [enable(b)] on an instance whose flag is already [b] returns with
    the shared state and the instance as they were: the counter, the
    stylesheet, the frame styles, the listeners and the scrollbar node are
    untouched.  However a first [remove] ends, a second one right after it is
    such a call, so the two together take at most one off the counter; and
    the counter, which starts at 0, is never negative after any history of
    calls and events on any instances. *)
Theorem enable_idempotent_counter_floor :
  (forall (env : Env) (aEnabled : bool) (g : Global) (s : Scroller),
      enabled_ s = Some aEnabled ->
      enable env aEnabled (g, s) = Normal (g, s))
  /\ (forall (env : Env) (g : Global) (s : Scroller),
        let once := stateOf (remove env (g, s)) in
        remove env once = Normal once
        /\ ((0 <= instancesCount_ g)%Z ->
            (instancesCount_ g - 1 <= instancesCount_ (fst once)
             <= instancesCount_ g)%Z))
  /\ (forall history : list Step,
        (0 <= instancesCount_ (global (run history initialWorld)))%Z).
Proof.
  split; [exact enable_same | split].
  - intros env g s once. split.
    + pose proof (enabled_after_remove env g s) as H. fold once in H.
      destruct once as [g1 s1]. apply enable_same. exact H.
    + intros Hg. subst once. unfold remove.
      destruct (enable_counter env false g s) as [H _]. rewrite H.
      destruct (looseEq (enabled_ s) false); lia.
  - intros history. apply counter_run. simpl. lia.
Qed.

Lemma enable_idempotent_counter_floor_witness :
  enable page true
    (global attachedWorld, scrollers attachedWorld 0%nat)
  = Normal (global attachedWorld, scrollers attachedWorld 0%nat).
Proof.
  destruct enable_idempotent_counter_floor as (H & _).
  apply H.
  change (scrollers attachedWorld 0%nat)
    with (scrollers
            (stateOf
               (lifecycle initialWorld 0%nat
                  (add page 7%nat (global initialWorld, newScroller))))
            0%nat).
  rewrite scrollers_lifecycle.
  unfold add, setElement, setFrameElement.
  apply enable_counter. reflexivity.
Defined.

(** ** A fling, step by step *)

Lemma attached_keeps (e f : Size) (el : ElemId) (g : Scroller -> Scroller)
    (s : Scroller) :
  keepsAttachment g -> attached e f el s -> attached e f el (g s).
Proof.
  intros Hg (H1 & H2 & H3 & H4).
  destruct (Hg s) as (G1 & G2 & G3 & G4 & _ & _).
  unfold attached, listening. rewrite G1, G2, G3, G4.
  repeat split; assumption.
Qed.

Lemma keepsAttachment_animateTo (e f : Size) (y : number) (b : bool) :
  keepsAttachment (animateTo e f y b).
Proof.
  intros s. unfold animateTo; cbv zeta. destruct b; cbn [negb];
    repeat split; by_cases.
Qed.

Lemma keepsAttachment_setScrollTop (e f : Size) (a : number) :
  keepsAttachment (setScrollTop e f a).
Proof. intros s. apply keepsAttachment_animateTo. Qed.

Lemma keepsAttachment_onTouchStart (e f : Size) (aEvent : TouchEvent)
    (live : LiveMatrices) :
  keepsAttachment (fun s => fst (onTouchStart e f aEvent live s)).
Proof.
  intros s. unfold onTouchStart, stopMomentum, showScrollBar, animateTo;
    cbv zeta. cbn [fst negb].
  repeat split; by_cases.
Qed.

Lemma keepsAttachment_onTouchMove (e f : Size) (aEvent : TouchEvent) :
  keepsAttachment (onTouchMove e f aEvent).
Proof.
  intros s. unfold onTouchMove, isDragging.
  destruct (isDragging_ s);
    [ | match goal with
        | |- context [if ?c then _ else _] => destruct c
        end ];
    cbv zeta; try (repeat split; reflexivity);
    match goal with
    | |- context [animateTo e f ?y false ?s2] =>
        destruct (keepsAttachment_animateTo e f y false s2)
          as (G1 & G2 & G3 & G4 & G5 & G6)
    end;
    rewrite G1, G2, G3, G4, G5, G6; repeat split; reflexivity.
Qed.

Lemma keepsAttachment_snapToBounds (e f : Size) :
  keepsAttachment (snapToBounds e f).
Proof.
  intros s. unfold snapToBounds; cbv zeta. repeat split; by_cases.
Qed.

Lemma keepsAttachment_setUpTransitionStage1 (e f : Size) :
  keepsAttachment (setUpTransitionStage1 e f).
Proof.
  intros s. unfold setUpTransitionStage1; cbv zeta.
  destruct (gtb (getEndVelocity s) (Fin 0)); repeat split; reflexivity.
Qed.

Lemma keepsAttachment_doMomentum (e f : Size) :
  keepsAttachment (doMomentum e f).
Proof.
  intros s. unfold doMomentum, showScrollBarDelayed; cbv zeta.
  destruct (negb (eqb (getEndVelocity s) (Fin 0)));
    [ | repeat split; reflexivity].
  match goal with
  | |- context [if ?c then _ else _] => destruct c
  end; fields.
  - apply keepsAttachment_setUpTransitionStage1.
  - repeat split; reflexivity.
Qed.

Lemma keepsAttachment_onTouchEnd (e f : Size) (target : Element) :
  keepsAttachment (fun s => fst (onTouchEnd e f target s)).
Proof.
  intros s. unfold onTouchEnd.
  assert (Hd : keepsAttachment (fun s => snd (isDragging s))).
  { intros s0. unfold isDragging. destruct (isDragging_ s0);
      repeat split; reflexivity. }
  destruct (Hd s) as (D1 & D2 & D3 & D4 & D5 & D6).
  destruct (isDragging s) as [dragging s1];
    cbn [snd] in D1, D2, D3, D4, D5, D6.
  rewrite <- D1, <- D2, <- D3, <- D4, <- D5, <- D6.
  match goal with
  | |- context [let '(s, fx) := if ?c then _ else _ in _] => destruct c
  end; cbn [fst]; fields;
    (destruct dragging; [destruct (shouldStartMomentum e f s1) | ];
     [ apply keepsAttachment_doMomentum
     | apply keepsAttachment_snapToBounds
     | repeat split; reflexivity ]).
Qed.

(** An event reaching an attached instance runs its handler on the measured
    sizes. *)
Lemma scrollers_handled (w : World) (i : nat)
    (g : Size -> Size -> Scroller -> Scroller) (e f : Size) (el : ElemId) :
  attached e f el (scrollers w i) ->
  scrollers (stateOf (motion w i (handle g (scrollers w i)))) i
  = g e f (scrollers w i).
Proof.
  intros (_ & He & Hf & Hl). unfold motion. rewrite scrollers_lifecycle.
  unfold handle, measured. rewrite Hl, He, Hf. reflexivity.
Qed.

Lemma scrollers_measured (w : World) (i : nat)
    (g : Size -> Size -> Scroller -> Scroller) (e f : Size) (el : ElemId) :
  attached e f el (scrollers w i) ->
  scrollers (stateOf (motion w i (measured g (scrollers w i)))) i
  = g e f (scrollers w i).
Proof.
  intros (_ & He & Hf & _). unfold motion. rewrite scrollers_lifecycle.
  unfold measured. rewrite He, Hf. reflexivity.
Qed.

Lemma keepsAttachment_animateWithinBounds (e f : Size) (y : number) :
  keepsAttachment (animateWithinBounds e f y).
Proof. intros s. apply keepsAttachment_animateTo. Qed.

(** [enable(true)] on an instance that has its elements and is not enabled
    yet: nothing throws, and the instance is as [animateWithinBounds] leaves
    it on the sizes just measured, with a listener more. *)
Lemma enable_true_attaches (env : Env) (g : Global) (s : Scroller)
    (fr el : ElemId) :
  frameElement s = Some fr -> element s = Some el ->
  looseEq (enabled_ s) true = false ->
  exists g',
    enable env true (g, s)
    = Normal
        (g',
         set_scrollBarParent (Some fr)
           (set_lineTransform
              (ScaleY (getScrollBarLineHeight (getSize env el)
                         (getSize env fr)))
              (animateWithinBounds (getSize env el) (getSize env fr)
                 (contentOffsetY s)
                 (set_listeners (el :: listeners s)
                    (set_frameElementSize (Some (getSize env fr))
                       (set_elementSize (Some (getSize env el))
                          (set_frameElementComputedStyle (Some fr)
                             (set_enabled_ (Some true) s)))))))).
Proof.
  intros Hfr Hel Hl. unfold enable, isEnabled. rewrite Hl. cbv zeta.
  unfold setUpStyles. fields. rewrite Hfr. cbn [andThen].
  unfold calculateSizes. fields. rewrite Hel, Hfr. cbn [onScroller andThen].
  unfold enterDocument. fields. rewrite Hel. cbn [onScroller andThen].
  unfold measured at 1. fields. cbn [onScroller andThen].
  unfold measured.
  set (s1 := set_listeners (el :: listeners s)
               (set_frameElementSize (Some (getSize env fr))
                  (set_elementSize (Some (getSize env el))
                     (set_frameElementComputedStyle (Some fr)
                        (set_enabled_ (Some true) s))))).
  destruct (keepsAttachment_animateWithinBounds (getSize env el)
              (getSize env fr) (contentOffsetY s) s1) as (_ & G2 & G3 & _ & _ & _).
  rewrite G2, G3. subst s1. fields. cbn [onScroller andThen]. fields.
  set (s1 := set_listeners (el :: listeners s)
               (set_frameElementSize (Some (getSize env fr))
                  (set_elementSize (Some (getSize env el))
                     (set_frameElementComputedStyle (Some fr)
                        (set_enabled_ (Some true) s))))).
  destruct (keepsAttachment_animateWithinBounds (getSize env el)
              (getSize env fr) (contentOffsetY s) s1) as (_ & _ & _ & _ & _ & _).
  replace (frameElement
             (animateWithinBounds (getSize env el) (getSize env fr)
                (contentOffsetY s) s1)) with (Some fr).
  - eexists. reflexivity.
  - unfold animateWithinBounds, animateTo; cbv zeta. cbn [negb].
    subst s1. rewrite <- Hfr. by_cases.
Qed.

Lemma step_measured (w : World) (env : Env) (i : nat) (e f : Size)
    (el : ElemId) (a : number) :
  attached e f el (scrollers w i) ->
  scrollers (step w (env, i, CallSetScrollTop a)) i
  = setScrollTop e f a (scrollers w i).
Proof.
  intros H. cbn [step call]. cbv zeta.
  apply (scrollers_measured w i (fun e f => setScrollTop e f a) e f el H).
Qed.

Lemma step_TouchStart (w : World) (env : Env) (i : nat) (e f : Size)
    (el : ElemId) (aEvent : TouchEvent) (live : LiveMatrices) :
  attached e f el (scrollers w i) ->
  scrollers (step w (env, i, TouchStart aEvent live)) i
  = fst (onTouchStart e f aEvent live (scrollers w i)).
Proof.
  intros H. cbn [step call]. cbv zeta.
  apply (scrollers_handled w i
           (fun e f s => fst (onTouchStart e f aEvent live s)) e f el H).
Qed.

Lemma step_TouchMove (w : World) (env : Env) (i : nat) (e f : Size)
    (el : ElemId) (aEvent : TouchEvent) :
  attached e f el (scrollers w i) ->
  scrollers (step w (env, i, TouchMove aEvent)) i
  = onTouchMove e f aEvent (scrollers w i).
Proof.
  intros H. cbn [step call]. cbv zeta.
  apply (scrollers_handled w i (fun e f => onTouchMove e f aEvent) e f el H).
Qed.

Lemma step_TouchEnd (w : World) (env : Env) (i : nat) (e f : Size)
    (el : ElemId) (target : Element) :
  attached e f el (scrollers w i) ->
  scrollers (step w (env, i, TouchEnd target)) i
  = fst (onTouchEnd e f target (scrollers w i)).
Proof.
  intros H. cbn [step call]. cbv zeta.
  apply (scrollers_handled w i
           (fun e f s => fst (onTouchEnd e f target s)) e f el H).
Qed.

Lemma step_TransitionEnd (w : World) (env : Env) (i : nat) (e f : Size)
    (el : ElemId) (target : ElemId) :
  attached e f el (scrollers w i) ->
  scrollers (step w (env, i, TransitionEnd target)) i
  = onTransitionEnd e f target (scrollers w i).
Proof.
  intros H. cbn [step call]. cbv zeta.
  apply (scrollers_handled w i (fun e f => onTransitionEnd e f target)
           e f el H).
Qed.

(** Instance 0 of [attachedWorld]: attached to the 300/900 geometry, at rest
    at the top. *)
Lemma attachedWorld_state :
  attached content900 frame300 1%nat (scrollers attachedWorld 0%nat)
  /\ contentOffsetY (scrollers attachedWorld 0%nat) = Fin 0
  /\ isDecelerating_ (scrollers attachedWorld 0%nat) = false
  /\ queuedTransitionStage_ (scrollers attachedWorld 0%nat) = NONE.
Proof.
  change (scrollers attachedWorld 0%nat)
    with (scrollers
            (stateOf
               (lifecycle initialWorld 0%nat
                  (add page 7%nat (global initialWorld, newScroller))))
            0%nat).
  rewrite scrollers_lifecycle. unfold add, setElement, setFrameElement.
  cbv beta iota zeta.
  change (getFirstElementChild page 7%nat) with 1%nat.
  match goal with
  | |- context [enable page true (?g0, ?s0)] =>
      destruct (enable_true_attaches page g0 s0 7%nat 1%nat
                  eq_refl eq_refl eq_refl) as [g' ->]
  end.
  cbn [stateOf snd].
  change (getSize page 1%nat) with content900.
  change (getSize page 7%nat) with frame300.
  match goal with
  | |- context [animateWithinBounds content900 frame300 ?y ?s1] =>
      set (s := s1);
      change y with (Fin 0);
      destruct (keepsAttachment_animateWithinBounds content900 frame300
                  (Fin 0) s) as (A1 & A2 & A3 & A4 & _ & _);
      destruct (keepsStage_animateWithinBounds content900 frame300 (Fin 0) s)
        as (K1 & K2);
      pose proof (contentOffsetY_animateWithinBounds content900 frame300
                    (Fin 0) s) as Hoff
  end.
  unfold attached, listening. fields.
  rewrite A1, A2, A3, A4, K1, K2, Hoff.
  repeat split.
  rewrite getLowestContentPosition_900_300.
  unfold gtb, ltb, Rltb; rdec; reflexivity.
Qed.

(** Momentum upwards that would pass the top bound: stage 1 moves the
    content to the bound and keeps the velocity it has left there. *)
Lemma setUpTransitionStage1_up (e f : Size) (s : Scroller) (v y : R) :
  getEndVelocity s = Fin v -> 0 < v -> contentOffsetY s = Fin y ->
  0 <= v * v + - y * 2 * - (5 / 10000) ->
  contentOffsetY (setUpTransitionStage1 e f s) = Fin 0
  /\ endMomentumVelocity_ (setUpTransitionStage1 e f s)
     = Fin (R_sqrt.sqrt (v * v + - y * 2 * - (5 / 10000)))
  /\ queuedTransitionStage_ (setUpTransitionStage1 e f s) = TO_BOUNDS
  /\ isDecelerating_ (setUpTransitionStage1 e f s) = isDecelerating_ s.
Proof.
  intros Hv Hpos Hy Hrad. unfold setUpTransitionStage1; cbv zeta.
  rewrite Hv, getAcceleration_Fin.
  replace (gtb (Fin v) (Fin 0)) with true
    by (symmetry; apply ltb_Fin; exact Hpos).
  replace (ltb (Fin v) (Fin 0)) with false
    by (symmetry; apply ltb_Fin_false; lra).
  destruct (Rlt_dec v 0) as [Hneg | _]; [lra | ].
  fields. rewrite Hy.
  repeat split.
  unfold getEndMomentumVelocity, ACCELERATION_SLIDING. simpl.
  destruct (Rlt_dec (v * v + - y * 2 * - (5 / 10000)) 0); [lra | ].
  simpl. f_equal. lra.
Qed.

Lemma doMomentum_out_of_bounds (e f : Size) (s : Scroller) (v y : R) :
  getEndVelocity s = Fin v -> v <> 0 -> contentOffsetY s = Fin y ->
  positionIsOutOfBounds e f
    (Fin (y + (if Rlt_dec v 0 then - (1000 * (v * v)) else 1000 * (v * v))))
  = true ->
  doMomentum e f s = set_isDecelerating_ true (setUpTransitionStage1 e f s).
Proof.
  intros Hv Hv0 Hy Hout. unfold doMomentum; cbv zeta.
  rewrite Hv, sliding_displacement_Fin, Hy.
  replace (eqb (Fin v) (Fin 0)) with false
    by (symmetry; unfold eqb, Reqb; rdec; reflexivity).
  cbn [negb]. cbn [JsNum.add]. rewrite Hout. reflexivity.
Qed.

(** What a touch end leaves of the motion it starts, in a drag. *)
Lemma onTouchEnd_motion (e f : Size) (target : Element) (s : Scroller) :
  isDragging_ s = true ->
  let s1 := if shouldStartMomentum e f s then doMomentum e f s
            else snapToBounds e f s in
  let s' := fst (onTouchEnd e f target s) in
  contentOffsetY s' = contentOffsetY s1
  /\ queuedTransitionStage_ s' = queuedTransitionStage_ s1
  /\ isDecelerating_ s' = isDecelerating_ s1
  /\ endMomentumVelocity_ s' = endMomentumVelocity_ s1.
Proof.
  intros Hd. unfold onTouchEnd, isDragging. rewrite Hd. cbv zeta.
  match goal with
  | |- context [if ?c then (_, _) else _] => destruct c
  end; repeat split; reflexivity.
Qed.

Lemma stageInv_NONE (s : Scroller) :
  queuedTransitionStage_ s = NONE -> stageInv s.
Proof. intros H Hne. contradiction. Qed.

Lemma attachedWorld_steps :
  attachedWorld = step initialWorld (page, 0%nat, CallAdd 7%nat).
Proof. unfold attachedWorld, run. cbn [fold_left]. reflexivity. Qed.

Lemma flungWorld_steps :
  flungWorld
  = step
      (step
         (step
            (step attachedWorld (page, 0%nat, CallSetScrollTop (Fin 50)))
            (page, 0%nat, TouchStart touchDown liveAtRest))
         (page, 0%nat, TouchMove touchDown30))
      (page, 0%nat, TouchEnd linkElement).
Proof.
  rewrite attachedWorld_steps. unfold flungWorld, flingHistory, run.
  cbn [fold_left]. reflexivity.
Qed.

Lemma setScrollTop_50 (s : Scroller) :
  contentOffsetY (setScrollTop content900 frame300 (Fin 50) s) = Fin (- 50).
Proof.
  unfold setScrollTop.
  rewrite contentOffsetY_animateWithinBounds,
    getLowestContentPosition_900_300.
  replace (eqb (Fin 50) (Fin 0)) with false
    by (symmetry; unfold eqb, Reqb; rdec; reflexivity).
  cbn [isNaN orb neg].
  unfold gtb, ltb, Rltb; rdec; reflexivity.
Qed.

Lemma fling_passes_top :
  positionIsOutOfBounds content900 frame300
    (Fin (- 20
          + (if Rlt_dec (35 / 10) 0 then - (1000 * (35 / 10 * (35 / 10)))
             else 1000 * (35 / 10 * (35 / 10)))))
  = true.
Proof.
  unfold positionIsOutOfBounds, gtb, ltb, Rltb.
  destruct (Rlt_dec (35 / 10) 0); [lra | ].
  rdec; reflexivity.
Qed.

(** The fling on one instance: the touch start on content resting at -50,
    the move down by 30 within 5 ms, the touch end. *)
Lemma fling_onTouchStart (s : Scroller) :
  isDecelerating_ s = false -> queuedTransitionStage_ s = NONE ->
  contentOffsetY s = Fin (- 50) ->
  let s' := fst (onTouchStart content900 frame300 touchDown liveAtRest s) in
  isDragging_ s' = true
  /\ startTouchY s' = Fin 100
  /\ currentPoint_ s' = Fin 100
  /\ currentMoment_ s' = Fin 0
  /\ contentStartOffsetY s' = Fin (- 50)
  /\ contentOffsetY s' = Fin (- 50)
  /\ queuedTransitionStage_ s' = NONE.
Proof.
  intros D Q O. cbv zeta.
  destruct (onTouchStart_fields content900 frame300 touchDown liveAtRest s)
    as (G3 & _ & Y3 & _ & _ & P3 & _ & T3).
  destruct (onTouchStart_after_stopMomentum content900 frame300 touchDown
              liveAtRest s) as (Q3 & _ & C3 & S3 & _).
  destruct (stopMomentum_collapses content900 frame300 liveAtRest s
              (stageInv_NONE _ Q)) as (Q3' & _).
  pose proof (contentOffsetY_onTouchStart_idle content900 frame300 touchDown
                liveAtRest s D) as O3.
  rewrite <- C3, O3, O in S3. rewrite O in O3. rewrite Q3' in Q3.
  repeat split; assumption.
Qed.

Lemma fling_onTouchMove (s : Scroller) :
  isDragging_ s = true -> startTouchY s = Fin 100 ->
  currentPoint_ s = Fin 100 -> currentMoment_ s = Fin 0 ->
  contentStartOffsetY s = Fin (- 50) -> contentOffsetY s = Fin (- 50) ->
  queuedTransitionStage_ s = NONE ->
  let s' := onTouchMove content900 frame300 touchDown30 s in
  isDragging_ s' = true
  /\ previousPoint_ s' = Fin 100 /\ previousMoment_ s' = Fin 0
  /\ currentPoint_ s' = Fin 130 /\ currentMoment_ s' = Fin 5
  /\ contentOffsetY s' = Fin (- 20)
  /\ queuedTransitionStage_ s' = NONE.
Proof.
  intros G Y P T S O Q. cbv zeta.
  destruct (onTouchMove_fields content900 frame300 touchDown30 s G)
    as (G4 & _ & _ & _ & P40 & T40 & P41 & T41).
  destruct (keepsStage_onTouchMove content900 frame300 touchDown30 s)
    as (Q4 & _).
  pose proof (contentOffsetY_onTouchMove content900 frame300 touchDown30
                s 100 130 (- 50) G Y eq_refl S) as O4.
  unfold isOutOfBounds in O4.
  rewrite O, restingAt_in_bounds in O4 by lra.
  rewrite P in P40. rewrite T in T40. rewrite Q in Q4.
  repeat split; try assumption.
  rewrite O4. f_equal. lra.
Qed.

Lemma fling_onTouchEnd (s : Scroller) :
  isDragging_ s = true ->
  previousPoint_ s = Fin 100 -> previousMoment_ s = Fin 0 ->
  currentPoint_ s = Fin 130 -> currentMoment_ s = Fin 5 ->
  contentOffsetY s = Fin (- 20) ->
  let s' := fst (onTouchEnd content900 frame300 linkElement s) in
  queuedTransitionStage_ s' = TO_BOUNDS
  /\ isDecelerating_ s' = true
  /\ contentOffsetY s' = Fin 0
  /\ endMomentumVelocity_ s' = Fin (R_sqrt.sqrt (1223 / 100)).
Proof.
  intros G P0 T0 P1 T1 O. cbv zeta.
  destruct (onTouchEnd_motion content900 frame300 linkElement s G)
    as (M1 & M2 & M3 & M4).
  rewrite M1, M2, M3, M4. clear M1 M2 M3 M4.
  assert (Hv : getEndVelocity s = Fin (35 / 10)).
  { destruct (getEndVelocity_samples s 100 0 130 5 P0 T0 P1 T1)
      as (_ & _ & _ & _ & H5 & _).
    apply H5; try lra.
    replace ((130 - 100) / (5 - 0)) with 6 by lra.
    rewrite Rabs_pos_eq; lra. }
  assert (Hin : shouldStartMomentum content900 frame300 s = true).
  { unfold shouldStartMomentum, isOutOfBounds.
    rewrite O, restingAt_in_bounds by lra. reflexivity. }
  rewrite Hin.
  rewrite (doMomentum_out_of_bounds content900 frame300 s (35 / 10) (- 20));
    try assumption; try lra.
  - destruct (setUpTransitionStage1_up content900 frame300 s (35 / 10)
                (- 20)) as (S1 & S2 & S3 & _);
      try assumption; try lra.
    fields. rewrite S1, S2, S3. repeat split.
    do 2 f_equal. lra.
  - apply fling_passes_top.
Qed.

(** The same steps on the page. *)
Lemma page_setScrollTop_50 (w : World) :
  attached content900 frame300 1%nat (scrollers w 0%nat) ->
  isDecelerating_ (scrollers w 0%nat) = false ->
  queuedTransitionStage_ (scrollers w 0%nat) = NONE ->
  let s' := scrollers (step w (page, 0%nat, CallSetScrollTop (Fin 50)))
              0%nat in
  attached content900 frame300 1%nat s'
  /\ isDecelerating_ s' = false
  /\ queuedTransitionStage_ s' = NONE
  /\ contentOffsetY s' = Fin (- 50).
Proof.
  intros A D Q. cbv zeta.
  rewrite (step_measured w page 0%nat _ _ _ (Fin 50) A).
  destruct (keepsStage_setScrollTop content900 frame300 (Fin 50)
              (scrollers w 0%nat)) as (Q2 & D2).
  rewrite Q2, D2, setScrollTop_50.
  split; [ | repeat split; assumption].
  apply attached_keeps; [apply keepsAttachment_setScrollTop | exact A].
Qed.

Lemma page_TouchStart (w : World) :
  attached content900 frame300 1%nat (scrollers w 0%nat) ->
  isDecelerating_ (scrollers w 0%nat) = false ->
  queuedTransitionStage_ (scrollers w 0%nat) = NONE ->
  contentOffsetY (scrollers w 0%nat) = Fin (- 50) ->
  let s' := scrollers (step w (page, 0%nat, TouchStart touchDown liveAtRest))
              0%nat in
  attached content900 frame300 1%nat s'
  /\ isDragging_ s' = true
  /\ startTouchY s' = Fin 100
  /\ currentPoint_ s' = Fin 100
  /\ currentMoment_ s' = Fin 0
  /\ contentStartOffsetY s' = Fin (- 50)
  /\ contentOffsetY s' = Fin (- 50)
  /\ queuedTransitionStage_ s' = NONE.
Proof.
  intros A D Q O. cbv zeta.
  rewrite (step_TouchStart w page 0%nat _ _ _ touchDown liveAtRest A).
  split; [ | apply fling_onTouchStart; assumption].
  apply (attached_keeps _ _ _
           (fun s => fst (onTouchStart content900 frame300 touchDown
                            liveAtRest s)));
    [apply keepsAttachment_onTouchStart | exact A].
Qed.

Lemma page_TouchMove (w : World) :
  attached content900 frame300 1%nat (scrollers w 0%nat) ->
  isDragging_ (scrollers w 0%nat) = true ->
  startTouchY (scrollers w 0%nat) = Fin 100 ->
  currentPoint_ (scrollers w 0%nat) = Fin 100 ->
  currentMoment_ (scrollers w 0%nat) = Fin 0 ->
  contentStartOffsetY (scrollers w 0%nat) = Fin (- 50) ->
  contentOffsetY (scrollers w 0%nat) = Fin (- 50) ->
  queuedTransitionStage_ (scrollers w 0%nat) = NONE ->
  let s' := scrollers (step w (page, 0%nat, TouchMove touchDown30)) 0%nat in
  attached content900 frame300 1%nat s'
  /\ isDragging_ s' = true
  /\ previousPoint_ s' = Fin 100 /\ previousMoment_ s' = Fin 0
  /\ currentPoint_ s' = Fin 130 /\ currentMoment_ s' = Fin 5
  /\ contentOffsetY s' = Fin (- 20)
  /\ queuedTransitionStage_ s' = NONE.
Proof.
  intros A G Y P T S O Q. cbv zeta.
  rewrite (step_TouchMove w page 0%nat _ _ _ touchDown30 A).
  split; [ | apply fling_onTouchMove; assumption].
  apply attached_keeps; [apply keepsAttachment_onTouchMove | exact A].
Qed.

Lemma page_TouchEnd (w : World) :
  attached content900 frame300 1%nat (scrollers w 0%nat) ->
  isDragging_ (scrollers w 0%nat) = true ->
  previousPoint_ (scrollers w 0%nat) = Fin 100 ->
  previousMoment_ (scrollers w 0%nat) = Fin 0 ->
  currentPoint_ (scrollers w 0%nat) = Fin 130 ->
  currentMoment_ (scrollers w 0%nat) = Fin 5 ->
  contentOffsetY (scrollers w 0%nat) = Fin (- 20) ->
  let s' := scrollers (step w (page, 0%nat, TouchEnd linkElement)) 0%nat in
  attached content900 frame300 1%nat s'
  /\ queuedTransitionStage_ s' = TO_BOUNDS
  /\ isDecelerating_ s' = true
  /\ contentOffsetY s' = Fin 0
  /\ endMomentumVelocity_ s' = Fin (R_sqrt.sqrt (1223 / 100)).
Proof.
  intros A G P0 T0 P1 T1 O. cbv zeta.
  rewrite (step_TouchEnd w page 0%nat _ _ _ linkElement A).
  split; [ | apply fling_onTouchEnd; assumption].
  apply (attached_keeps _ _ _
           (fun s => fst (onTouchEnd content900 frame300 linkElement s)));
    [apply keepsAttachment_onTouchEnd | exact A].
Qed.

(** Instance 0 of [flungWorld]: the fling has reached stage [TO_BOUNDS], the
    content is planned at the top bound and the velocity left there is
    pending. *)
Lemma flungWorld_state :
  attached content900 frame300 1%nat (scrollers flungWorld 0%nat)
  /\ queuedTransitionStage_ (scrollers flungWorld 0%nat) = TO_BOUNDS
  /\ isDecelerating_ (scrollers flungWorld 0%nat) = true
  /\ contentOffsetY (scrollers flungWorld 0%nat) = Fin 0
  /\ endMomentumVelocity_ (scrollers flungWorld 0%nat)
     = Fin (R_sqrt.sqrt (1223 / 100)).
Proof.
  rewrite flungWorld_steps.
  destruct attachedWorld_state as (A1 & _ & D1 & Q1).
  destruct (page_setScrollTop_50 _ A1 D1 Q1) as (A2 & D2 & Q2 & O2).
  destruct (page_TouchStart _ A2 D2 Q2 O2)
    as (A3 & G3 & Y3 & P3 & T3 & S3 & O3 & Q3).
  destruct (page_TouchMove _ A3 G3 Y3 P3 T3 S3 O3 Q3)
    as (A4 & G4 & P40 & T40 & P41 & T41 & O4 & _).
  exact (page_TouchEnd _ A4 G4 P40 T40 P41 T41 O4).
Qed.

Lemma overshootDisplacement_fling :
  overshootDisplacement (Fin (R_sqrt.sqrt (1223 / 100))) = Fin 100.
Proof.
  rewrite overshootDisplacement_Fin.
  pose proof (sqrt_pos (1223 / 100)) as Hpos.
  assert (Hsq : R_sqrt.sqrt (1223 / 100) * R_sqrt.sqrt (1223 / 100)
                = 1223 / 100) by (apply sqrt_sqrt; lra).
  destruct (Rlt_dec (R_sqrt.sqrt (1223 / 100)) 0); [lra | ].
  rewrite Hsq. f_equal. unfold Rmin.
  destruct (Rle_dec 100 (100 * (1223 / 100))); lra.
Qed.

(** The transition to the bound finishes: the bounce-out stage. *)
Lemma fling_onTransitionEnd (s : Scroller) :
  element s = Some 1%nat -> queuedTransitionStage_ s = TO_BOUNDS ->
  endMomentumVelocity_ s = Fin (R_sqrt.sqrt (1223 / 100)) ->
  let s' := onTransitionEnd content900 frame300 1%nat s in
  lineTransform s' = ScaleY (Fin 0)
  /\ queuedTransitionStage_ s' = BOUNCED_OUT.
Proof.
  intros El Q V. cbv zeta. unfold onTransitionEnd, targetIsElement.
  rewrite El, Q. cbn [Nat.eqb negb].
  rewrite lineTransform_setUpTransitionStage2, V,
    getScrollBarLineHeight_900_300, overshootDisplacement_fling.
  split.
  - cbn [abs sub neg JsNum.add]. rewrite Rabs_pos_eq by lra.
    do 2 f_equal. lra.
  - unfold setUpTransitionStage2; cbv zeta. by_cases.
Qed.

Lemma bouncedOutWorld_steps :
  bouncedOutWorld = step flungWorld (page, 0%nat, TransitionEnd 1%nat).
Proof.
  unfold bouncedOutWorld, flungWorld, run. rewrite fold_left_app.
  reflexivity.
Qed.

Lemma reachable_bouncedOutWorld : reachable bouncedOutWorld.
Proof.
  exists (flingHistory ++ [(page, 0%nat, TransitionEnd 1%nat)]).
  reflexivity.
Qed.

Lemma bouncedOutWorld_line :
  lineTransform (scrollers bouncedOutWorld 0%nat) = ScaleY (Fin 0)
  /\ queuedTransitionStage_ (scrollers bouncedOutWorld 0%nat) = BOUNCED_OUT.
Proof.
  rewrite bouncedOutWorld_steps.
  destruct flungWorld_state as (A & Q & _ & _ & V).
  rewrite (step_TransitionEnd flungWorld page 0%nat _ _ _ 1%nat A).
  destruct A as (El & _).
  exact (fling_onTransitionEnd _ El Q V).
Qed.

(** C9 fails on the code: the bounce-out stage applies the reduced line
    height without the lower bound that [animateTo] applies to it.  On the
    300/900 geometry (line height 100), attach, scroll to scroll top 50, drag
    down by 30 within 5 ms and lift: the fling reaches the top bound with a
    velocity that plans the full overshoot of 100, and when the transition
    to the bound finishes the handler sets [scaleY(0)] on the scrollbar
    line, below [SCROLLBAR_MIN_HEIGHT]. *)
Theorem bounce_out_line_below_minimum :
  reachable bouncedOutWorld
  /\ queuedTransitionStage_ (scrollers bouncedOutWorld 0%nat) = BOUNCED_OUT
  /\ lineTransform (scrollers bouncedOutWorld 0%nat) = ScaleY (Fin 0)
  /\ ltb (Fin 0) SCROLLBAR_MIN_HEIGHT = true.
Proof.
  destruct bouncedOutWorld_line as (L & Q).
  split; [exact reachable_bouncedOutWorld | ].
  split; [exact Q | split; [exact L | ]].
  apply ltb_Fin. lra.
Qed.

Lemma onTouchStart_collapses_stage_witness :
  queuedTransitionStage_ (scrollers flungWorld 0%nat) = TO_BOUNDS
  /\ queuedTransitionStage_
       (fst (onTouchStart content900 frame300 touchDown liveAtRest
               (scrollers flungWorld 0%nat)))
     = NONE.
Proof.
  split; [apply flungWorld_state | ].
  apply (onTouchStart_collapses_stage flungWorld 0%nat content900 frame300
           touchDown liveAtRest).
  exists flingHistory. reflexivity.
Defined.

(** ** Handlers run on what is defined *)

Lemma allDefined_keeps (g : Scroller -> Scroller) (s : Scroller) :
  keepsAttachment g -> allDefined s -> allDefined (g s).
Proof.
  intros Hg Hs. destruct (Hg s) as (G1 & G2 & G3 & G4 & G5 & G6).
  unfold allDefined. rewrite G1, G2, G3, G5, G6. exact Hs.
Qed.

Lemma attachedInv_keeps (g : Scroller -> Scroller) (s : Scroller) :
  keepsAttachment g -> attachedInv s -> attachedInv (g s).
Proof.
  intros Hg Hs Hl. apply allDefined_keeps; [exact Hg | ].
  apply Hs. destruct (Hg s) as (_ & _ & _ & G4 & _ & _).
  unfold listening in *. rewrite <- G4. exact Hl.
Qed.

Lemma keepsAttachment_showScrollBar (b : bool) :
  keepsAttachment (showScrollBar b).
Proof.
  intros s. unfold showScrollBar; cbv zeta. destruct b; repeat split;
    reflexivity.
Qed.

Lemma keepsAttachment_onScrollBarTimeout : keepsAttachment onScrollBarTimeout.
Proof.
  intros s. unfold onScrollBarTimeout.
  destruct (scrollBarShowTimeout_ s); [apply keepsAttachment_showScrollBar | ].
  repeat split; reflexivity.
Qed.

Lemma keepsAttachment_setUpTransitionStage2 (e f : Size) :
  keepsAttachment (setUpTransitionStage2 e f).
Proof.
  intros s. unfold setUpTransitionStage2; cbv zeta. repeat split; by_cases.
Qed.

(** One function after another. *)
Lemma keepsAttachment_after (g h : Scroller -> Scroller) :
  keepsAttachment g -> keepsAttachment h ->
  keepsAttachment (fun s => h (g s)).
Proof.
  intros Hg Hh s.
  destruct (Hg s) as (G1 & G2 & G3 & G4 & G5 & G6).
  destruct (Hh (g s)) as (H1 & H2 & H3 & H4 & H5 & H6).
  repeat split; etransitivity; eassumption.
Qed.

Lemma keepsAttachment_set_queuedTransitionStage_
    (v : QUEUED_TRANSITION_STAGE) :
  keepsAttachment (set_queuedTransitionStage_ v).
Proof. intros s. repeat split; reflexivity. Qed.

Lemma keepsAttachment_setUpTransitionStage3 (e f : Size) :
  keepsAttachment (setUpTransitionStage3 e f).
Proof.
  exact (keepsAttachment_after (snapToBounds e f)
           (set_queuedTransitionStage_ BOUNCED_BACK)
           (keepsAttachment_snapToBounds e f)
           (keepsAttachment_set_queuedTransitionStage_ BOUNCED_BACK)).
Qed.

(** What [onTransitionEnd] comes to, case by case. *)
Lemma onTransitionEnd_cases (e f : Size) (target : ElemId) (s : Scroller) :
  onTransitionEnd e f target s = s
  \/ onTransitionEnd e f target s
     = set_isDecelerating_ false
         (showScrollBarDelayed false
            (set_lineTransition TransitionNone
               (set_containerTransition TransitionNone
                  (set_elementTransition TransitionNone s))))
  \/ onTransitionEnd e f target s = setUpTransitionStage2 e f s
  \/ onTransitionEnd e f target s
     = set_queuedTransitionStage_ BOUNCED_BACK (snapToBounds e f s)
  \/ onTransitionEnd e f target s
     = set_isDecelerating_ false
         (showScrollBarDelayed false
            (set_containerTransition TransitionNone
               (set_lineTransition TransitionNone
                  (set_elementTransition TransitionNone
                     (set_queuedTransitionStage_ NONE s))))).
Proof.
  destruct (negb (targetIsElement target s)) eqn:Ht;
    [left; unfold onTransitionEnd; rewrite Ht; reflexivity | right].
  destruct (queuedTransitionStage_ s) eqn:Hq;
    [ left | right; left | right; right; left | right; right; right ];
    unfold onTransitionEnd; rewrite Ht, Hq; reflexivity.
Qed.

Lemma keepsAttachment_onTransitionEnd (e f : Size) (target : ElemId) :
  keepsAttachment (onTransitionEnd e f target).
Proof.
  intros s.
  destruct (onTransitionEnd_cases e f target s)
    as [-> | [-> | [-> | [-> | ->]]]].
  - repeat split; reflexivity.
  - unfold showScrollBarDelayed; cbv zeta; fields. repeat split; reflexivity.
  - exact (keepsAttachment_setUpTransitionStage2 e f s).
  - exact (keepsAttachment_setUpTransitionStage3 e f s).
  - unfold showScrollBarDelayed; cbv zeta; fields. repeat split; reflexivity.
Qed.


Lemma keepsAttachment_resetInternal : keepsAttachment resetInternal.
Proof. intros s. repeat split; reflexivity. Qed.

Lemma keepsAttachment_set_lineTransform (v : Transform) :
  keepsAttachment (set_lineTransform v).
Proof. intros s. repeat split; reflexivity. Qed.

Lemma keepsAttachment_set_scrollBarParent (v : option ElemId) :
  keepsAttachment (set_scrollBarParent v).
Proof. intros s. repeat split; reflexivity. Qed.

Lemma keepsAttachment_set_enabled_ (v : option bool) :
  keepsAttachment (set_enabled_ v).
Proof. intros s. repeat split; reflexivity. Qed.

(** How [enable] ends, case by case. *)
Lemma enable_true_no_frame (env : Env) (g : Global) (s : Scroller) :
  frameElement s = None -> looseEq (enabled_ s) true = false ->
  exists g',
    enable env true (g, s) = Throws (g', set_enabled_ (Some true) s).
Proof.
  intros Hfr Hl. unfold enable, isEnabled. rewrite Hl. cbv zeta.
  unfold setUpStyles. fields. rewrite Hfr. cbn [andThen].
  eexists. reflexivity.
Qed.

Lemma enable_true_no_element (env : Env) (g : Global) (s : Scroller)
    (fr : ElemId) :
  frameElement s = Some fr -> element s = None ->
  looseEq (enabled_ s) true = false ->
  exists g',
    enable env true (g, s)
    = Throws (g', set_frameElementComputedStyle (Some fr)
                    (set_enabled_ (Some true) s)).
Proof.
  intros Hfr Hel Hl. unfold enable, isEnabled. rewrite Hl. cbv zeta.
  unfold setUpStyles. fields. rewrite Hfr. cbn [andThen].
  unfold calculateSizes. fields. rewrite Hel. cbn [onScroller andThen].
  eexists. reflexivity.
Qed.

Lemma enable_false_throws (env : Env) (g : Global) (s : Scroller) :
  frameElement s = None \/ frameElementComputedStyle s = None ->
  looseEq (enabled_ s) false = false ->
  exists g',
    enable env false (g, s)
    = Throws (g', set_scrollBarParent None (set_enabled_ (Some false) s)).
Proof.
  intros H Hl. unfold enable, isEnabled. rewrite Hl. cbv zeta.
  unfold restoreStyles. fields.
  destruct H as [H | H]; rewrite H; [ | destruct (frameElement s)];
    cbn [andThen]; eexists; reflexivity.
Qed.

Lemma enable_false_detaches (env : Env) (g : Global) (s : Scroller)
    (fr st : ElemId) :
  frameElement s = Some fr -> frameElementComputedStyle s = Some st ->
  looseEq (enabled_ s) false = false ->
  exists g',
    enable env false (g, s)
    = Normal (g', set_frameElement None
                    (set_element None
                       (set_listeners []
                          (set_scrollBarParent None
                             (set_enabled_ (Some false) s))))).
Proof.
  intros Hfr Hst Hl. unfold enable, isEnabled. rewrite Hl. cbv zeta.
  unfold restoreStyles. fields. rewrite Hfr, Hst. cbn [andThen].
  unfold exitDocument. eexists. reflexivity.
Qed.

Lemma enable_looseEq (env : Env) (aEnabled : bool) (g : Global)
    (s : Scroller) :
  looseEq (enabled_ s) aEnabled = true ->
  enable env aEnabled (g, s) = Normal (g, s).
Proof.
  intros Hl. unfold enable, isEnabled. rewrite Hl. reflexivity.
Qed.

(** The state [enable(true)] reaches when nothing is missing has
    everything defined. *)
Lemma allDefined_attached (env : Env) (s : Scroller) (fr el : ElemId)
    (k : Transform) (y : number) :
  frameElement s = Some fr -> element s = Some el ->
  allDefined
    (set_scrollBarParent (Some fr)
       (set_lineTransform k
          (animateWithinBounds (getSize env el) (getSize env fr) y
             (set_listeners (el :: listeners s)
                (set_frameElementSize (Some (getSize env fr))
                   (set_elementSize (Some (getSize env el))
                      (set_frameElementComputedStyle (Some fr)
                         (set_enabled_ (Some true) s)))))))).
Proof.
  intros Hfr Hel.
  apply (allDefined_keeps (set_scrollBarParent (Some fr)));
    [apply keepsAttachment_set_scrollBarParent | ].
  apply (allDefined_keeps (set_lineTransform k));
    [apply keepsAttachment_set_lineTransform | ].
  apply (allDefined_keeps
           (animateWithinBounds (getSize env el) (getSize env fr) y));
    [apply keepsAttachment_animateWithinBounds | ].
  unfold allDefined; fields. rewrite Hfr, Hel. repeat split; discriminate.
Qed.

Lemma attachedInv_enable (env : Env) (aEnabled : bool) (g : Global)
    (s : Scroller) :
  attachedInv s -> attachedInv (snd (stateOf (enable env aEnabled (g, s)))).
Proof.
  intros Hs. destruct (looseEq (enabled_ s) aEnabled) eqn:Hl.
  { rewrite enable_looseEq by exact Hl. exact Hs. }
  destruct aEnabled.
  - destruct (frameElement s) as [fr | ] eqn:Hfr;
      [destruct (element s) as [el | ] eqn:Hel | ].
    + destruct (enable_true_attaches env g s fr el Hfr Hel Hl) as [g' ->].
      cbn [stateOf snd]. intros _.
      apply allDefined_attached; assumption.
    + destruct (enable_true_no_element env g s fr Hfr Hel Hl) as [g' ->].
      cbn [stateOf snd]. intros Hl'. exfalso.
      change (listening s = true) in Hl'.
      destruct (Hs Hl') as (He & _). exact (He Hel).
    + destruct (enable_true_no_frame env g s Hfr Hl) as [g' ->].
      cbn [stateOf snd]. intros Hl'. exfalso.
      change (listening s = true) in Hl'.
      destruct (Hs Hl') as (_ & Hf & _). exact (Hf Hfr).
  - destruct (frameElement s) as [fr | ] eqn:Hfr;
      [destruct (frameElementComputedStyle s) as [st | ] eqn:Hst | ].
    + destruct (enable_false_detaches env g s fr st Hfr Hst Hl) as [g' ->].
      cbn [stateOf snd]. intros Hl'.
      discriminate Hl'.
    + destruct (enable_false_throws env g s (or_intror Hst) Hl) as [g' ->].
      cbn [stateOf snd]. intros Hl'. exfalso.
      change (listening s = true) in Hl'.
      destruct (Hs Hl') as (_ & _ & Hc & _). exact (Hc Hst).
    + destruct (enable_false_throws env g s (or_introl Hfr) Hl) as [g' ->].
      cbn [stateOf snd]. intros Hl'. exfalso.
      change (listening s = true) in Hl'.
      destruct (Hs Hl') as (_ & Hf & _). exact (Hf Hfr).
Qed.

Lemma attachedInv_setElements (el fr : ElemId) (s : Scroller) :
  attachedInv s -> attachedInv (setElement el (setFrameElement fr s)).
Proof.
  intros Hs Hl. change (listening s = true) in Hl.
  destruct (Hs Hl) as (H1 & H2 & H3 & H4 & H5).
  unfold allDefined, setElement, setFrameElement; fields.
  repeat split; first [assumption | discriminate].
Qed.

Lemma attachedInv_add (env : Env) (aElement : ElemId) (g : Global)
    (s : Scroller) :
  attachedInv s -> attachedInv (snd (stateOf (add env aElement (g, s)))).
Proof.
  intros Hs. unfold add.
  apply attachedInv_enable, attachedInv_setElements, Hs.
Qed.

Lemma attachedInv_measured (g : Size -> Size -> Scroller -> Scroller)
    (s : Scroller) :
  (forall e f, keepsAttachment (g e f)) -> attachedInv s ->
  attachedInv (stateOf (measured g s)).
Proof.
  intros Hg Hs. unfold measured.
  destruct (elementSize s), (frameElementSize s); cbn [stateOf];
    try exact Hs.
  apply attachedInv_keeps; [apply Hg | exact Hs].
Qed.

Lemma attachedInv_handle (g : Size -> Size -> Scroller -> Scroller)
    (s : Scroller) :
  (forall e f, keepsAttachment (g e f)) -> attachedInv s ->
  attachedInv (stateOf (handle g s)).
Proof.
  intros Hg Hs. unfold handle.
  destruct (listening s); [apply attachedInv_measured; assumption | exact Hs].
Qed.

Lemma attachedInv_onScroller (g : Global) (c : Completion Scroller) :
  attachedInv (stateOf c) -> attachedInv (snd (stateOf (onScroller g c))).
Proof. destruct c; intros H; exact H. Qed.

Lemma attachedInv_reset (env : Env) (aElement : ElemId) (g : Global)
    (s : Scroller) :
  attachedInv s -> attachedInv (snd (stateOf (reset env aElement (g, s)))).
Proof.
  intros Hs. unfold reset, remove.
  apply (andThen_preserves
           (fun gs : Global * Scroller => attachedInv (snd gs))).
  - apply attachedInv_enable; exact Hs.
  - intros [g' s'] Hs'. cbn [snd] in Hs'. apply attachedInv_add.
    apply attachedInv_keeps; [apply keepsAttachment_resetInternal | exact Hs'].
Qed.

Lemma attachedInv_resume (env : Env) (aElement : ElemId) (g : Global)
    (s : Scroller) :
  attachedInv s -> attachedInv (snd (stateOf (resume env aElement (g, s)))).
Proof.
  intros Hs. unfold resume.
  apply (andThen_preserves
           (fun gs : Global * Scroller => attachedInv (snd gs))).
  - apply attachedInv_add; exact Hs.
  - intros [g' s'] Hs'. cbn [snd] in Hs'.
    apply attachedInv_onScroller.
    apply (attachedInv_measured
             (fun e f => animateWithinBounds e f (contentOffsetY s')));
      [ | exact Hs'].
    intros e f. apply keepsAttachment_animateWithinBounds.
Qed.

Lemma worldAttachedInv_lifecycle (w : World) (i : nat)
    (c : Completion (Global * Scroller)) :
  worldAttachedInv w -> attachedInv (snd (stateOf c)) ->
  worldAttachedInv (stateOf (lifecycle w i c)).
Proof.
  intros Hw Hc j.
  destruct c as [[g s] | [g s]]; cbn [lifecycle stateOf scrollers snd] in *;
    unfold setScroller; destruct (Nat.eqb j i); auto.
Qed.

Lemma worldAttachedInv_motion (w : World) (i : nat)
    (c : Completion Scroller) :
  worldAttachedInv w -> attachedInv (stateOf c) ->
  worldAttachedInv (stateOf (motion w i c)).
Proof.
  intros Hw Hc. unfold motion.
  apply worldAttachedInv_lifecycle; [exact Hw | ].
  apply attachedInv_onScroller; exact Hc.
Qed.

Lemma attachedInv_set_element (el : ElemId) (s : Scroller) :
  attachedInv s -> attachedInv (setElement el s).
Proof.
  intros Hs Hl. change (listening s = true) in Hl.
  destruct (Hs Hl) as (H1 & H2 & H3 & H4 & H5).
  unfold allDefined, setElement; fields.
  repeat split; first [assumption | discriminate].
Qed.

Lemma attachedInv_set_frameElement (fr : ElemId) (s : Scroller) :
  attachedInv s -> attachedInv (setFrameElement fr s).
Proof.
  intros Hs Hl. change (listening s = true) in Hl.
  destruct (Hs Hl) as (H1 & H2 & H3 & H4 & H5).
  unfold allDefined, setFrameElement; fields.
  repeat split; first [assumption | discriminate].
Qed.

Lemma worldAttachedInv_call (env : Env) (i : nat) (c : Call) (w : World) :
  worldAttachedInv w -> worldAttachedInv (stateOf (call env i c w)).
Proof.
  intros Hw. pose proof (Hw i) as Hs.
  destruct c; cbn [call]; cbv zeta;
    first [ apply worldAttachedInv_motion; [exact Hw | ]
          | apply worldAttachedInv_lifecycle; [exact Hw | ] ].
  - cbn [stateOf]. apply attachedInv_set_element; exact Hs.
  - cbn [stateOf]. apply attachedInv_set_frameElement; exact Hs.
  - apply attachedInv_enable; exact Hs.
  - apply attachedInv_add; exact Hs.
  - apply attachedInv_enable; exact Hs.
  - apply attachedInv_reset; exact Hs.
  - apply attachedInv_enable; exact Hs.
  - apply attachedInv_resume; exact Hs.
  - apply (attachedInv_measured (fun e f => setScrollTop e f aScrollTop));
      [ | exact Hs].
    intros e f. apply keepsAttachment_setScrollTop.
  - apply (attachedInv_handle
             (fun e f s => fst (onTouchStart e f aEvent live s)));
      [ | exact Hs].
    intros e f. apply keepsAttachment_onTouchStart.
  - apply (attachedInv_handle (fun e f => onTouchMove e f aEvent));
      [ | exact Hs].
    intros e f. apply keepsAttachment_onTouchMove.
  - apply (attachedInv_handle (fun e f s => fst (onTouchEnd e f target s)));
      [ | exact Hs].
    intros e f. apply keepsAttachment_onTouchEnd.
  - apply (attachedInv_handle (fun e f => onTransitionEnd e f target));
      [ | exact Hs].
    intros e f. apply keepsAttachment_onTransitionEnd.
  - cbn [stateOf]. apply attachedInv_keeps;
      [apply keepsAttachment_onScrollBarTimeout | exact Hs].
Qed.

Lemma worldAttachedInv_run (history : list Step) :
  forall w, worldAttachedInv w -> worldAttachedInv (run history w).
Proof.
  induction history as [ | [[env i] c] history IH]; intros w Hw;
    [exact Hw | ].
  cbn [run fold_left]. apply IH. apply worldAttachedInv_call; exact Hw.
Qed.

Lemma reachable_worldAttachedInv (w : World) :
  reachable w -> worldAttachedInv w.
Proof.
  intros [history ->]. apply worldAttachedInv_run.
  intros i Hl. discriminate Hl.
Qed.






(** ** The stylesheet and the counter *)

(** The steps of [enable(true)] that follow the update of the counter leave
    the stylesheet alone. *)
Lemma enable_true_sheets (env : Env) (g : Global) (s : Scroller) (m : nat) :
  styleSheets g = m ->
  let gs' :=
    stateOf
      (setUpStyles (g, s) >>= fun '(g, s) =>
       onScroller g (calculateSizes env s) >>= fun '(g, s) =>
       onScroller g (enterDocument s) >>= fun '(g, s) =>
       onScroller g
         (measured (fun e f => animateWithinBounds e f (contentOffsetY s)) s)
       >>= fun '(g, s) =>
       onScroller g
         (measured (fun e f => set_lineTransform
                                 (ScaleY (getScrollBarLineHeight e f))) s)
       >>= fun '(g, s) =>
       match frameElement s with
       | None => Throws (g, s)
       | Some frame => Normal (g, set_scrollBarParent (Some frame) s)
       end) in
  styleSheets (fst gs') = m.
Proof.
  intros Hm. cbv zeta.
  set (P := fun gs : Global * Scroller => styleSheets (fst gs) = m).
  change (P (stateOf
    (setUpStyles (g, s) >>= fun '(g, s) =>
       onScroller g (calculateSizes env s) >>= fun '(g, s) =>
       onScroller g (enterDocument s) >>= fun '(g, s) =>
       onScroller g
         (measured (fun e f => animateWithinBounds e f (contentOffsetY s)) s)
       >>= fun '(g, s) =>
       onScroller g
         (measured (fun e f => set_lineTransform
                                 (ScaleY (getScrollBarLineHeight e f))) s)
       >>= fun '(g, s) =>
       match frameElement s with
       | None => Throws (g, s)
       | Some frame => Normal (g, set_scrollBarParent (Some frame) s)
       end))).
  apply andThen_preserves.
  { unfold setUpStyles. destruct (frameElement s); exact Hm. }
  clear g s Hm. intros [g s] Hm; cbn [fst snd] in Hm.
  apply andThen_preserves.
  { unfold calculateSizes. destruct (element s); [ | exact Hm].
    fields. destruct (frameElement s); exact Hm. }
  clear g s Hm. intros [g s] Hm; cbn [fst snd] in Hm.
  apply andThen_preserves.
  { unfold enterDocument. destruct (element s); exact Hm. }
  clear g s Hm. intros [g s] Hm; cbn [fst snd] in Hm.
  apply andThen_preserves.
  { unfold measured. destruct (elementSize s), (frameElementSize s);
      exact Hm. }
  clear g s Hm. intros [g s] Hm; cbn [fst snd] in Hm.
  apply andThen_preserves.
  { unfold measured. destruct (elementSize s), (frameElementSize s);
      exact Hm. }
  clear g s Hm. intros [g s] Hm; cbn [fst snd] in Hm.
  destruct (frameElement s); exact Hm.
Qed.

(** What a call of [enable] leaves of the stylesheet, however it ends. *)
Lemma enable_sheets (env : Env) (aEnabled : bool) (g : Global)
    (s : Scroller) :
  styleSheets (fst (stateOf (enable env aEnabled (g, s))))
  = if looseEq (enabled_ s) aEnabled then styleSheets g
    else if aEnabled
         then if (1 =? instancesCount_ g + 1)%Z then S (styleSheets g)
              else styleSheets g
         else if (0 =? Z.max 0 (instancesCount_ g - 1))%Z
              then Nat.pred (styleSheets g)
              else styleSheets g.
Proof.
  unfold enable, isEnabled.
  destruct (looseEq (enabled_ s) aEnabled); [reflexivity | ].
  cbv zeta. destruct aEnabled.
  - match goal with
    | |- context [setUpStyles (?g1, ?s1)] =>
        rewrite (enable_true_sheets env g1 s1 (styleSheets g1) eq_refl)
    end.
    cbn [instancesCount_ set_instancesCount_].
    destruct (1 =? instancesCount_ g + 1)%Z; reflexivity.
  - match goal with
    | |- context [restoreStyles (?g1, ?s1)] =>
        assert (Hg : styleSheets g1
                     = if (0 =? Z.max 0 (instancesCount_ g - 1))%Z
                       then Nat.pred (styleSheets g) else styleSheets g);
        [ | generalize dependent g1; generalize dependent s1 ]
    end.
    + cbn [instancesCount_ set_instancesCount_].
      destruct (instancesCount_ g - 1 <? 0)%Z eqn:Hneg;
        cbn [instancesCount_ set_instancesCount_];
        [ apply Z.ltb_lt in Hneg | apply Z.ltb_ge in Hneg ].
      * replace (Z.max 0 (instancesCount_ g - 1)) with 0%Z by lia.
        reflexivity.
      * replace (Z.max 0 (instancesCount_ g - 1))
          with (instancesCount_ g - 1)%Z by lia.
        destruct (0 =? instancesCount_ g - 1)%Z; reflexivity.
    + intros s1 g1 Hg. unfold restoreStyles.
      destruct (frameElement s1); [destruct (frameElementComputedStyle s1) | ];
        cbn [andThen stateOf fst snd]; exact Hg.
Qed.

Lemma sheetInv_enable (env : Env) (aEnabled : bool) (g : Global)
    (s : Scroller) :
  sheetInv g -> sheetInv (fst (stateOf (enable env aEnabled (g, s)))).
Proof.
  intros [Hc Hs]. unfold sheetInv.
  destruct (enable_counter env aEnabled g s) as [Hn _].
  rewrite Hn, enable_sheets, Hs. clear Hn.
  destruct (looseEq (enabled_ s) aEnabled); [split; [exact Hc | reflexivity] | ].
  destruct aEnabled.
  - split; [lia | ].
    destruct (instancesCount_ g =? 0)%Z eqn:H0;
      [ apply Z.eqb_eq in H0 | apply Z.eqb_neq in H0 ].
    + rewrite H0. reflexivity.
    + replace (1 =? instancesCount_ g + 1)%Z with false
        by (symmetry; apply Z.eqb_neq; lia).
      replace (instancesCount_ g + 1 =? 0)%Z with false
        by (symmetry; apply Z.eqb_neq; lia).
      reflexivity.
  - split; [lia | ].
    destruct (instancesCount_ g =? 0)%Z eqn:H0;
      [ apply Z.eqb_eq in H0 | apply Z.eqb_neq in H0 ].
    + rewrite H0. reflexivity.
    + destruct (Z.eq_dec (instancesCount_ g) 1) as [H1 | H1].
      * rewrite H1. reflexivity.
      * replace (0 =? Z.max 0 (instancesCount_ g - 1))%Z with false
          by (symmetry; apply Z.eqb_neq; lia).
        replace (Z.max 0 (instancesCount_ g - 1) =? 0)%Z with false
          by (symmetry; apply Z.eqb_neq; lia).
        reflexivity.
Qed.

Lemma sheetInv_add (env : Env) (aElement : ElemId) (g : Global)
    (s : Scroller) :
  sheetInv g -> sheetInv (fst (stateOf (add env aElement (g, s)))).
Proof. intros Hg. unfold add. apply sheetInv_enable; exact Hg. Qed.

Lemma sheetInv_reset (env : Env) (aElement : ElemId) (g : Global)
    (s : Scroller) :
  sheetInv g -> sheetInv (fst (stateOf (reset env aElement (g, s)))).
Proof.
  intros Hg. unfold reset, remove.
  apply (andThen_preserves (fun gs : Global * Scroller => sheetInv (fst gs))).
  - apply sheetInv_enable; exact Hg.
  - intros [g' s'] Hg'. apply sheetInv_add; exact Hg'.
Qed.

Lemma sheetInv_resume (env : Env) (aElement : ElemId) (g : Global)
    (s : Scroller) :
  sheetInv g -> sheetInv (fst (stateOf (resume env aElement (g, s)))).
Proof.
  intros Hg. unfold resume.
  apply (andThen_preserves (fun gs : Global * Scroller => sheetInv (fst gs))).
  - apply sheetInv_add; exact Hg.
  - intros [g' s'] Hg'. destruct (measured _ s'); exact Hg'.
Qed.

Lemma sheetInv_call (env : Env) (i : nat) (c : Call) (w : World) :
  sheetInv (global w) -> sheetInv (global (stateOf (call env i c w))).
Proof.
  intros Hw.
  destruct c; cbn [call]; cbv zeta;
    rewrite ?global_motion; try exact Hw; rewrite global_lifecycle.
  - apply sheetInv_enable; exact Hw.
  - apply sheetInv_add; exact Hw.
  - apply sheetInv_enable; exact Hw.
  - apply sheetInv_reset; exact Hw.
  - apply sheetInv_enable; exact Hw.
  - apply sheetInv_resume; exact Hw.
Qed.

Lemma sheetInv_run (history : list Step) :
  forall w, sheetInv (global w) -> sheetInv (global (run history w)).
Proof.
  induction history as [ | [[env i] c] history IH]; intros w Hw;
    [exact Hw | ].
  cbn [run fold_left]. apply IH. apply sheetInv_call; exact Hw.
Qed.

(** X2: in every state the page can reach, the document holds the
    scroller's stylesheet node exactly while the instance counter is
    positive: one node then, none when the counter is 0; [addStyleSheet]
    never adds a second node and [removeStyleSheet] never leaves one
    behind at 0. *)
Theorem styleSheet_follows_counter (w : World) :
  reachable w ->
  styleSheets (global w)
  = if (instancesCount_ (global w) =? 0)%Z then 0%nat else 1%nat.
Proof.
  intros [history ->].
  apply (sheetInv_run history initialWorld). split; [simpl; lia | reflexivity].
Qed.

Lemma styleSheet_follows_counter_witness :
  styleSheets (global attachedWorld)
  = if (instancesCount_ (global attachedWorld) =? 0)%Z then 0%nat else 1%nat.
Proof.
  apply (styleSheet_follows_counter attachedWorld).
  exists [(page, 0%nat, CallAdd 7%nat)]. reflexivity.
Defined.

(** ** Enabling an instance that has no elements *)

(** X3: [enable(true)] on an instance that is not enabled and has no frame
    element (nothing was passed to [setFrameElement] or [add]) throws in
    [setUpStyles], after the instance was flagged enabled and counted: the
    counter is one higher and nothing else of the instance changed.  The
    flag stays, so a following [add] returns at once from its [enable(true)]:
    it stores the two elements and registers no listener. *)
Theorem enable_without_frame_throws (env : Env) (g : Global)
    (s : Scroller) :
  frameElement s = None -> looseEq (enabled_ s) true = false ->
  exists g',
    enable env true (g, s) = Throws (g', set_enabled_ (Some true) s)
    /\ instancesCount_ g' = (instancesCount_ g + 1)%Z
    /\ forall aElement : ElemId,
         add env aElement (g', set_enabled_ (Some true) s)
         = Normal (g', setElement (getFirstElementChild env aElement)
                         (setFrameElement aElement
                            (set_enabled_ (Some true) s)))
         /\ listeners (setElement (getFirstElementChild env aElement)
                         (setFrameElement aElement
                            (set_enabled_ (Some true) s)))
            = listeners s.
Proof.
  intros Hfr Hl.
  destruct (enable_true_no_frame env g s Hfr Hl) as [g' Hg'].
  exists g'. split; [exact Hg' | split].
  - destruct (enable_counter env true g s) as [Hn _].
    rewrite Hg', Hl in Hn. exact Hn.
  - intros aElement. split; [ | reflexivity].
    unfold add. apply enable_same. reflexivity.
Qed.

Lemma enable_without_frame_throws_witness :
  exists g',
    enable page true (global initialWorld, newScroller)
    = Throws (g', set_enabled_ (Some true) newScroller)
    /\ instancesCount_ g' = (instancesCount_ (global initialWorld) + 1)%Z
    /\ forall aElement : ElemId,
         add page aElement (g', set_enabled_ (Some true) newScroller)
         = Normal (g', setElement (getFirstElementChild page aElement)
                         (setFrameElement aElement
                            (set_enabled_ (Some true) newScroller)))
         /\ listeners (setElement (getFirstElementChild page aElement)
                         (setFrameElement aElement
                            (set_enabled_ (Some true) newScroller)))
            = listeners newScroller.
Proof.
  apply (enable_without_frame_throws page (global initialWorld) newScroller);
    reflexivity.
Defined.

(** X4: [remove] on an instance that is not disabled and has no frame
    element (one that was never attached) throws in [restoreStyles], after
    it took one off the shared counter (not below 0) and, where that brought
    the counter to 0, removed the shared stylesheet: with one other instance
    enabled, the counter reads 0 and the stylesheet is gone. *)
Theorem remove_unattached_takes_stylesheet (env : Env) (g : Global)
    (s : Scroller) :
  frameElement s = None -> looseEq (enabled_ s) false = false ->
  exists g',
    remove env (g, s)
    = Throws (g', set_scrollBarParent None (set_enabled_ (Some false) s))
    /\ instancesCount_ g' = Z.max 0 (instancesCount_ g - 1)
    /\ styleSheets g'
       = (if (0 =? Z.max 0 (instancesCount_ g - 1))%Z
          then Nat.pred (styleSheets g) else styleSheets g)
    /\ (instancesCount_ g = 1%Z -> styleSheets g = 1%nat ->
        instancesCount_ g' = 0%Z /\ styleSheets g' = 0%nat).
Proof.
  intros Hfr Hl. unfold remove.
  destruct (enable_false_throws env g s (or_introl Hfr) Hl) as [g' Hg'].
  exists g'. split; [exact Hg' | ].
  destruct (enable_counter env false g s) as [Hn _].
  pose proof (enable_sheets env false g s) as Hm.
  rewrite Hg', Hl in Hn, Hm. cbn [stateOf fst] in Hn, Hm.
  split; [exact Hn | split; [exact Hm | ]].
  intros H1 H2. rewrite Hn, Hm, H1, H2. split; reflexivity.
Qed.

Lemma remove_unattached_takes_stylesheet_witness :
  exists g',
    remove page (mkGlobal 1 1 [], newScroller)
    = Throws (g', set_scrollBarParent None
                    (set_enabled_ (Some false) newScroller))
    /\ instancesCount_ g' = 0%Z /\ styleSheets g' = 0%nat.
Proof.
  destruct (remove_unattached_takes_stylesheet page (mkGlobal 1 1 [])
              newScroller eq_refl eq_refl) as (g' & H1 & _ & _ & H4).
  exists g'. split; [exact H1 | ]. apply H4; reflexivity.
Defined.

(** ** Attaching, detaching and the scroll position *)

(** The last two writes of [enable(true)], on any state. *)
Lemma enable_true_last_writes (v : option ElemId) (k : Transform)
    (a : Scroller) :
  let s' := set_scrollBarParent v (set_lineTransform k a) in
  scrollBarParent s' = v
  /\ lineTransform s' = k
  /\ contentOffsetY s' = contentOffsetY a
  /\ enabled_ s' = enabled_ a
  /\ elementTransform s' = elementTransform a
  /\ listening s' = listening a
  /\ element s' = element a
  /\ frameElement s' = frameElement a
  /\ elementSize s' = elementSize a
  /\ frameElementSize s' = frameElementSize a
  /\ listeners s' = listeners a.
Proof. cbv zeta. repeat split; reflexivity. Qed.

Lemma elementTransform_animateTo (e f : Size) (y : number) (b : bool)
    (s : Scroller) :
  elementTransform (animateTo e f y b s) = Translate3dY y.
Proof. unfold animateTo; cbv zeta. by_cases. Qed.

(** What [enable(true)] leaves when nothing is missing. *)
Lemma enable_true_fields (env : Env) (g : Global) (s : Scroller)
    (fr el : ElemId) :
  frameElement s = Some fr -> element s = Some el ->
  looseEq (enabled_ s) true = false ->
  exists g' s',
    enable env true (g, s) = Normal (g', s')
    /\ instancesCount_ g' = (instancesCount_ g + 1)%Z
    /\ enabled_ s' = Some true
    /\ listeners s' = el :: listeners s
    /\ element s' = Some el
    /\ frameElement s' = Some fr
    /\ elementSize s' = Some (getSize env el)
    /\ frameElementSize s' = Some (getSize env fr)
    /\ scrollBarParent s' = Some fr
    /\ lineTransform s'
       = ScaleY (getScrollBarLineHeight (getSize env el) (getSize env fr))
    /\ contentOffsetY s'
       = (if gtb (contentOffsetY s) (Fin 0) then Fin 0
          else if ltb (contentOffsetY s)
                    (getLowestContentPosition (getSize env el)
                       (getSize env fr))
               then getLowestContentPosition (getSize env el)
                      (getSize env fr)
               else contentOffsetY s)
    /\ elementTransform s' = Translate3dY (contentOffsetY s').
Proof.
  intros Hfr Hel Hl.
  destruct (enable_true_attaches env g s fr el Hfr Hel Hl) as [g' Hg'].
  destruct (enable_counter env true g s) as [Hn _].
  rewrite Hg', Hl in Hn. cbn [stateOf fst] in Hn.
  eexists; eexists. split; [exact Hg' | ]. split; [exact Hn | ].
  match goal with
  | |- context [set_scrollBarParent ?v (set_lineTransform ?k ?a)] =>
      destruct (enable_true_last_writes v k a)
        as (L1 & L2 & L3 & L4 & L5 & L6 & L7 & L8 & L9 & L10 & L11);
      cbv zeta in L1, L2, L3, L4, L5, L6, L7, L8, L9, L10, L11;
      rewrite L1, L2, L3, L4, L5, L7, L8, L9, L10, L11
  end.
  match goal with
  | |- context [animateWithinBounds ?e ?f ?y ?x] =>
      destruct (keepsAttachment_animateWithinBounds e f y x)
        as (A1 & A2 & A3 & A4 & A5 & _);
      rewrite A1, A2, A3, A4, A5,
        (enabled_animateWithinBounds e f y x),
        (contentOffsetY_animateWithinBounds e f y x)
  end.
  unfold animateWithinBounds. rewrite elementTransform_animateTo.
  fields. rewrite Hfr, Hel. repeat split; reflexivity.
Qed.


Lemma clamp_fixed (e f : Size) (eh fh y : R) :
  height e = Fin eh -> height f = Fin fh -> fh - eh <= y <= 0 ->
  (if gtb (Fin y) (Fin 0) then Fin 0
   else if ltb (Fin y) (getLowestContentPosition e f)
        then getLowestContentPosition e f else Fin y) = Fin y.
Proof.
  intros He Hf Hy. rewrite (getLowestContentPosition_Fin e f eh fh He Hf).
  unfold gtb, ltb, Rltb. rdec; reflexivity.
Qed.



(** [add] on an instance that is not enabled, as [resume] and [reset] use
    it. *)
Lemma add_fields (env : Env) (g : Global) (s : Scroller)
    (aElement : ElemId) :
  looseEq (enabled_ s) true = false ->
  let el := getFirstElementChild env aElement in
  let e := getSize env el in
  let f := getSize env aElement in
  exists g' s',
    add env aElement (g, s) = Normal (g', s')
    /\ listeners s' = el :: listeners s
    /\ elementSize s' = Some e
    /\ frameElementSize s' = Some f
    /\ contentOffsetY s'
       = (if gtb (contentOffsetY s) (Fin 0) then Fin 0
          else if ltb (contentOffsetY s) (getLowestContentPosition e f)
               then getLowestContentPosition e f else contentOffsetY s).
Proof.
  intros Hl el e f. unfold add.
  destruct (enable_true_fields env g
              (setElement el (setFrameElement aElement s)) aElement el
              eq_refl eq_refl Hl)
    as (g' & s' & H0 & H1 & H2 & H3 & H4 & H5 & H6 & H7 & H8 & H9 & H10
        & H11).
  exists g', s'. repeat split; assumption.
Qed.

(** What [resume] leaves on an instance that is not enabled. *)
Lemma resume_fields (env : Env) (g : Global) (s : Scroller)
    (aElement : ElemId) :
  looseEq (enabled_ s) true = false ->
  let el := getFirstElementChild env aElement in
  let e := getSize env el in
  let f := getSize env aElement in
  let clamp (a : number) :=
    if gtb a (Fin 0) then Fin 0
    else if ltb a (getLowestContentPosition e f)
         then getLowestContentPosition e f else a in
  exists g' s',
    resume env aElement (g, s) = Normal (g', s')
    /\ listeners s' = el :: listeners s
    /\ contentOffsetY s' = clamp (clamp (contentOffsetY s))
    /\ elementTransform s' = Translate3dY (contentOffsetY s').
Proof.
  intros Hl el e f clamp.
  destruct (add_fields env g s aElement Hl)
    as (g' & s' & H0 & H3 & H6 & H7 & H10).
  unfold resume. rewrite H0. cbn [andThen]. unfold measured.
  rewrite H6, H7. cbn [onScroller].
  exists g', (animateWithinBounds e f (contentOffsetY s') s').
  split; [reflexivity | ].
  destruct (keepsAttachment_animateWithinBounds e f (contentOffsetY s') s')
    as (_ & _ & _ & A4 & _ & _).
  rewrite A4, H3, contentOffsetY_animateWithinBounds, H10.
  unfold animateWithinBounds. rewrite elementTransform_animateTo.
  repeat split; reflexivity.
Qed.

(** X6: [suspend] on an attached, enabled instance returns and detaches it
    (no listener is left) without touching the content offset; a following
    [resume] on an element whose measured bounds contain that offset returns
    with the instance listening again and the content at the same offset:
    the scroll position survives. *)
Theorem suspend_resume_keeps_position (env env' : Env) (g : Global)
    (s : Scroller) (fr st aElement : ElemId) (eh fh y : R) :
  frameElement s = Some fr -> frameElementComputedStyle s = Some st ->
  looseEq (enabled_ s) false = false ->
  contentOffsetY s = Fin y ->
  height (getSize env' (getFirstElementChild env' aElement)) = Fin eh ->
  height (getSize env' aElement) = Fin fh ->
  fh - eh <= y <= 0 ->
  exists g1 s1 g2 s2,
    suspend env (g, s) = Normal (g1, s1)
    /\ listeners s1 = []
    /\ contentOffsetY s1 = Fin y
    /\ resume env' aElement (g1, s1) = Normal (g2, s2)
    /\ listeners s2 = [getFirstElementChild env' aElement]
    /\ contentOffsetY s2 = Fin y
    /\ elementTransform s2 = Translate3dY (Fin y).
Proof.
  intros Hfr Hst Hl Hy He Hf Hr. unfold suspend, remove.
  destruct (enable_false_detaches env g s fr st Hfr Hst Hl) as [g1 Hg1].
  rewrite Hg1.
  match goal with
  | |- context [Normal (g1, ?d)] =>
      destruct (resume_fields env' g1 d aElement eq_refl)
        as (g2 & s2 & R0 & R1 & R2 & R3);
      exists g1, d, g2, s2
  end.
  cbv zeta in R2.
  match goal with
  | |- context [Normal (g1, ?d)] =>
      assert (Hd : contentOffsetY d = Fin y) by (fields; exact Hy);
      assert (Hld : listeners d = []) by reflexivity
  end.
  rewrite Hd in R2. rewrite Hld in R1.
  rewrite (clamp_fixed _ _ eh fh y He Hf Hr) in R2.
  rewrite (clamp_fixed _ _ eh fh y He Hf Hr) in R2.
  rewrite R2 in R3.
  repeat split; assumption.
Qed.

Lemma suspend_resume_keeps_position_witness :
  exists g1 s1 g2 s2,
    suspend page (global attachedWorld, enabledOn 7%nat (- 50))
    = Normal (g1, s1)
    /\ listeners s1 = []
    /\ contentOffsetY s1 = Fin (- 50)
    /\ resume page 7%nat (g1, s1) = Normal (g2, s2)
    /\ listeners s2 = [getFirstElementChild page 7%nat]
    /\ contentOffsetY s2 = Fin (- 50)
    /\ elementTransform s2 = Translate3dY (Fin (- 50)).
Proof.
  apply (suspend_resume_keeps_position page page (global attachedWorld)
           _ 7%nat 7%nat 7%nat 900 300 (- 50));
    try reflexivity.
  lra.
Defined.

(** X7: [reset] on an attached, enabled instance returns with the instance
    attached to the element given and the scroll position lost: the content
    is at offset 0 when the frame is not higher than the content, and at
    [frame - content] (a positive offset) when it is. *)
Theorem reset_loses_position (env : Env) (g : Global) (s : Scroller)
    (fr st aElement : ElemId) (eh fh : R) :
  frameElement s = Some fr -> frameElementComputedStyle s = Some st ->
  looseEq (enabled_ s) false = false ->
  height (getSize env (getFirstElementChild env aElement)) = Fin eh ->
  height (getSize env aElement) = Fin fh ->
  exists g2 s2,
    reset env aElement (g, s) = Normal (g2, s2)
    /\ listeners s2 = [getFirstElementChild env aElement]
    /\ contentOffsetY s2 = Fin (Rmax 0 (fh - eh))
    /\ (fh <= eh -> contentOffsetY s2 = Fin 0).
Proof.
  intros Hfr Hst Hl He Hf. unfold reset, remove.
  destruct (enable_false_detaches env g s fr st Hfr Hst Hl) as [g1 Hg1].
  rewrite Hg1. cbn [andThen].
  match goal with
  | |- context [add env aElement (g1, ?d)] =>
      destruct (add_fields env g1 d aElement eq_refl)
        as (g2 & s2 & R0 & R1 & _ & _ & R2);
      assert (Hd : contentOffsetY d = Fin 0) by reflexivity;
      assert (Hld : listeners d = []) by reflexivity
  end.
  cbv zeta in R2. rewrite Hd in R2. rewrite Hld in R1.
  rewrite (getLowestContentPosition_Fin _ _ eh fh He Hf) in R2.
  assert (Hoff : contentOffsetY s2 = Fin (Rmax 0 (fh - eh))).
  { rewrite R2. unfold gtb, ltb, Rltb, Rmax.
    destruct (Rle_dec 0 (fh - eh)); rdec; f_equal; lra. }
  exists g2, s2. repeat split; try assumption.
  intros Hle. rewrite Hoff. unfold Rmax.
  destruct (Rle_dec 0 (fh - eh)); f_equal; lra.
Qed.

Lemma reset_loses_position_witness :
  exists g2 s2,
    reset page 7%nat
      (global attachedWorld, enabledOn 7%nat (- 50))
    = Normal (g2, s2)
    /\ contentOffsetY s2 = Fin 0.
Proof.
  destruct (reset_loses_position page (global attachedWorld)
              (enabledOn 7%nat (- 50))
              7%nat 7%nat 7%nat 900 300 eq_refl eq_refl eq_refl eq_refl
              eq_refl)
    as (g2 & s2 & H0 & _ & _ & H3).
  exists g2, s2. split; [exact H0 | ]. apply H3. lra.
Defined.

(** ** Scroll top, in and out *)

Lemma getScrollTop_Fin (s : Scroller) (y : R) :
  contentOffsetY s = Fin y -> getScrollTop s = Fin (- y).
Proof.
  intros H. unfold getScrollTop. rewrite H.
  unfold isNaN, eqb, Reqb, neg. cbn [orb].
  destruct (Req_dec_T y 0); f_equal; lra.
Qed.

Lemma contentOffsetY_setScrollTop_Fin (e f : Size) (eh fh x : R)
    (s : Scroller) :
  height e = Fin eh -> height f = Fin fh -> fh <= eh ->
  contentOffsetY (setScrollTop e f (Fin x) s)
  = Fin (- Rmax 0 (Rmin x (eh - fh))).
Proof.
  intros He Hf Hle. unfold setScrollTop.
  rewrite contentOffsetY_animateWithinBounds.
  rewrite (getLowestContentPosition_Fin e f eh fh He Hf).
  unfold isNaN, eqb, Reqb, neg. cbn [orb].
  unfold Rmax, Rmin.
  destruct (Req_dec_T x 0) as [H0 | H0];
    unfold gtb, ltb, Rltb;
    destruct (Rle_dec x (eh - fh));
    repeat match goal with
           | |- context [Rle_dec ?a ?b] => destruct (Rle_dec a b)
           end;
    rdec; f_equal; lra.
Qed.

(** X8: for a frame not higher than the content, [getScrollTop] after
    [setScrollTop(x)] is [x] clamped to the range from 0 to
    [content - frame]; so a scroll top within that range is read back as it
    was set, and [setScrollTop(NaN)] scrolls to the top. *)
Theorem getScrollTop_setScrollTop (e f : Size) (eh fh : R) (s : Scroller) :
  height e = Fin eh -> height f = Fin fh -> fh <= eh ->
  (forall x : R,
      getScrollTop (setScrollTop e f (Fin x) s)
      = Fin (Rmax 0 (Rmin x (eh - fh))))
  /\ (forall x : R,
        0 <= x <= eh - fh ->
        getScrollTop (setScrollTop e f (Fin x) s) = Fin x)
  /\ getScrollTop (setScrollTop e f NaN s) = Fin 0.
Proof.
  intros He Hf Hle.
  assert (H : forall x : R,
             getScrollTop (setScrollTop e f (Fin x) s)
             = Fin (Rmax 0 (Rmin x (eh - fh)))).
  { intros x.
    rewrite (getScrollTop_Fin _ (- Rmax 0 (Rmin x (eh - fh)))).
    - f_equal; lra.
    - apply contentOffsetY_setScrollTop_Fin; assumption. }
  split; [exact H | split].
  - intros x Hx. rewrite H. f_equal.
    unfold Rmax, Rmin. destruct (Rle_dec x (eh - fh));
      repeat match goal with
             | |- context [Rle_dec ?a ?b] => destruct (Rle_dec a b)
             end; lra.
  - rewrite (getScrollTop_Fin _ 0); [f_equal; lra | ].
    unfold setScrollTop. cbn [isNaN orb].
    rewrite contentOffsetY_animateWithinBounds,
      (getLowestContentPosition_Fin e f eh fh He Hf).
    unfold gtb, ltb, Rltb. rdec; reflexivity.
Qed.

Lemma getScrollTop_setScrollTop_witness :
  getScrollTop (setScrollTop content900 frame300 (Fin 250) newScroller)
  = Fin 250.
Proof.
  destruct (getScrollTop_setScrollTop content900 frame300 900 300 newScroller
              eq_refl eq_refl) as (_ & H & _).
  - lra.
  - apply H. lra.
Defined.

(** ** The scrollbar drawn by [animateTo] *)

Lemma getScrollBarLineHeight_Fin (e f : Size) (eh fh : R) :
  height e = Fin eh -> height f = Fin fh -> eh <> 0 -> fh <> 0 ->
  getScrollBarLineHeight e f = Fin (Rmax 5 (fh / (eh / fh))).
Proof.
  intros He Hf He0 Hf0. unfold getScrollBarLineHeight; cbv zeta.
  rewrite He, Hf. unfold div.
  destruct (Req_dec_T fh 0); [contradiction | ].
  destruct (Req_dec_T (eh / fh) 0) as [H | H].
  { exfalso. apply He0.
    replace eh with (eh / fh * fh) by (field; assumption).
    rewrite H. ring. }
  unfold SCROLLBAR_MIN_HEIGHT, ltb, Rltb, Rmax.
  destruct (Rle_dec 5 (fh / (eh / fh))); rdec; f_equal; lra.
Qed.

(** The scrollbar written by [animateTo], from the offset. *)
Lemma scrollBar_animateTo (e f : Size) (y : number) (s : Scroller) :
  let lowest := getLowestContentPosition e f in
  let within :=
    if gtb y (Fin 0) then Fin 0
    else if ltb y lowest then lowest else y in
  let reduced := sub (getScrollBarLineHeight e f) (abs (sub y within)) in
  let bounded :=
    if ltb reduced SCROLLBAR_MIN_HEIGHT then SCROLLBAR_MIN_HEIGHT
    else reduced in
  lineTransform (animateTo e f y false s) = ScaleY bounded
  /\ containerTransform (animateTo e f y false s)
     = Translate3dY
         (if gtb y (Fin 0) then div bounded (Fin 2)
          else if ltb y lowest
               then sub (height f) (div bounded (Fin 2))
               else neg (sub (div within (div (height e) (height f)))
                             (div (getScrollBarLineHeight e f) (Fin 2)))).
Proof.
  cbv zeta. unfold animateTo; cbv zeta. cbn [negb].
  split; destruct (gtb y (Fin 0));
    try destruct (ltb y (getLowestContentPosition e f)); reflexivity.
Qed.

(** X9: for measured heights other than 0, the scrollbar line that
    [animateTo] draws is the scrollbar line height less the distance of the
    offset from the bounds, and never below [SCROLLBAR_MIN_HEIGHT]: between
    5 and the line height for every offset, and the full line height when
    the offset is within bounds. *)
Theorem animateTo_line_bounded (e f : Size) (eh fh y : R) (s : Scroller) :
  height e = Fin eh -> height f = Fin fh -> eh <> 0 -> fh <> 0 ->
  let L := Rmax 5 (fh / (eh / fh)) in
  let over :=
    if Rlt_dec 0 y then y
    else if Rlt_dec y (fh - eh) then fh - eh - y else 0 in
  getScrollBarLineHeight e f = Fin L
  /\ lineTransform (animateTo e f (Fin y) false s)
     = ScaleY (Fin (Rmax 5 (L - over)))
  /\ 5 <= Rmax 5 (L - over) <= L
  /\ (positionIsOutOfBounds e f (Fin y) = false -> Rmax 5 (L - over) = L).
Proof.
  intros He Hf He0 Hf0 L over.
  pose proof (getScrollBarLineHeight_Fin e f eh fh He Hf He0 Hf0) as HL.
  fold L in HL.
  assert (H5 : 5 <= L) by (unfold L, Rmax; destruct (Rle_dec 5 _); lra).
  assert (Hover : 0 <= over) by (unfold over; rdec; lra).
  split; [exact HL | split; [ | split]].
  - destruct (scrollBar_animateTo e f (Fin y) s) as [H _].
    cbv zeta in H. rewrite H, HL.
    rewrite (getLowestContentPosition_Fin e f eh fh He Hf).
    f_equal. unfold over, gtb, ltb, Rltb, SCROLLBAR_MIN_HEIGHT, Rmax.
    destruct (Rlt_dec 0 y); [ | destruct (Rlt_dec y (fh - eh))];
      cbn [JsNum.sub JsNum.add JsNum.neg JsNum.abs];
      match goal with
      | |- context [Rabs ?z] => destruct (Rabs_cases z) as [[? ->] | [? ->]]
      end;
      cbn [JsNum.sub JsNum.add JsNum.neg JsNum.ltb]; unfold Rltb;
      match goal with
      | |- context [Rle_dec ?a ?b] => destruct (Rle_dec a b)
      end; rdec; f_equal; lra.
  - unfold Rmax. destruct (Rle_dec 5 (L - over)); lra.
  - intros Hin. unfold positionIsOutOfBounds in Hin.
    rewrite (getLowestContentPosition_Fin e f eh fh He Hf) in Hin.
    apply Bool.orb_false_iff in Hin. destruct Hin as [H1 H2].
    unfold gtb in H1. apply ltb_Fin_false in H1, H2.
    unfold over, Rmax. rdec. destruct (Rle_dec 5 (L - 0)); lra.
Qed.

Lemma animateTo_line_bounded_witness :
  lineTransform (animateTo content900 frame300 (Fin 40) false newScroller)
  = ScaleY (Fin (Rmax 5 (Rmax 5 (300 / (900 / 300))
                         - (if Rlt_dec 0 40 then 40
                            else if Rlt_dec 40 (300 - 900)
                                 then 300 - 900 - 40 else 0)))).
Proof.
  apply (animateTo_line_bounded content900 frame300 900 300 40 newScroller);
    try reflexivity; lra.
Defined.

(** X10: for a frame not higher than the content, and a scrollbar line
    height above the minimum, [animateTo] at an offset within bounds puts the
    scrollbar container at [L / 2 - y / (content / frame)], which lies
    between [L / 2] and [frame - L / 2]: the line, [L] high around that
    point, stays inside the frame, touching its top at offset 0 and its
    bottom at the lowest offset. *)
Theorem scrollBar_inside_frame (e f : Size) (eh fh y : R) (s : Scroller) :
  height e = Fin eh -> height f = Fin fh ->
  0 < fh -> fh <= eh -> 5 <= fh / (eh / fh) ->
  fh - eh <= y <= 0 ->
  let L := fh / (eh / fh) in
  let t := L / 2 - y / (eh / fh) in
  containerTransform (animateTo e f (Fin y) false s) = Translate3dY (Fin t)
  /\ L / 2 <= t <= fh - L / 2
  /\ (y = 0 -> t = L / 2)
  /\ (y = fh - eh -> t = fh - L / 2).
Proof.
  intros He Hf Hf0 Hle H5 Hy L t.
  assert (Hq : 0 < eh / fh).
  { apply Rdiv_lt_0_compat; lra. }
  assert (Hfq : (eh - fh) / (eh / fh) = fh - L).
  { unfold L. field. split; lra. }
  assert (Hi : 0 < / (eh / fh)) by (apply Rinv_0_lt_compat; exact Hq).
  assert (Hlow : y / (eh / fh) <= 0) by (unfold Rdiv; nra).
  assert (Hhigh : - ((eh - fh) / (eh / fh)) <= y / (eh / fh))
    by (unfold Rdiv; nra).
  split; [ | split; [ | split]].
  - destruct (scrollBar_animateTo e f (Fin y) s) as [_ H].
    cbv zeta in H. rewrite H.
    rewrite (getScrollBarLineHeight_Fin e f eh fh He Hf) by lra.
    rewrite (getLowestContentPosition_Fin e f eh fh He Hf).
    rewrite He, Hf. f_equal.
    unfold gtb, ltb, Rltb. rdec.
    cbn [JsNum.div JsNum.sub JsNum.add JsNum.neg].
    rdec. cbn [JsNum.div JsNum.sub JsNum.add JsNum.neg]. rdec.
    f_equal. unfold t, L, Rmax.
    destruct (Rle_dec 5 (fh / (eh / fh))); lra.
  - unfold t. rewrite Hfq in Hhigh. lra.
  - intros ->. unfold t. unfold Rdiv at 2. rewrite Rmult_0_l. lra.
  - intros ->. unfold t.
    replace ((fh - eh) / (eh / fh)) with (- ((eh - fh) / (eh / fh)))
      by (field; split; lra).
    rewrite Hfq. lra.
Qed.

Lemma scrollBar_inside_frame_witness :
  containerTransform
    (animateTo content900 frame300 (Fin (- 300)) false newScroller)
  = Translate3dY (Fin (300 / (900 / 300) / 2 - - 300 / (900 / 300))).
Proof.
  apply (scrollBar_inside_frame content900 frame300 900 300 (- 300)
           newScroller); try reflexivity; lra.
Defined.

(** ** Momentum within bounds *)

(** With finite samples the velocity is finite, and at most
    [MAXIMUM_VELOCITY] either way. *)
Lemma getEndVelocity_finite (s : Scroller) (p0 t0 p1 t1 : R) :
  previousPoint_ s = Fin p0 -> previousMoment_ s = Fin t0 ->
  currentPoint_ s = Fin p1 -> currentMoment_ s = Fin t1 ->
  exists v, getEndVelocity s = Fin v /\ Rabs v <= 35 / 10.
Proof.
  intros H1 H2 H3 H4.
  destruct (getEndVelocity_samples s p0 t0 p1 t1 H1 H2 H3 H4)
    as (G1 & G2 & G3 & G4 & G5 & G6).
  assert (Hcap : Rabs (35 / 10) <= 35 / 10 /\ Rabs (- (35 / 10)) <= 35 / 10
                 /\ Rabs 0 <= 35 / 10).
  { rewrite Rabs_Ropp, Rabs_R0.
    destruct (Rabs_cases (35 / 10)) as [[_ ->] | [? _]]; lra. }
  destruct Hcap as (C1 & C2 & C3).
  destruct (Req_dec_T t1 t0) as [Ht | Ht].
  - destruct (Rtotal_order p1 p0) as [Hp | [Hp | Hp]].
    + exists (- (35 / 10)). split; [apply G3; assumption | exact C2].
    + exists 0. split; [apply G1; assumption | exact C3].
    + exists (35 / 10). split; [apply G2; assumption | exact C1].
  - destruct (Rle_dec (Rabs ((p1 - p0) / (t1 - t0))) (35 / 10)) as [Hs | Hs].
    + exists ((p1 - p0) / (t1 - t0)). split; [apply G4; assumption | exact Hs].
    + apply Rnot_le_lt in Hs.
      destruct (Rtotal_order p1 p0) as [Hp | [Hp | Hp]].
      * exists (- (35 / 10)). split; [apply G6; assumption | exact C2].
      * exfalso. rewrite Hp in Hs.
        replace ((p0 - p0) / (t1 - t0)) with 0 in Hs
          by (unfold Rdiv; ring).
        rewrite Rabs_R0 in Hs. lra.
      * exists (35 / 10). split; [apply G5; assumption | exact C1].
Qed.

(** Momentum downwards that would pass the lowest position: stage 1 moves
    the content there and keeps the velocity it has left. *)
Lemma setUpTransitionStage1_down (e f : Size) (s : Scroller)
    (eh fh v y : R) :
  height e = Fin eh -> height f = Fin fh ->
  getEndVelocity s = Fin v -> v < 0 -> contentOffsetY s = Fin y ->
  0 <= v * v + (fh - eh - y) * 2 * (5 / 10000) ->
  contentOffsetY (setUpTransitionStage1 e f s) = Fin (fh - eh)
  /\ endMomentumVelocity_ (setUpTransitionStage1 e f s)
     = Fin (- R_sqrt.sqrt (v * v + (fh - eh - y) * 2 * (5 / 10000)))
  /\ queuedTransitionStage_ (setUpTransitionStage1 e f s) = TO_BOUNDS
  /\ isDecelerating_ (setUpTransitionStage1 e f s) = isDecelerating_ s.
Proof.
  intros He Hf Hv Hneg Hy Hrad. unfold setUpTransitionStage1; cbv zeta.
  rewrite Hv, getAcceleration_Fin.
  replace (gtb (Fin v) (Fin 0)) with false
    by (symmetry; apply ltb_Fin_false; lra).
  replace (ltb (Fin v) (Fin 0)) with true
    by (symmetry; apply ltb_Fin; exact Hneg).
  destruct (Rlt_dec v 0) as [_ | Hpos]; [ | lra].
  fields. rewrite Hy, (getLowestContentPosition_Fin e f eh fh He Hf).
  repeat split.
  unfold getEndMomentumVelocity. simpl.
  destruct (Rlt_dec (v * v + (fh - eh + - y) * 2 * (5 / 10000)) 0); [lra | ].
  simpl. f_equal.
  replace (fh - eh + - y) with (fh - eh - y) by ring. lra.
Qed.

(** The deceleration flag is set over stage 1 without touching what stage 1
    wrote. *)
Lemma set_isDecelerating_over (b : bool) (a : Scroller) :
  contentOffsetY (set_isDecelerating_ b a) = contentOffsetY a
  /\ endMomentumVelocity_ (set_isDecelerating_ b a) = endMomentumVelocity_ a
  /\ queuedTransitionStage_ (set_isDecelerating_ b a)
     = queuedTransitionStage_ a
  /\ isDecelerating_ (set_isDecelerating_ b a) = b.
Proof. repeat split; reflexivity. Qed.

(** Momentum from within bounds, case by case: no velocity, a slide that
    ends within bounds, a slide that would pass the top, a slide that would
    pass the lowest position. *)
Lemma doMomentum_from_within (e f : Size) (eh fh y v : R) (s : Scroller) :
  height e = Fin eh -> height f = Fin fh -> fh <= eh ->
  contentOffsetY s = Fin y -> fh - eh <= y <= 0 ->
  getEndVelocity s = Fin v ->
  let s' := doMomentum e f s in
  (v = 0 /\ s' = showScrollBarDelayed false s)
  \/ (v <> 0
      /\ positionIsOutOfBounds e f
           (Fin (y + (if Rlt_dec v 0 then - (1000 * (v * v))
                      else 1000 * (v * v)))) = false
      /\ contentOffsetY s'
         = Fin (y + (if Rlt_dec v 0 then - (1000 * (v * v))
                     else 1000 * (v * v)))
      /\ fh - eh <= y + (if Rlt_dec v 0 then - (1000 * (v * v))
                         else 1000 * (v * v)) <= 0)
  \/ (0 < v /\ 0 < y + 1000 * (v * v)
      /\ contentOffsetY s' = Fin 0
      /\ endMomentumVelocity_ s'
         = Fin (R_sqrt.sqrt (v * v + y / 1000))
      /\ queuedTransitionStage_ s' = TO_BOUNDS
      /\ isDecelerating_ s' = true)
  \/ (v < 0 /\ y - 1000 * (v * v) < fh - eh
      /\ contentOffsetY s' = Fin (fh - eh)
      /\ endMomentumVelocity_ s'
         = Fin (- R_sqrt.sqrt (v * v + (fh - eh - y) / 1000))
      /\ queuedTransitionStage_ s' = TO_BOUNDS
      /\ isDecelerating_ s' = true).
Proof.
  intros He Hf Hle Hy Hr Hv. cbv zeta.
  destruct (Req_dec_T v 0) as [H0 | H0].
  { left. split; [exact H0 | ]. apply doMomentum_no_velocity.
    rewrite Hv, H0. reflexivity. }
  right.
  destruct (positionIsOutOfBounds e f
              (Fin (y + (if Rlt_dec v 0 then - (1000 * (v * v))
                         else 1000 * (v * v))))) eqn:Hout.
  - right.
    rewrite (doMomentum_out_of_bounds e f s v y Hv H0 Hy Hout).
    destruct (set_isDecelerating_over true (setUpTransitionStage1 e f s))
      as (D1 & D2 & D3 & D4).
    rewrite D1, D2, D3, D4.
    unfold positionIsOutOfBounds in Hout.
    rewrite (getLowestContentPosition_Fin e f eh fh He Hf) in Hout.
    apply Bool.orb_true_iff in Hout. unfold gtb in Hout.
    assert (Hvv : 0 < v * v) by nra.
    destruct (Rlt_dec v 0) as [Hneg | Hpos].
    + right.
      assert (Hnew : y - 1000 * (v * v) < fh - eh).
      { destruct Hout as [H | H]; apply ltb_Fin in H; lra. }
      destruct (setUpTransitionStage1_down e f s eh fh v y He Hf Hv Hneg Hy)
        as (S1 & S2 & S3 & _); [lra | ].
      rewrite S1, S2, S3.
      replace (v * v + (fh - eh - y) * 2 * (5 / 10000))
        with (v * v + (fh - eh - y) / 1000) by lra.
      repeat split; assumption.
    + left.
      assert (Hv1 : 0 < v) by lra.
      assert (Hnew : 0 < y + 1000 * (v * v)).
      { destruct Hout as [H | H]; apply ltb_Fin in H; lra. }
      destruct (setUpTransitionStage1_up e f s v y Hv Hv1 Hy)
        as (S1 & S2 & S3 & _); [lra | ].
      rewrite S1, S2, S3.
      replace (v * v + - y * 2 * - (5 / 10000))
        with (v * v + y / 1000) by lra.
      repeat split; assumption.
  - left. split; [exact H0 | split; [reflexivity | ]].
    destruct (contentOffsetY_doMomentum_direct e f s v y Hv H0 Hy Hout)
      as [Hc _].
    split; [exact Hc | ].
    unfold positionIsOutOfBounds in Hout.
    rewrite (getLowestContentPosition_Fin e f eh fh He Hf) in Hout.
    apply Bool.orb_false_iff in Hout. destruct Hout as [H1 H2].
    unfold gtb in H1. apply ltb_Fin_false in H1, H2. lra.
Qed.

Lemma shouldStartMomentum_within (e f : Size) (eh fh y : R) (s : Scroller) :
  height e = Fin eh -> height f = Fin fh ->
  contentOffsetY s = Fin y -> fh - eh <= y <= 0 ->
  shouldStartMomentum e f s = true.
Proof.
  intros He Hf Hy Hr.
  unfold shouldStartMomentum, isOutOfBounds, positionIsOutOfBounds.
  rewrite Hy, (getLowestContentPosition_Fin e f eh fh He Hf).
  unfold gtb, ltb, Rltb. rdec; reflexivity.
Qed.

(** X11: with finite measures and samples and a frame not higher than the
    content, momentum started from an offset within bounds leaves the
    content at an offset within bounds, whatever the velocity: the slide
    ends where it would stop if that is within bounds, and on the bound it
    would pass otherwise.  So does the end of a drag that ends within
    bounds. *)
Theorem momentum_stays_within_bounds (e f : Size) (target : Element)
    (eh fh y p0 t0 p1 t1 : R) (s : Scroller) :
  height e = Fin eh -> height f = Fin fh -> fh <= eh ->
  contentOffsetY s = Fin y -> fh - eh <= y <= 0 ->
  previousPoint_ s = Fin p0 -> previousMoment_ s = Fin t0 ->
  currentPoint_ s = Fin p1 -> currentMoment_ s = Fin t1 ->
  (exists y', contentOffsetY (doMomentum e f s) = Fin y'
              /\ fh - eh <= y' <= 0)
  /\ (isDragging_ s = true ->
      exists y', contentOffsetY (fst (onTouchEnd e f target s)) = Fin y'
                 /\ fh - eh <= y' <= 0).
Proof.
  intros He Hf Hle Hy Hr H1 H2 H3 H4.
  assert (Hm : exists y', contentOffsetY (doMomentum e f s) = Fin y'
                          /\ fh - eh <= y' <= 0).
  { destruct (getEndVelocity_finite s p0 t0 p1 t1 H1 H2 H3 H4)
      as (v & Hv & _).
    destruct (doMomentum_from_within e f eh fh y v s He Hf Hle Hy Hr Hv)
      as [(_ & ->) | [(_ & _ & Hc & Hb) | [(_ & _ & Hc & _)
                                          | (_ & _ & Hc & _)]]].
    - exists y. split; [exact Hy | exact Hr].
    - eexists. split; [exact Hc | exact Hb].
    - exists 0. split; [exact Hc | lra].
    - exists (fh - eh). split; [exact Hc | lra]. }
  split; [exact Hm | ].
  intros Hd. rewrite (contentOffsetY_onTouchEnd e f target s Hd).
  rewrite (shouldStartMomentum_within e f eh fh y s He Hf Hy Hr).
  exact Hm.
Qed.

Lemma momentum_stays_within_bounds_witness :
  exists y', contentOffsetY (doMomentum content900 frame300
                               (sampleWindow 0 0 10 2)) = Fin y'
             /\ 300 - 900 <= y' <= 0.
Proof.
  apply (momentum_stays_within_bounds content900 frame300 linkElement
           900 300 0 0 0 10 2 (sampleWindow 0 0 10 2));
    try reflexivity; lra.
Defined.

(** The velocity a slide has left at the bound it would pass. *)
Lemma velocity_left_at_bound (e f : Size) (eh fh y v : R)
    (s : Scroller) :
  height e = Fin eh -> height f = Fin fh -> fh <= eh ->
  contentOffsetY s = Fin y -> fh - eh <= y <= 0 ->
  getEndVelocity s = Fin v ->
  positionIsOutOfBounds e f
    (Fin (y + (if Rlt_dec v 0 then - (1000 * (v * v)) else 1000 * (v * v))))
  = true ->
  let s' := doMomentum e f s in
  exists u b,
    endMomentumVelocity_ s' = Fin u
    /\ contentOffsetY s' = Fin b
    /\ queuedTransitionStage_ s' = TO_BOUNDS
    /\ isDecelerating_ s' = true
    /\ u * u = v * v - Rabs (b - y) / 1000
    /\ ((0 < v /\ b = 0 /\ 0 < u <= v)
        \/ (v < 0 /\ b = fh - eh /\ v <= u < 0)).
Proof.
  intros He Hf Hle Hy Hr Hv Hout. cbv zeta.
  destruct (doMomentum_from_within e f eh fh y v s He Hf Hle Hy Hr Hv)
    as [(H0 & _) | [(_ & Hin & _) | [(Hp & Hn & Hc & Hu & Hq & Hd)
                                    | (Hp & Hn & Hc & Hu & Hq & Hd)]]].
  - exfalso. rewrite H0 in Hout.
    unfold positionIsOutOfBounds in Hout.
    rewrite (getLowestContentPosition_Fin e f eh fh He Hf) in Hout.
    apply Bool.orb_true_iff in Hout. unfold gtb in Hout.
    destruct (Rlt_dec 0 0); destruct Hout as [H | H]; apply ltb_Fin in H;
      lra.
  - rewrite Hin in Hout. discriminate.
  - assert (Hrad : 0 < v * v + y / 1000) by lra.
    pose proof (sqrt_sqrt (v * v + y / 1000) (Rlt_le _ _ Hrad)) as Hsq.
    pose proof (sqrt_lt_R0 (v * v + y / 1000) Hrad) as Hpos.
    exists (R_sqrt.sqrt (v * v + y / 1000)), 0.
    repeat (split; [assumption | ]). split.
    + rewrite Hsq.
      destruct (Rabs_cases (0 - y)) as [[_ ->] | [? _]]; lra.
    + left. repeat split; try assumption. nra.
  - assert (Hrad : 0 < v * v + (fh - eh - y) / 1000) by lra.
    pose proof (sqrt_sqrt (v * v + (fh - eh - y) / 1000) (Rlt_le _ _ Hrad))
      as Hsq.
    pose proof (sqrt_lt_R0 (v * v + (fh - eh - y) / 1000) Hrad) as Hpos.
    exists (- R_sqrt.sqrt (v * v + (fh - eh - y) / 1000)), (fh - eh).
    repeat (split; [assumption | ]). split.
    + replace (- R_sqrt.sqrt (v * v + (fh - eh - y) / 1000)
               * - R_sqrt.sqrt (v * v + (fh - eh - y) / 1000))
        with (R_sqrt.sqrt (v * v + (fh - eh - y) / 1000)
              * R_sqrt.sqrt (v * v + (fh - eh - y) / 1000)) by ring.
      rewrite Hsq.
      destruct (Rabs_cases (fh - eh - y)) as [[? _] | [_ ->]]; [ | lra].
      assert (fh - eh - y = 0) by lra.
      replace (fh - eh - y) with 0 by lra. rewrite Rabs_R0. lra.
    + right. repeat split; try assumption; [nra | lra].
Qed.

(** X12: when momentum from within bounds would carry the content past a
    bound, stage 1 stops the content on that bound and queues the bounce
    with the velocity the slide has left there: its square is the square of
    the start velocity less a thousandth of the distance slid, so it has the
    direction of the start velocity and is not faster. *)
Theorem momentum_reaches_bound_slower (e f : Size) (eh fh y v : R)
    (s : Scroller) :
  height e = Fin eh -> height f = Fin fh -> fh <= eh ->
  contentOffsetY s = Fin y -> fh - eh <= y <= 0 ->
  getEndVelocity s = Fin v ->
  positionIsOutOfBounds e f
    (Fin (y + (if Rlt_dec v 0 then - (1000 * (v * v)) else 1000 * (v * v))))
  = true ->
  let s' := doMomentum e f s in
  exists u b,
    endMomentumVelocity_ s' = Fin u
    /\ contentOffsetY s' = Fin b
    /\ queuedTransitionStage_ s' = TO_BOUNDS
    /\ isDecelerating_ s' = true
    /\ u * u = v * v - Rabs (b - y) / 1000
    /\ ((0 < v /\ b = 0 /\ 0 < u <= v)
        \/ (v < 0 /\ b = fh - eh /\ v <= u < 0)).
Proof. exact (velocity_left_at_bound e f eh fh y v s). Qed.

Lemma getEndVelocity_sampleWindow_fast :
  getEndVelocity (sampleWindow 0 0 10 2) = Fin (35 / 10).
Proof.
  destruct (getEndVelocity_samples (sampleWindow 0 0 10 2) 0 0 10 2
              eq_refl eq_refl eq_refl eq_refl) as (_ & _ & _ & _ & G5 & _).
  apply G5; try lra.
  replace ((10 - 0) / (2 - 0)) with 5 by lra.
  destruct (Rabs_cases 5) as [[_ ->] | [? _]]; lra.
Qed.

Lemma momentum_reaches_bound_slower_witness :
  exists u b,
    endMomentumVelocity_
      (doMomentum content900 frame300 (sampleWindow 0 0 10 2)) = Fin u
    /\ contentOffsetY
         (doMomentum content900 frame300 (sampleWindow 0 0 10 2)) = Fin b
    /\ queuedTransitionStage_
         (doMomentum content900 frame300 (sampleWindow 0 0 10 2))
       = TO_BOUNDS
    /\ isDecelerating_
         (doMomentum content900 frame300 (sampleWindow 0 0 10 2)) = true
    /\ u * u = 35 / 10 * (35 / 10) - Rabs (b - 0) / 1000
    /\ ((0 < 35 / 10 /\ b = 0 /\ 0 < u <= 35 / 10)
        \/ (35 / 10 < 0 /\ b = 300 - 900 /\ 35 / 10 <= u < 0)).
Proof.
  apply (momentum_reaches_bound_slower content900 frame300 900 300 0
           (35 / 10) (sampleWindow 0 0 10 2));
    try reflexivity; try lra.
  - exact getEndVelocity_sampleWindow_fast.
  - unfold positionIsOutOfBounds.
    rewrite getLowestContentPosition_900_300.
    destruct (Rlt_dec (35 / 10) 0); [lra | ].
    unfold gtb, ltb, Rltb. rdec; reflexivity.
Defined.

(** ** The bounce, stage by stage *)

Lemma targetIsElement_refl (el : ElemId) (s : Scroller) :
  element s = Some el -> targetIsElement el s = true.
Proof. intros H. unfold targetIsElement. rewrite H. apply Nat.eqb_refl. Qed.

(** A transition end on the tracked element, by queued stage. *)
Lemma onTransitionEnd_at_stage (e f : Size) (el : ElemId) (s : Scroller) :
  element s = Some el ->
  onTransitionEnd e f el s
  = match queuedTransitionStage_ s with
    | NONE =>
        set_isDecelerating_ false
          (showScrollBarDelayed false
             (set_lineTransition TransitionNone
                (set_containerTransition TransitionNone
                   (set_elementTransition TransitionNone s))))
    | TO_BOUNDS => setUpTransitionStage2 e f s
    | BOUNCED_OUT => setUpTransitionStage3 e f s
    | BOUNCED_BACK =>
        set_isDecelerating_ false
          (showScrollBarDelayed false
             (set_containerTransition TransitionNone
                (set_lineTransition TransitionNone
                   (set_elementTransition TransitionNone
                      (set_queuedTransitionStage_ NONE s)))))
    end.
Proof.
  intros H. unfold onTransitionEnd.
  rewrite (targetIsElement_refl el s H). reflexivity.
Qed.

Lemma setUpTransitionStage2_fields (e f : Size) (s : Scroller) :
  let s' := setUpTransitionStage2 e f s in
  let d := overshootDisplacement (endMomentumVelocity_ s) in
  element s' = element s
  /\ queuedTransitionStage_ s' = BOUNCED_OUT
  /\ isDecelerating_ s' = isDecelerating_ s
  /\ contentOffsetY s'
     = (if gtb (endMomentumVelocity_ s) (Fin 0) then d
        else JsNum.add (contentOffsetY s) d).
Proof.
  cbv zeta. unfold setUpTransitionStage2; cbv zeta.
  repeat split; by_cases.
Qed.

Lemma snapToBounds_fields (e f : Size) (s : Scroller) :
  let s' := snapToBounds e f s in
  element s' = element s
  /\ queuedTransitionStage_ s' = queuedTransitionStage_ s
  /\ isDecelerating_ s' = true
  /\ lineTransform s' = ScaleY (getScrollBarLineHeight e f)
  /\ elementTransition s' = TransitionTransform (Fin 500) EaseOut
  /\ contentOffsetY s'
     = (if gtb (contentOffsetY s) (Fin 0) then Fin 0
        else getLowestContentPosition e f)
  /\ elementTransform s' = Translate3dY (contentOffsetY s').
Proof.
  cbv zeta. unfold snapToBounds; cbv zeta. fields.
  repeat split; destruct (gtb (contentOffsetY s) (Fin 0)); reflexivity.
Qed.

(** Setting the queued stage over a state. *)
Lemma set_queuedTransitionStage_over (v : QUEUED_TRANSITION_STAGE)
    (a : Scroller) :
  let s' := set_queuedTransitionStage_ v a in
  element s' = element a
  /\ queuedTransitionStage_ s' = v
  /\ isDecelerating_ s' = isDecelerating_ a
  /\ lineTransform s' = lineTransform a
  /\ elementTransition s' = elementTransition a
  /\ contentOffsetY s' = contentOffsetY a
  /\ elementTransform s' = elementTransform a.
Proof. cbv zeta. repeat split; reflexivity. Qed.

Lemma setUpTransitionStage3_fields (e f : Size) (s : Scroller) :
  let s' := setUpTransitionStage3 e f s in
  element s' = element s
  /\ queuedTransitionStage_ s' = BOUNCED_BACK
  /\ isDecelerating_ s' = true
  /\ lineTransform s' = ScaleY (getScrollBarLineHeight e f)
  /\ elementTransition s' = TransitionTransform (Fin 500) EaseOut
  /\ contentOffsetY s'
     = (if gtb (contentOffsetY s) (Fin 0) then Fin 0
        else getLowestContentPosition e f)
  /\ elementTransform s' = Translate3dY (contentOffsetY s').
Proof.
  cbv zeta.
  change (setUpTransitionStage3 e f s)
    with (set_queuedTransitionStage_ BOUNCED_BACK (snapToBounds e f s)).
  destruct (set_queuedTransitionStage_over BOUNCED_BACK (snapToBounds e f s))
    as (Q1 & Q2 & Q3 & Q4 & Q5 & Q6 & Q7).
  destruct (snapToBounds_fields e f s) as (S1 & S2 & S3 & S4 & S5 & S6 & S7).
  cbv zeta in *.
  rewrite Q1, Q2, Q3, Q4, Q5, Q6, Q7, S1, S3, S4, S5, S6, S7, S6.
  repeat split; reflexivity.
Qed.

(** The end of the last queued transition, on any state. *)
Lemma bounce_rest_fields (a : Scroller) :
  let s' :=
    set_isDecelerating_ false
      (showScrollBarDelayed false
         (set_containerTransition TransitionNone
            (set_lineTransition TransitionNone
               (set_elementTransition TransitionNone
                  (set_queuedTransitionStage_ NONE a))))) in
  queuedTransitionStage_ s' = NONE
  /\ isDecelerating_ s' = false
  /\ contentOffsetY s' = contentOffsetY a
  /\ elementTransform s' = elementTransform a
  /\ lineTransform s' = lineTransform a
  /\ elementTransition s' = TransitionNone
  /\ containerTransition s' = TransitionNone
  /\ lineTransition s' = TransitionNone
  /\ scrollBarShowTimeout_ s' = Some false.
Proof. cbv zeta. repeat split; reflexivity. Qed.

(** X13: once the content has reached a bound with a velocity left (stage
    [TO_BOUNDS]), three transition ends on the tracked element finish the
    bounce.  The first moves the content past the bound, by at most
    [OUT_OF_BOUNDS_MAXIMUM] (above the top for a positive velocity, below
    the offset otherwise); the second puts it back on a bound (the top after
    a positive velocity, the lowest position otherwise) with the scrollbar
    line at its full height; the third leaves it there, clears the three
    transitions and the deceleration flag, and schedules the hiding of the
    scrollbar. *)
Theorem bounce_returns_to_bound (e f : Size) (el : ElemId) (u y : R)
    (s : Scroller) :
  element s = Some el -> queuedTransitionStage_ s = TO_BOUNDS ->
  endMomentumVelocity_ s = Fin u -> contentOffsetY s = Fin y -> y <= 0 ->
  let out := onTransitionEnd e f el s in
  let back := onTransitionEnd e f el out in
  let rest := onTransitionEnd e f el back in
  (queuedTransitionStage_ out = BOUNCED_OUT
   /\ exists y2, contentOffsetY out = Fin y2
                 /\ (0 < u -> 0 < y2 <= 100)
                 /\ (u <= 0 -> y - 100 <= y2 <= y))
  /\ (queuedTransitionStage_ back = BOUNCED_BACK
      /\ isDecelerating_ back = true
      /\ contentOffsetY back
         = (if Rlt_dec 0 u then Fin 0 else getLowestContentPosition e f)
      /\ elementTransform back = Translate3dY (contentOffsetY back)
      /\ lineTransform back = ScaleY (getScrollBarLineHeight e f))
  /\ (queuedTransitionStage_ rest = NONE
      /\ isDecelerating_ rest = false
      /\ contentOffsetY rest = contentOffsetY back
      /\ elementTransform rest = Translate3dY (contentOffsetY back)
      /\ lineTransform rest = ScaleY (getScrollBarLineHeight e f)
      /\ elementTransition rest = TransitionNone
      /\ containerTransition rest = TransitionNone
      /\ lineTransition rest = TransitionNone
      /\ scrollBarShowTimeout_ rest = Some false).
Proof.
  intros Hel Hst Hu Hy Hy0 out back rest.
  assert (Eout : out = setUpTransitionStage2 e f s).
  { unfold out. rewrite (onTransitionEnd_at_stage e f el s Hel), Hst.
    reflexivity. }
  destruct (setUpTransitionStage2_fields e f s) as (A1 & A2 & _ & A4).
  cbv zeta in A1, A2, A4. rewrite <- Eout in A1, A2, A4.
  rewrite Hel in A1. rewrite Hu, overshootDisplacement_Fin, Hy in A4.
  assert (Eback : back = setUpTransitionStage3 e f out).
  { unfold back. rewrite (onTransitionEnd_at_stage e f el out A1), A2.
    reflexivity. }
  clearbody out.
  destruct (setUpTransitionStage3_fields e f out)
    as (B1 & B2 & B3 & B4 & _ & B6 & B7).
  cbv zeta in B1, B2, B3, B4, B6, B7.
  rewrite <- Eback in B1, B2, B3, B4, B6, B7. rewrite A1 in B1.
  assert (Erest : rest
                  = set_isDecelerating_ false
                      (showScrollBarDelayed false
                         (set_containerTransition TransitionNone
                            (set_lineTransition TransitionNone
                               (set_elementTransition TransitionNone
                                  (set_queuedTransitionStage_ NONE back)))))).
  { unfold rest. rewrite (onTransitionEnd_at_stage e f el back B1), B2.
    reflexivity. }
  clearbody back.
  destruct (bounce_rest_fields back)
    as (C1 & C2 & C3 & C4 & C5 & C6 & C7 & C8 & C9).
  cbv zeta in C1, C2, C3, C4, C5, C6, C7, C8, C9.
  rewrite <- Erest in C1, C2, C3, C4, C5, C6, C7, C8, C9.
  clearbody rest.
  assert (Hy2 : exists y2, contentOffsetY out = Fin y2
                           /\ (0 < u -> 0 < y2 <= 100)
                           /\ (u <= 0 -> y - 100 <= y2 <= y)).
  { rewrite A4. unfold gtb, ltb, Rltb, Rmax, Rmin.
    destruct (Rlt_dec 0 u) as [Hpos | Hneg].
    - destruct (Rlt_dec u 0); [lra | ].
      eexists. split; [reflexivity | ].
      assert (0 < u * u) by nra.
      destruct (Rle_dec 100 (100 * (u * u))); split; intros; lra.
    - cbn [JsNum.add]. eexists. split; [reflexivity | ].
      assert (0 <= u * u) by nra.
      destruct (Rlt_dec u 0);
        match goal with
        | |- context [Rle_dec ?a ?b] => destruct (Rle_dec a b)
        end; split; intros; try lra;
        try (assert (u = 0) by lra; subst u; lra). }
  assert (Hb : contentOffsetY back
               = (if Rlt_dec 0 u then Fin 0
                  else getLowestContentPosition e f)).
  { rewrite B6. destruct Hy2 as (y2 & -> & Hp & Hn).
    unfold gtb, ltb, Rltb.
    destruct (Rlt_dec 0 u) as [Hpos | Hneg].
    - destruct (Hp Hpos). rdec; reflexivity.
    - destruct (Hn (Rnot_lt_le _ _ Hneg)). rdec; reflexivity. }
  split; [split; [exact A2 | exact Hy2] | split].
  - rewrite <- Hb. repeat split; assumption.
  - rewrite C4, C5, B7, B4. repeat split; assumption.
Qed.

Lemma bounce_returns_to_bound_witness :
  contentOffsetY
    (onTransitionEnd content900 frame300 1%nat
       (onTransitionEnd content900 frame300 1%nat
          (onTransitionEnd content900 frame300 1%nat (atBound 3 0))))
  = contentOffsetY
      (onTransitionEnd content900 frame300 1%nat
         (onTransitionEnd content900 frame300 1%nat (atBound 3 0))).
Proof.
  destruct (bounce_returns_to_bound content900 frame300 1%nat 3 0
              (atBound 3 0) eq_refl eq_refl eq_refl eq_refl)
    as (_ & _ & _ & _ & H & _).
  - lra.
  - exact H.
Defined.

(** ** A gesture from its first touch to its last *)

Lemma onTouchStart_effects (e f : Size) (aEvent : TouchEvent)
    (live : LiveMatrices) (s : Scroller) :
  snd (onTouchStart e f aEvent live s)
  = if isDecelerating_ s then [StopPropagation; PreventDefault] else [].
Proof.
  unfold onTouchStart, stopMomentum, showScrollBar; cbv zeta.
  cbn [snd negb]. fields. destruct (isDecelerating_ s); reflexivity.
Qed.

Lemma onTouchStart_scrollBar (e f : Size) (aEvent : TouchEvent)
    (live : LiveMatrices) (s : Scroller) :
  containerOpacity (fst (onTouchStart e f aEvent live s)) = Some true
  /\ scrollBarShowTimeout_ (fst (onTouchStart e f aEvent live s)) = None.
Proof.
  unfold onTouchStart, stopMomentum, showScrollBar; cbv zeta.
  cbn [fst negb]. fields. split; reflexivity.
Qed.

(** A drag keeps the drag flag and the propagation flag. *)
Lemma touchMoves_flags (e f : Size) (moves : list TouchEvent) :
  forall s : Scroller,
    isDragging_ s = true ->
    isDragging_ (touchMoves e f moves s) = true
    /\ stopPropagationOnTouchEnd_ (touchMoves e f moves s)
       = stopPropagationOnTouchEnd_ s.
Proof.
  induction moves as [ | aEvent moves IH]; intros s Hd.
  - split; [exact Hd | reflexivity].
  - cbn [touchMoves fold_left].
    destruct (onTouchMove_fields e f aEvent s Hd) as (M1 & M2 & _).
    cbv zeta in M1, M2.
    destruct (IH (onTouchMove e f aEvent s) M1) as (I1 & I2).
    unfold touchMoves in I1, I2. rewrite I1, I2, M2. split; reflexivity.
Qed.

Lemma doMomentum_decelerates_or_hides (e f : Size) (s : Scroller) :
  isDecelerating_ (doMomentum e f s) = true
  \/ scrollBarShowTimeout_ (doMomentum e f s) = Some false.
Proof.
  unfold doMomentum; cbv zeta.
  destruct (negb (eqb (getEndVelocity s) (Fin 0)));
    [left | right]; reflexivity.
Qed.

(** The state a touch end leaves: the motion it started, with the
    propagation flag down and the gesture's fields cleared. *)
Lemma onTouchEnd_shape (e f : Size) (target : Element) (s : Scroller) :
  exists s2 x : Scroller,
    (isDecelerating_ s2 = true \/ scrollBarShowTimeout_ s2 = Some false)
    /\ (x = s2 \/ x = set_stopPropagationOnTouchEnd_ false s2)
    /\ stopPropagationOnTouchEnd_ x = false
    /\ fst (onTouchEnd e f target s)
       = set_isDragging_ false
           (set_startTouchX (Fin 0)
              (set_startTouchY (Fin 0)
                 (set_previousPoint_ (Fin 0)
                    (set_previousMoment_ (Fin 0)
                       (set_currentPoint_ (Fin 0)
                          (set_currentMoment_ (Fin 0) x)))))).
Proof.
  unfold onTouchEnd.
  destruct (isDragging s) as [dragging s1].
  set (s2 := if dragging
             then if shouldStartMomentum e f s1 then doMomentum e f s1
                  else snapToBounds e f s1
             else showScrollBarDelayed false s1).
  assert (H2 : isDecelerating_ s2 = true
               \/ scrollBarShowTimeout_ s2 = Some false).
  { unfold s2. destruct dragging; [destruct (shouldStartMomentum e f s1) | ].
    - apply doMomentum_decelerates_or_hides.
    - left. apply snapToBounds_fields.
    - right. reflexivity. }
  clearbody s2. cbv zeta.
  destruct (stopPropagationOnTouchEnd_ s2) eqn:Hflag; cbn [orb].
  - exists s2, (set_stopPropagationOnTouchEnd_ false s2).
    repeat split; [exact H2 | right; reflexivity].
  - destruct (geb (abs (sub (currentPoint_ s2) (startTouchY s2)))
                DRAG_THRESHOLD).
    + exists s2, (set_stopPropagationOnTouchEnd_ false s2).
      repeat split; [exact H2 | right; reflexivity].
    + exists s2, s2.
      repeat split; [exact H2 | left; reflexivity | exact Hflag].
Qed.

(** What clearing the gesture's fields leaves, on any state. *)
Lemma gesture_cleared (x : Scroller) :
  let s' :=
    set_isDragging_ false
      (set_startTouchX (Fin 0)
         (set_startTouchY (Fin 0)
            (set_previousPoint_ (Fin 0)
               (set_previousMoment_ (Fin 0)
                  (set_currentPoint_ (Fin 0)
                     (set_currentMoment_ (Fin 0) x)))))) in
  isDragging_ s' = false
  /\ startTouchY s' = Fin 0 /\ startTouchX s' = Fin 0
  /\ previousPoint_ s' = Fin 0 /\ previousMoment_ s' = Fin 0
  /\ currentPoint_ s' = Fin 0 /\ currentMoment_ s' = Fin 0
  /\ stopPropagationOnTouchEnd_ s' = stopPropagationOnTouchEnd_ x
  /\ isDecelerating_ s' = isDecelerating_ x
  /\ scrollBarShowTimeout_ s' = scrollBarShowTimeout_ x
  /\ set_isDragging_ false s' = s'.
Proof. cbv zeta. repeat split; reflexivity. Qed.





Lemma onTouchEnd_flag_down (e f : Size) (target : Element) (s : Scroller) :
  stopPropagationOnTouchEnd_ (fst (onTouchEnd e f target s)) = false.
Proof.
  destruct (onTouchEnd_shape e f target s) as (s2 & x & _ & _ & Hflag & ->).
  destruct (gesture_cleared x) as (_ & _ & _ & _ & _ & _ & _ & G8 & _).
  cbv zeta in G8. rewrite G8. exact Hflag.
Qed.

(** X15: a touch that starts while the scroller decelerates stops the
    motion and is swallowed: the touch start stops the event's propagation
    and prevents its default, and after any number of touch moves the touch
    end does the same and dispatches no click; the touch end puts the flag
    down, so the next gesture starts afresh. *)
Theorem stopped_motion_swallows_tap (e f : Size) (aEvent : TouchEvent)
    (live : LiveMatrices) (moves : list TouchEvent) (target : Element)
    (s : Scroller) :
  isDecelerating_ s = true ->
  let started := onTouchStart e f aEvent live s in
  let ended := onTouchEnd e f target (touchMoves e f moves (fst started)) in
  snd started = [StopPropagation; PreventDefault]
  /\ isDecelerating_ (fst started) = false
  /\ snd ended = [StopPropagation; PreventDefault]
  /\ stopPropagationOnTouchEnd_ (fst ended) = false.
Proof.
  intros Hd. cbv zeta.
  destruct (onTouchStart_fields e f aEvent live s) as (F1 & F2 & _).
  cbv zeta in F1, F2.
  destruct (touchMoves_flags e f moves (fst (onTouchStart e f aEvent live s))
              F1) as (_ & M2).
  split; [ | split; [ | split]].
  - rewrite onTouchStart_effects, Hd. reflexivity.
  - unfold onTouchStart, stopMomentum, showScrollBar; cbv zeta.
    cbn [fst negb]. fields. destruct (isDecelerating_ s); reflexivity.
  - rewrite onTouchEnd_effects, M2, F2, Hd. reflexivity.
  - apply onTouchEnd_flag_down.
Qed.

Lemma stopped_motion_swallows_tap_witness :
  snd (onTouchEnd content900 frame300 linkElement
         (touchMoves content900 frame300 [touchUp3]
            (fst (onTouchStart content900 frame300 touchDown liveAtRest
                    (atBound 3 0)))))
  = [StopPropagation; PreventDefault].
Proof.
  apply (stopped_motion_swallows_tap content900 frame300 touchDown liveAtRest
           [touchUp3] linkElement (atBound 3 0)).
  reflexivity.
Defined.

(** X16: the touch-start handler shows the scrollbar and cancels a pending
    hide, whatever the state: the container's opacity is 1, no timeout is
    pending, and the callback of an earlier [showScrollBarDelayed] has
    nothing left to do.  On a scroller that is not decelerating it does
    nothing else that shows: the event goes on propagating, and the content
    offset, the transforms, the content's transition and the queued stage
    are as they were. *)
Theorem onTouchStart_shows_scrollBar (e f : Size) (aEvent : TouchEvent)
    (live : LiveMatrices) (s : Scroller) :
  let s' := fst (onTouchStart e f aEvent live s) in
  containerOpacity s' = Some true
  /\ scrollBarShowTimeout_ s' = None
  /\ onScrollBarTimeout s' = s'
  /\ (isDecelerating_ s = false ->
      snd (onTouchStart e f aEvent live s) = []
      /\ contentOffsetY s' = contentOffsetY s
      /\ elementTransform s' = elementTransform s
      /\ elementTransition s' = elementTransition s
      /\ containerTransform s' = containerTransform s
      /\ lineTransform s' = lineTransform s
      /\ queuedTransitionStage_ s' = queuedTransitionStage_ s).
Proof.
  cbv zeta.
  destruct (onTouchStart_scrollBar e f aEvent live s) as (H1 & H2).
  split; [exact H1 | split; [exact H2 | split]].
  - unfold onScrollBarTimeout. rewrite H2. reflexivity.
  - intros Hd. rewrite onTouchStart_effects, Hd.
    split; [reflexivity | ].
    unfold onTouchStart, stopMomentum, showScrollBar; cbv zeta.
    rewrite Hd. cbn [fst negb]. repeat split; reflexivity.
Qed.

Lemma onTouchStart_shows_scrollBar_witness :
  snd (onTouchStart content900 frame300 touchDown liveAtRest
         (restingAt (- 50))) = [].
Proof.
  destruct (onTouchStart_shows_scrollBar content900 frame300 touchDown
              liveAtRest (restingAt (- 50))) as (_ & _ & _ & H).
  apply H. reflexivity.
Defined.

(** ** A flick, from touch start to the slide it starts *)

Lemma velocity_of_samples (s : Scroller) (p0 t0 p1 t1 : R) :
  previousPoint_ s = Fin p0 -> previousMoment_ s = Fin t0 ->
  currentPoint_ s = Fin p1 -> currentMoment_ s = Fin t1 ->
  t0 < t1 ->
  getEndVelocity s
  = Fin (Rmax (- (35 / 10)) (Rmin (35 / 10) ((p1 - p0) / (t1 - t0)))).
Proof.
  intros H1 H2 H3 H4 Ht.
  destruct (getEndVelocity_samples s p0 t0 p1 t1 H1 H2 H3 H4)
    as (_ & _ & _ & G4 & G5 & G6).
  assert (Hi : 0 < / (t1 - t0)) by (apply Rinv_0_lt_compat; lra).
  assert (Hne : t1 <> t0) by lra.
  set (q := (p1 - p0) / (t1 - t0)) in *.
  assert (Hq : q = (p1 - p0) * / (t1 - t0)) by reflexivity.
  destruct (Rle_dec (Rabs q) (35 / 10)) as [Hs | Hs].
  - rewrite (G4 Hne Hs). f_equal.
    destruct (Rabs_cases q) as [[? Ha] | [? Ha]]; rewrite Ha in Hs;
      unfold Rmax, Rmin; destruct (Rle_dec (35 / 10) q);
      match goal with
      | |- context [Rle_dec ?a ?b] => destruct (Rle_dec a b)
      end; lra.
  - apply Rnot_le_lt in Hs.
    destruct (Rabs_cases q) as [[Hq0 Ha] | [Hq0 Ha]]; rewrite Ha in Hs.
    + assert (Hp : p0 < p1) by nra.
      rewrite G5; [ | exact Hne | rewrite Ha; exact Hs | exact Hp].
      f_equal. unfold Rmax, Rmin. destruct (Rle_dec (35 / 10) q); [ | lra].
      destruct (Rle_dec (- (35 / 10)) (35 / 10)); lra.
    + assert (Hp : p1 < p0) by nra.
      rewrite G6; [ | exact Hne | rewrite Ha; exact Hs | exact Hp].
      f_equal. unfold Rmax, Rmin. destruct (Rle_dec (35 / 10) q); [lra | ].
      destruct (Rle_dec (- (35 / 10)) q); lra.
Qed.

(** The drag of one move from rest within bounds, field by field. *)
Lemma drag_from_rest (e f : Size) (eh fh c y1 t1 y2 t2 : R)
    (ev1 ev2 : TouchEvent) (live : LiveMatrices) (s : Scroller) :
  height e = Fin eh -> height f = Fin fh ->
  isDecelerating_ s = false -> contentOffsetY s = Fin c ->
  fh - eh <= c <= 0 ->
  clientY ev1 = Fin y1 -> now ev1 = Fin t1 ->
  clientY ev2 = Fin y2 -> now ev2 = Fin t2 ->
  let s2 := onTouchMove e f ev2 (fst (onTouchStart e f ev1 live s)) in
  isDragging_ s2 = true
  /\ contentOffsetY s2 = Fin (c + (y2 - y1))
  /\ previousPoint_ s2 = Fin y1 /\ previousMoment_ s2 = Fin t1
  /\ currentPoint_ s2 = Fin y2 /\ currentMoment_ s2 = Fin t2.
Proof.
  intros He Hf Hd Hc Hr Hy1 Ht1 Hy2 Ht2. cbv zeta.
  destruct (onTouchStart_fields e f ev1 live s)
    as (F1 & _ & F3 & _ & _ & F6 & _ & F8).
  cbv zeta in F1, F3, F6, F8. rewrite Hy1 in F3, F6. rewrite Ht1 in F8.
  destruct (onTouchStart_after_stopMomentum e f ev1 live s)
    as (_ & _ & A3 & A4 & _).
  pose proof (contentOffsetY_onTouchStart_idle e f ev1 live s Hd) as F9.
  rewrite <- A3, F9, Hc in A4. rewrite Hc in F9.
  set (s1 := fst (onTouchStart e f ev1 live s)) in *. clearbody s1.
  destruct (onTouchMove_fields e f ev2 s1 F1)
    as (M1 & _ & _ & _ & M5 & M6 & M7 & M8).
  cbv zeta in M1, M5, M6, M7, M8.
  rewrite F6 in M5. rewrite F8 in M6. rewrite Hy2 in M7. rewrite Ht2 in M8.
  rewrite (contentOffsetY_onTouchMove e f ev2 s1 y1 y2 c F1 F3 Hy2 A4).
  assert (Hin : isOutOfBounds e f s1 = false).
  { unfold isOutOfBounds, positionIsOutOfBounds.
    rewrite F9, (getLowestContentPosition_Fin e f eh fh He Hf).
    unfold gtb, ltb, Rltb. rdec; reflexivity. }
  rewrite Hin. repeat split; try assumption. f_equal. ring.
Qed.

(** The end of a drag within bounds, from the last two samples. *)
Lemma touchEnd_of_drag (e f : Size) (target : Element)
    (eh fh y p0 t0 p1 t1 : R) (s : Scroller) :
  height e = Fin eh -> height f = Fin fh -> fh <= eh ->
  isDragging_ s = true ->
  contentOffsetY s = Fin y -> fh - eh <= y <= 0 ->
  previousPoint_ s = Fin p0 -> previousMoment_ s = Fin t0 ->
  currentPoint_ s = Fin p1 -> currentMoment_ s = Fin t1 -> t0 < t1 ->
  forall v : R,
    v = Rmax (- (35 / 10)) (Rmin (35 / 10) ((p1 - p0) / (t1 - t0))) ->
    contentOffsetY (fst (onTouchEnd e f target s))
    = Fin (Rmax (fh - eh)
             (Rmin 0 (y + (if Rlt_dec v 0 then - (1000 * (v * v))
                           else 1000 * (v * v))))).
Proof.
  intros He Hf Hle Hd Hy Hr H1 H2 H3 H4 Ht v Ev.
  rewrite (contentOffsetY_onTouchEnd e f target s Hd).
  rewrite (shouldStartMomentum_within e f eh fh y s He Hf Hy Hr).
  pose proof (velocity_of_samples s p0 t0 p1 t1 H1 H2 H3 H4 Ht) as Hv.
  rewrite <- Ev in Hv. clear Ev.
  destruct (doMomentum_from_within e f eh fh y v s He Hf Hle Hy Hr Hv)
    as [(H0 & Hc) | [(_ & _ & Hc & Hb) | [(Hp & Hn & Hc & _)
                                         | (Hp & Hn & Hc & _)]]];
    rewrite Hc.
  - change (contentOffsetY (showScrollBarDelayed false s))
      with (contentOffsetY s).
    rewrite Hy. f_equal. rewrite H0.
    destruct (Rlt_dec 0 0); [lra | ].
    replace (y + 1000 * (0 * 0)) with y by ring.
    unfold Rmax, Rmin. destruct (Rle_dec 0 y);
      match goal with
      | |- context [Rle_dec ?a ?b] => destruct (Rle_dec a b)
      end; lra.
  - f_equal.
    set (slide := if Rlt_dec v 0 then - (1000 * (v * v))
                  else 1000 * (v * v)) in *.
    unfold Rmax, Rmin. destruct (Rle_dec 0 (y + slide));
      match goal with
      | |- context [Rle_dec ?a ?b] => destruct (Rle_dec a b)
      end; lra.
  - f_equal. destruct (Rlt_dec v 0); [lra | ].
    unfold Rmax, Rmin.
    destruct (Rle_dec 0 (y + 1000 * (v * v))); [ | lra].
    destruct (Rle_dec (fh - eh) 0); lra.
  - f_equal. destruct (Rlt_dec v 0); [ | lra].
    unfold Rmax, Rmin.
    destruct (Rle_dec 0 (y + - (1000 * (v * v)))); [lra | ].
    destruct (Rle_dec (fh - eh) (y + - (1000 * (v * v)))); lra.
Qed.

(** X17: a flick on a scroller at rest within bounds (a touch start, one
    touch move later in time, the touch end; the frame not higher than the
    content, the drag ending within bounds) leaves the content where the
    finger took it plus the slide of the momentum, kept within the bounds:
    with [v] the finger's velocity held within [MAXIMUM_VELOCITY] either
    way, the slide is [1000 * v * v] in the direction of [v]. *)
Theorem flick_slides_within_bounds (e f : Size) (eh fh c y1 t1 y2 t2 : R)
    (ev1 ev2 : TouchEvent) (live : LiveMatrices) (target : Element)
    (s : Scroller) :
  height e = Fin eh -> height f = Fin fh -> fh <= eh ->
  isDecelerating_ s = false -> contentOffsetY s = Fin c ->
  fh - eh <= c <= 0 ->
  clientY ev1 = Fin y1 -> now ev1 = Fin t1 ->
  clientY ev2 = Fin y2 -> now ev2 = Fin t2 -> t1 < t2 ->
  fh - eh <= c + (y2 - y1) <= 0 ->
  forall v : R,
    v = Rmax (- (35 / 10)) (Rmin (35 / 10) ((y2 - y1) / (t2 - t1))) ->
    contentOffsetY
      (fst (onTouchEnd e f target
              (onTouchMove e f ev2 (fst (onTouchStart e f ev1 live s)))))
    = Fin (Rmax (fh - eh)
             (Rmin 0 (c + (y2 - y1)
                      + (if Rlt_dec v 0 then - (1000 * (v * v))
                         else 1000 * (v * v))))).
Proof.
  intros He Hf Hle Hd Hc Hr Hy1 Ht1 Hy2 Ht2 Ht Hr2 v Ev.
  destruct (drag_from_rest e f eh fh c y1 t1 y2 t2 ev1 ev2 live s
              He Hf Hd Hc Hr Hy1 Ht1 Hy2 Ht2)
    as (D1 & D2 & D3 & D4 & D5 & D6).
  exact (touchEnd_of_drag e f target eh fh (c + (y2 - y1)) y1 t1 y2 t2
           (onTouchMove e f ev2 (fst (onTouchStart e f ev1 live s)))
           He Hf Hle D1 D2 Hr2 D3 D4 D5 D6 Ht v Ev).
Qed.

Lemma flick_slides_within_bounds_witness :
  contentOffsetY
    (fst (onTouchEnd content900 frame300 linkElement
            (onTouchMove content900 frame300 touchUp3
               (fst (onTouchStart content900 frame300 touchDown liveAtRest
                       (restingAt (- 50)))))))
  = Fin (Rmax (300 - 900)
           (Rmin 0 (- 50 + (97 - 100)
                    + (if Rlt_dec (- (3 / 10)) 0
                       then - (1000 * (- (3 / 10) * - (3 / 10)))
                       else 1000 * (- (3 / 10) * - (3 / 10)))))).
Proof.
  apply (flick_slides_within_bounds content900 frame300 900 300 (- 50)
           100 0 97 10 touchDown touchUp3 liveAtRest linkElement
           (restingAt (- 50)));
    try reflexivity; try lra.
  replace ((97 - 100) / (10 - 0)) with (- (3 / 10)) by lra.
  unfold Rmax, Rmin.
  destruct (Rle_dec (35 / 10) (- (3 / 10))); [lra | ].
  destruct (Rle_dec (- (35 / 10)) (- (3 / 10))); lra.
Defined.

(** ** A content shorter than its frame *)

(** X18: when the frame is higher than the content, the lowest position is
    above 0 and every finite offset counts as out of bounds.  Clamping then
    yields one of the two bounds only (0 for a positive offset,
    [frame - content] otherwise, offset 0 included), and the end of a drag
    never starts momentum: it snaps the content to one of the two and
    decelerates. *)
Theorem short_content_out_of_bounds (e f : Size) (eh fh : R) :
  height e = Fin eh -> height f = Fin fh -> eh < fh ->
  (forall y : R, positionIsOutOfBounds e f (Fin y) = true)
  /\ (forall (y : R) (s : Scroller),
        contentOffsetY (animateWithinBounds e f (Fin y) s)
        = Fin (if Rlt_dec 0 y then 0 else fh - eh))
  /\ (forall (target : Element) (y : R) (s : Scroller),
        isDragging_ s = true -> contentOffsetY s = Fin y ->
        contentOffsetY (fst (onTouchEnd e f target s))
        = Fin (if Rlt_dec 0 y then 0 else fh - eh)
        /\ isDecelerating_ (fst (onTouchEnd e f target s)) = true
        /\ queuedTransitionStage_ (fst (onTouchEnd e f target s))
           = queuedTransitionStage_ s).
Proof.
  intros He Hf Hlt.
  assert (Hout : forall y : R, positionIsOutOfBounds e f (Fin y) = true).
  { intros y. unfold positionIsOutOfBounds.
    rewrite (getLowestContentPosition_Fin e f eh fh He Hf).
    unfold gtb, ltb, Rltb. rdec; reflexivity. }
  split; [exact Hout | split].
  - intros y s. rewrite contentOffsetY_animateWithinBounds.
    rewrite (getLowestContentPosition_Fin e f eh fh He Hf).
    unfold gtb, ltb, Rltb. rdec; reflexivity.
  - intros target y s Hd Hy.
    destruct (onTouchEnd_motion e f target s Hd) as (M1 & M2 & M3 & _).
    cbv zeta in M1, M2, M3. rewrite M1, M2, M3.
    unfold shouldStartMomentum, isOutOfBounds. rewrite Hy, Hout.
    destruct (snapToBounds_fields e f s) as (_ & S2 & S3 & _ & _ & S6 & _).
    cbv zeta in S2, S3, S6. rewrite S2, S3, S6, Hy.
    rewrite (getLowestContentPosition_Fin e f eh fh He Hf).
    repeat split. unfold gtb, ltb, Rltb. rdec; reflexivity.
Qed.

Lemma short_content_out_of_bounds_witness :
  positionIsOutOfBounds frame300 content900 (Fin 0) = true.
Proof.
  destruct (short_content_out_of_bounds frame300 content900 300 900
              eq_refl eq_refl) as (H & _).
  - lra.
  - apply H.
Defined.

(** ** Adding twice *)

(** X19: [add(aElement)] on an instance that is already enabled stores the
    two elements and returns at once from its [enable(true)]: the shared
    state, the listeners and the measured sizes are as before.  The
    listeners stay on the element tracked before, whose transition ends the
    handler now ignores when [aElement] has another first child: a motion
    queued on it no longer advances. *)
Theorem add_when_enabled (env : Env) (g : Global) (s : Scroller)
    (aElement : ElemId) :
  enabled_ s = Some true ->
  let s' := setElement (getFirstElementChild env aElement)
              (setFrameElement aElement s) in
  add env aElement (g, s) = Normal (g, s')
  /\ listeners s' = listeners s
  /\ elementSize s' = elementSize s
  /\ frameElementSize s' = frameElementSize s
  /\ queuedTransitionStage_ s' = queuedTransitionStage_ s
  /\ (forall (e f : Size) (old : ElemId),
        element s = Some old -> old <> getFirstElementChild env aElement ->
        onTransitionEnd e f old s' = s').
Proof.
  intros He. cbv zeta.
  split; [unfold add; apply enable_same; exact He | ].
  repeat split.
  intros e f old Hold Hne. apply onTransitionEnd_other_target.
  unfold targetIsElement, setElement, setFrameElement; fields.
  apply Nat.eqb_neq. exact Hne.
Qed.

Lemma add_when_enabled_witness :
  add page 7%nat (global attachedWorld, enabledOn 3%nat 0)
  = Normal (global attachedWorld,
            setElement (getFirstElementChild page 7%nat)
              (setFrameElement 7%nat (enabledOn 3%nat 0))).
Proof.
  apply (add_when_enabled page (global attachedWorld) (enabledOn 3%nat 0)
           7%nat).
  reflexivity.
Defined.

(** ** Attaching and detaching again *)




(** ** How far a damped drag can go *)

Lemma exp_ge_succ (x : R) : 1 + x <= Rtrigo_def.exp x.
Proof.
  destruct (Req_dec_T x 0) as [-> | H].
  - rewrite exp_0. lra.
  - left. apply exp_ineq1. exact H.
Qed.

(** The damped delta is at most [550 / e], reached at a delta of 550. *)
Lemma damped_bounded (d : R) :
  Rabs (damped d) <= 550 / Rtrigo_def.exp 1.
Proof.
  rewrite Rabs_damped.
  set (t := Rabs d / 550).
  assert (Ht : Rabs d = 550 * t) by (unfold t; field).
  rewrite Ht.
  pose proof (exp_pos t) as Hpt. pose proof (exp_pos 1) as Hp1.
  pose proof (exp_ge_succ (t - 1)) as Hle.
  assert (He : Rtrigo_def.exp (t - 1)
               = Rtrigo_def.exp t * / Rtrigo_def.exp 1).
  { unfold Rminus. rewrite exp_plus, exp_Ropp. reflexivity. }
  rewrite He in Hle.
  assert (Hi : 0 < / Rtrigo_def.exp 1) by (apply Rinv_0_lt_compat; exact Hp1).
  assert (Hit : 0 < / Rtrigo_def.exp t) by (apply Rinv_0_lt_compat; exact Hpt).
  assert (H1 : t * / Rtrigo_def.exp t <= / Rtrigo_def.exp 1).
  { apply (Rmult_le_reg_r (Rtrigo_def.exp t)); [exact Hpt | ].
    rewrite Rmult_assoc, Rinv_l by lra. lra. }
  unfold Rdiv. nra.
Qed.

Lemma exp_1_gt_2 : 2 < Rtrigo_def.exp 1.
Proof.
  pose proof (exp_ineq1 1) as H. assert (1 <> 0) by lra.
  specialize (H H0). lra.
Qed.

(** X21: a touch move in a drag whose content is out of bounds puts the
    content at the drag's start offset plus the damped finger delta, and the
    damped delta never exceeds [550 / e] (about 202, less than 275), however
    far the finger has moved: the content cannot be dragged farther than
    that from where the drag started. *)
Theorem drag_out_of_bounds_bounded (e f : Size) (aEvent : TouchEvent)
    (s : Scroller) (y0 y1 c0 : R) :
  isDragging_ s = true -> isOutOfBounds e f s = true ->
  startTouchY s = Fin y0 -> clientY aEvent = Fin y1 ->
  contentStartOffsetY s = Fin c0 ->
  exists y' : R,
    contentOffsetY (onTouchMove e f aEvent s) = Fin y'
    /\ Rabs (y' - c0) <= 550 / Rtrigo_def.exp 1
    /\ Rabs (y' - c0) < 275.
Proof.
  intros Hd Hout Hy0 Hy1 Hc0.
  exists (damped (y1 - y0) + c0).
  rewrite (contentOffsetY_onTouchMove e f aEvent s y0 y1 c0 Hd Hy0 Hy1 Hc0),
    Hout.
  split; [reflexivity | ].
  replace (damped (y1 - y0) + c0 - c0) with (damped (y1 - y0)) by ring.
  pose proof (damped_bounded (y1 - y0)) as Hb.
  split; [exact Hb | ].
  pose proof exp_1_gt_2 as H2.
  assert (Hi : / Rtrigo_def.exp 1 < / 2).
  { apply Rinv_lt_contravar; lra. }
  unfold Rdiv in Hb. lra.
Qed.

Lemma drag_out_of_bounds_bounded_witness :
  exists y' : R,
    contentOffsetY
      (onTouchMove content900 frame300 (mkTouch (Fin 130) (Fin 20) (Fin 16))
         (draggingAt 100 10 40)) = Fin y'
    /\ Rabs (y' - 10) <= 550 / Rtrigo_def.exp 1
    /\ Rabs (y' - 10) < 275.
Proof.
  apply (drag_out_of_bounds_bounded content900 frame300
           (mkTouch (Fin 130) (Fin 20) (Fin 16)) (draggingAt 100 10 40)
           100 130 10); try reflexivity.
  unfold isOutOfBounds, positionIsOutOfBounds.
  change (contentOffsetY (draggingAt 100 10 40)) with (Fin 40).
  unfold gtb, ltb, Rltb. rdec; reflexivity.
Defined.

(** ** Durations and timing functions *)





Lemma setUpTransitionStage1_transition (e f : Size) (s : Scroller) (v : R) :
  getEndVelocity s = Fin v ->
  let s' := setUpTransitionStage1 e f s in
  let lower :=
    mul (abs (div (endMomentumVelocity_ s') (Fin v))) (Fin (33 / 100)) in
  let transition :=
    TransitionTransform
      (abs (div (sub (Fin v) (endMomentumVelocity_ s'))
              (getAcceleration (Fin v))))
      (CubicBezier (Fin (33 / 100)) (sub (Fin (66 / 100)) lower)
         (Fin (66 / 100)) (sub (Fin 1) lower)) in
  elementTransition s' = transition /\ containerTransition s' = transition.
Proof.
  intros Hv. cbv zeta. unfold setUpTransitionStage1; cbv zeta. rewrite Hv.
  destruct (gtb (Fin v) (Fin 0)); fields; split; reflexivity.
Qed.

Lemma set_isDecelerating_transitions (b : bool) (a : Scroller) :
  elementTransition (set_isDecelerating_ b a) = elementTransition a
  /\ containerTransition (set_isDecelerating_ b a) = containerTransition a.
Proof. split; reflexivity. Qed.

(** X23: when momentum from within bounds would carry the content past a
    bound, the transition that takes it to the bound lasts
    [2000 * (|v| - |u|)] milliseconds, [v] being the start velocity and [u]
    the velocity left at the bound, and its timing function is
    [cubic-bezier(.33, .66 - r, .66, 1 - r)] with [r = .33 * |u / v|]:
    between the fixed function of a slide ([r] near 0) and the straight line
    ([r = .33], no slowing at all), its two ordinates staying within
    [.33, .66) and [.67, 1). *)
Theorem momentum_to_bound_timing (e f : Size) (eh fh y v : R)
    (s : Scroller) :
  height e = Fin eh -> height f = Fin fh -> fh <= eh ->
  contentOffsetY s = Fin y -> fh - eh <= y <= 0 ->
  getEndVelocity s = Fin v ->
  positionIsOutOfBounds e f
    (Fin (y + (if Rlt_dec v 0 then - (1000 * (v * v)) else 1000 * (v * v))))
  = true ->
  exists u r : R,
    endMomentumVelocity_ (doMomentum e f s) = Fin u
    /\ r = Rabs (u / v) * (33 / 100)
    /\ elementTransition (doMomentum e f s)
       = TransitionTransform (Fin (2000 * (Rabs v - Rabs u)))
           (CubicBezier (Fin (33 / 100)) (Fin (66 / 100 - r))
              (Fin (66 / 100)) (Fin (1 - r)))
    /\ containerTransition (doMomentum e f s)
       = elementTransition (doMomentum e f s)
    /\ 0 <= 2000 * (Rabs v - Rabs u) < 7000
    /\ 0 < r <= 33 / 100.
Proof.
  intros He Hf Hle Hy Hr Hv Hout.
  assert (Hv0 : v <> 0).
  { intros ->. unfold positionIsOutOfBounds in Hout.
    rewrite (getLowestContentPosition_Fin e f eh fh He Hf) in Hout.
    apply Bool.orb_true_iff in Hout. unfold gtb in Hout.
    destruct (Rlt_dec 0 0); destruct Hout as [H | H]; apply ltb_Fin in H;
      lra. }
  assert (Hcap : Rabs v <= 35 / 10).
  { pose proof (capped_bound
                  (sub (currentPoint_ s) (previousPoint_ s))
                  (sub (currentMoment_ s) (previousMoment_ s))) as Hb.
    rewrite <- getEndVelocity_deltas, Hv in Hb.
    apply leb_Fin in Hb. exact Hb. }
  destruct (velocity_left_at_bound e f eh fh y v s He Hf Hle Hy Hr Hv Hout)
    as (u & b & Hu & _ & _ & _ & _ & Hs).
  rewrite (doMomentum_out_of_bounds e f s v y Hv Hv0 Hy Hout) in Hu |- *.
  destruct (set_isDecelerating_over true (setUpTransitionStage1 e f s))
    as (_ & D2 & _ & _).
  destruct (set_isDecelerating_transitions true
              (setUpTransitionStage1 e f s)) as (T1 & T2).
  destruct (setUpTransitionStage1_transition e f s v Hv) as (S1 & S2).
  cbv zeta in S1, S2.
  rewrite D2 in Hu. rewrite T1, T2, D2, S1, S2, Hu, getAcceleration_Fin.
  exists u, (Rabs (u / v) * (33 / 100)).
  assert (Hr1 : 0 < Rabs (u / v) <= 1).
  { assert (Hiv : u / v = u * / v) by reflexivity.
    destruct Hs as [(Hp & _ & Hu1 & Hu2) | (Hn & _ & Hu1 & Hu2)].
    - assert (Hi : 0 < / v) by (apply Rinv_0_lt_compat; exact Hp).
      assert (Hq : 0 < u / v <= 1).
      { split; [rewrite Hiv; nra | ].
        apply (Rmult_le_reg_r v); [exact Hp | ].
        unfold Rdiv. rewrite Rmult_assoc, Rinv_l by lra. lra. }
      destruct (Rabs_cases (u / v)) as [[_ ->] | [? _]]; lra.
    - assert (Hi : 0 < / - v) by (apply Rinv_0_lt_compat; lra).
      assert (Hq : 0 < u / v <= 1).
      { replace (u / v) with (- u * / - v) by (field; lra).
        split; [nra | ].
        apply (Rmult_le_reg_r (- v)); [lra | ].
        rewrite Rmult_assoc, Rinv_l by lra. lra. }
      destruct (Rabs_cases (u / v)) as [[_ ->] | [? _]]; lra. }
  assert (Ht : Rabs v - Rabs u = Rabs (v - u)).
  { destruct Hs as [(Hp & _ & Hu1 & Hu2) | (Hn & _ & Hu1 & Hu2)];
      destruct (Rabs_cases v) as [[? ->] | [? ->]]; try lra;
      destruct (Rabs_cases u) as [[? ->] | [? ->]]; try lra;
      destruct (Rabs_cases (v - u)) as [[? ->] | [? ->]]; lra. }
  assert (Hd : 0 <= Rabs v - Rabs u < 35 / 10).
  { destruct Hs as [(Hp & _ & Hu1 & Hu2) | (Hn & _ & Hu1 & Hu2)];
      destruct (Rabs_cases v) as [[? Ev] | [? Ev]]; try lra;
      destruct (Rabs_cases u) as [[? Eu] | [? Eu]]; try lra;
      rewrite Ev in Hcap |- *; rewrite Eu; lra. }
  split; [reflexivity | split; [reflexivity | ]].
  split; [ | split; [reflexivity | split; lra]].
  cbn [JsNum.sub JsNum.add JsNum.neg JsNum.div JsNum.abs JsNum.mul].
  destruct (Req_dec_T v 0) as [? | _]; [contradiction | ].
  cbn [JsNum.sub JsNum.add JsNum.neg JsNum.div JsNum.abs JsNum.mul].
  replace (66 / 100 + - (Rabs (u / v) * (33 / 100)))
    with (66 / 100 - Rabs (u / v) * (33 / 100)) by ring.
  replace (1 + - (Rabs (u / v) * (33 / 100)))
    with (1 - Rabs (u / v) * (33 / 100)) by ring.
  replace (v + - u) with (v - u) by ring.
  destruct (Rlt_dec v 0);
    cbn [JsNum.sub JsNum.add JsNum.neg JsNum.div JsNum.abs JsNum.mul];
    rdec; cbn [JsNum.abs]; rewrite Ht.
  - replace ((v - u) / (5 / 10000)) with (2000 * (v - u)) by field.
    rewrite Rabs_mult. rewrite (Rabs_right 2000) by lra. reflexivity.
  - replace ((v - u) / - (5 / 10000)) with (- 2000 * (v - u)) by field.
    rewrite Rabs_mult.
    replace (Rabs (- 2000)) with 2000; [reflexivity | ].
    rewrite Rabs_left; lra.
Qed.

Lemma momentum_to_bound_timing_witness :
  exists u r : R,
    endMomentumVelocity_
      (doMomentum content900 frame300 (sampleWindow 0 0 10 2)) = Fin u
    /\ r = Rabs (u / (35 / 10)) * (33 / 100)
    /\ elementTransition
         (doMomentum content900 frame300 (sampleWindow 0 0 10 2))
       = TransitionTransform (Fin (2000 * (Rabs (35 / 10) - Rabs u)))
           (CubicBezier (Fin (33 / 100)) (Fin (66 / 100 - r))
              (Fin (66 / 100)) (Fin (1 - r)))
    /\ containerTransition
         (doMomentum content900 frame300 (sampleWindow 0 0 10 2))
       = elementTransition
           (doMomentum content900 frame300 (sampleWindow 0 0 10 2))
    /\ 0 <= 2000 * (Rabs (35 / 10) - Rabs u) < 7000
    /\ 0 < r <= 33 / 100.
Proof.
  apply (momentum_to_bound_timing content900 frame300 900 300 0 (35 / 10)
           (sampleWindow 0 0 10 2));
    try reflexivity; try lra.
  - exact getEndVelocity_sampleWindow_fast.
  - unfold positionIsOutOfBounds.
    rewrite getLowestContentPosition_900_300.
    destruct (Rlt_dec (35 / 10) 0); [lra | ].
    unfold gtb, ltb, Rltb. rdec; reflexivity.
Defined.

(** ** Only an enabled instance listens *)

Lemma keepsEnabled_animateTo (e f : Size) (y : number) (b : bool) :
  keepsEnabled (animateTo e f y b).
Proof.
  intros s. unfold animateTo; cbv zeta. destruct b; cbn [negb]; by_cases.
Qed.

Lemma keepsEnabled_setScrollTop (e f : Size) (a : number) :
  keepsEnabled (setScrollTop e f a).
Proof. intros s. apply keepsEnabled_animateTo. Qed.

Lemma keepsEnabled_onTouchStart (e f : Size) (aEvent : TouchEvent)
    (live : LiveMatrices) :
  keepsEnabled (fun s => fst (onTouchStart e f aEvent live s)).
Proof.
  intros s. unfold onTouchStart, stopMomentum, showScrollBar, animateTo;
    cbv zeta. cbn [fst negb]. by_cases.
Qed.

Lemma keepsEnabled_onTouchMove (e f : Size) (aEvent : TouchEvent) :
  keepsEnabled (onTouchMove e f aEvent).
Proof.
  intros s. unfold onTouchMove, isDragging.
  destruct (isDragging_ s);
    [ | match goal with
        | |- context [if ?c then _ else _] => destruct c
        end ];
    cbv zeta; try reflexivity;
    match goal with
    | |- context [animateTo e f ?y false ?s2] =>
        rewrite (keepsEnabled_animateTo e f y false s2)
    end; reflexivity.
Qed.

Lemma keepsEnabled_snapToBounds (e f : Size) :
  keepsEnabled (snapToBounds e f).
Proof. intros s. unfold snapToBounds; cbv zeta. by_cases. Qed.

Lemma keepsEnabled_setUpTransitionStage1 (e f : Size) :
  keepsEnabled (setUpTransitionStage1 e f).
Proof.
  intros s. unfold setUpTransitionStage1; cbv zeta.
  destruct (gtb (getEndVelocity s) (Fin 0)); reflexivity.
Qed.

Lemma keepsEnabled_setUpTransitionStage2 (e f : Size) :
  keepsEnabled (setUpTransitionStage2 e f).
Proof. intros s. unfold setUpTransitionStage2; cbv zeta. by_cases. Qed.

Lemma keepsEnabled_doMomentum (e f : Size) : keepsEnabled (doMomentum e f).
Proof.
  intros s. unfold doMomentum, showScrollBarDelayed; cbv zeta.
  destruct (negb (eqb (getEndVelocity s) (Fin 0))); [ | reflexivity].
  match goal with
  | |- context [if ?c then _ else _] => destruct c
  end; fields.
  - apply keepsEnabled_setUpTransitionStage1.
  - reflexivity.
Qed.

Lemma keepsEnabled_onTouchEnd (e f : Size) (target : Element) :
  keepsEnabled (fun s => fst (onTouchEnd e f target s)).
Proof.
  intros s. unfold onTouchEnd.
  assert (Hd : keepsEnabled (fun s => snd (isDragging s))).
  { intros s0. unfold isDragging. destruct (isDragging_ s0); reflexivity. }
  pose proof (Hd s) as D1. cbv beta in D1.
  destruct (isDragging s) as [dragging s1]; cbn [snd] in D1.
  rewrite <- D1.
  match goal with
  | |- context [let '(s, fx) := if ?c then _ else _ in _] => destruct c
  end; cbn [fst]; fields;
    (destruct dragging; [destruct (shouldStartMomentum e f s1) | ];
     [ apply keepsEnabled_doMomentum
     | apply keepsEnabled_snapToBounds
     | reflexivity ]).
Qed.

Lemma enabled_set_queuedTransitionStage_ (v : QUEUED_TRANSITION_STAGE)
    (a : Scroller) :
  enabled_ (set_queuedTransitionStage_ v a) = enabled_ a.
Proof. reflexivity. Qed.

Lemma keepsEnabled_onTransitionEnd (e f : Size) (target : ElemId) :
  keepsEnabled (onTransitionEnd e f target).
Proof.
  intros s.
  destruct (onTransitionEnd_cases e f target s)
    as [-> | [-> | [-> | [-> | ->]]]].
  - reflexivity.
  - reflexivity.
  - apply keepsEnabled_setUpTransitionStage2.
  - rewrite enabled_set_queuedTransitionStage_.
    apply keepsEnabled_snapToBounds.
  - reflexivity.
Qed.

Lemma keepsEnabled_showScrollBar (b : bool) : keepsEnabled (showScrollBar b).
Proof. intros s. unfold showScrollBar; cbv zeta. destruct b; reflexivity. Qed.

Lemma keepsEnabled_onScrollBarTimeout : keepsEnabled onScrollBarTimeout.
Proof.
  intros s. unfold onScrollBarTimeout.
  destruct (scrollBarShowTimeout_ s); [apply keepsEnabled_showScrollBar | ].
  reflexivity.
Qed.

Lemma enabledInv_keeps (g : Scroller -> Scroller) (s : Scroller) :
  keepsEnabled g -> keepsAttachment g -> enabledInv s -> enabledInv (g s).
Proof.
  intros He Hg Hs Hl. rewrite He. apply Hs.
  destruct (Hg s) as (_ & _ & _ & G4 & _ & _).
  unfold listening in *. rewrite <- G4. exact Hl.
Qed.

(** After [enable(false)], however it ends, no listener is left. *)
Lemma disabled_stops_listening (env : Env) (g : Global) (s : Scroller) :
  attachedInv s -> enabledInv s ->
  listening (snd (stateOf (enable env false (g, s)))) = false.
Proof.
  intros Ha He. destruct (looseEq (enabled_ s) false) eqn:Hl.
  { rewrite enable_looseEq by exact Hl. cbn [stateOf snd].
    destruct (listening s) eqn:Hls; [ | reflexivity].
    rewrite (He Hls) in Hl. discriminate Hl. }
  destruct (frameElement s) as [fr | ] eqn:Hfr;
    [destruct (frameElementComputedStyle s) as [st | ] eqn:Hst | ].
  - destruct (enable_false_detaches env g s fr st Hfr Hst Hl) as [g' ->].
    reflexivity.
  - destruct (enable_false_throws env g s (or_intror Hst) Hl) as [g' ->].
    cbn [stateOf snd]. change (listening s = false).
    destruct (listening s) eqn:Hls; [ | reflexivity].
    destruct (Ha Hls) as (_ & _ & Hc & _). contradiction.
  - destruct (enable_false_throws env g s (or_introl Hfr) Hl) as [g' ->].
    cbn [stateOf snd]. change (listening s = false).
    destruct (listening s) eqn:Hls; [ | reflexivity].
    destruct (Ha Hls) as (_ & Hf & _). contradiction.
Qed.

Lemma enabledInv_enable (env : Env) (aEnabled : bool) (g : Global)
    (s : Scroller) :
  attachedInv s -> enabledInv s ->
  enabledInv (snd (stateOf (enable env aEnabled (g, s)))).
Proof.
  intros Ha He. destruct aEnabled.
  - destruct (looseEq (enabled_ s) true) eqn:Hl.
    + rewrite enable_looseEq by exact Hl. exact He.
    + intros _. destruct (enable_counter env true g s) as [_ H].
      apply H. exact Hl.
  - intros Hl. rewrite disabled_stops_listening in Hl by assumption.
    discriminate Hl.
Qed.

Lemma enabledInv_setElements (el fr : ElemId) (s : Scroller) :
  enabledInv s -> enabledInv (setElement el (setFrameElement fr s)).
Proof. intros Hs Hl. exact (Hs Hl). Qed.

Lemma listenInv_add (env : Env) (aElement : ElemId) (g : Global)
    (s : Scroller) :
  attachedInv s /\ enabledInv s ->
  attachedInv (snd (stateOf (add env aElement (g, s))))
  /\ enabledInv (snd (stateOf (add env aElement (g, s)))).
Proof.
  intros [Ha He]. split; [apply attachedInv_add; exact Ha | ].
  unfold add. apply enabledInv_enable.
  - apply attachedInv_setElements; exact Ha.
  - apply enabledInv_setElements; exact He.
Qed.

Lemma listenInv_reset (env : Env) (aElement : ElemId) (g : Global)
    (s : Scroller) :
  attachedInv s /\ enabledInv s ->
  enabledInv (snd (stateOf (reset env aElement (g, s)))).
Proof.
  intros [Ha He]. unfold reset, remove.
  apply (andThen_preserves
           (fun gs : Global * Scroller =>
              attachedInv (snd gs) /\ enabledInv (snd gs))).
  - split; [apply attachedInv_enable | apply enabledInv_enable]; assumption.
  - intros [g' s'] [Ha' He']. cbn [snd] in Ha', He'.
    apply listenInv_add. split.
    + apply attachedInv_keeps;
        [apply keepsAttachment_resetInternal | exact Ha'].
    + intros Hl. exact (He' Hl).
Qed.

Lemma listenInv_resume (env : Env) (aElement : ElemId) (g : Global)
    (s : Scroller) :
  attachedInv s /\ enabledInv s ->
  enabledInv (snd (stateOf (resume env aElement (g, s)))).
Proof.
  intros H. unfold resume.
  apply (andThen_preserves
           (fun gs : Global * Scroller =>
              attachedInv (snd gs) /\ enabledInv (snd gs))).
  - apply listenInv_add; exact H.
  - intros [g' s'] [Ha' He']. cbn [snd] in Ha', He'.
    unfold measured.
    destruct (elementSize s'), (frameElementSize s');
      cbn [onScroller stateOf snd]; try (split; assumption).
    split.
    + apply attachedInv_keeps;
        [apply keepsAttachment_animateWithinBounds | exact Ha'].
    + apply enabledInv_keeps;
        [ intros sx; apply keepsEnabled_animateTo
        | apply keepsAttachment_animateWithinBounds | exact He'].
Qed.

Lemma worldEnabledInv_call (env : Env) (i : nat) (c : Call) (w : World) :
  worldAttachedInv w -> (forall j, enabledInv (scrollers w j)) ->
  forall j, enabledInv (scrollers (stateOf (call env i c w)) j).
Proof.
  intros Ha He j.
  assert (Hl : forall c0 : Completion (Global * Scroller),
             enabledInv (snd (stateOf c0)) ->
             enabledInv (scrollers (stateOf (lifecycle w i c0)) j)).
  { intros c0 H0.
    destruct c0 as [[g s] | [g s]]; cbn [lifecycle stateOf scrollers snd] in *;
      unfold setScroller; destruct (Nat.eqb j i); auto. }
  assert (Hm : forall c0 : Completion Scroller,
             enabledInv (stateOf c0) ->
             enabledInv (scrollers (stateOf (motion w i c0)) j)).
  { intros c0 H0. unfold motion. apply Hl. destruct c0; exact H0. }
  assert (Hh : forall g : Size -> Size -> Scroller -> Scroller,
             (forall e f, keepsEnabled (g e f)) ->
             (forall e f, keepsAttachment (g e f)) ->
             enabledInv (stateOf (measured g (scrollers w i)))
             /\ enabledInv (stateOf (handle g (scrollers w i)))).
  { intros g Hg1 Hg2. unfold handle, measured.
    destruct (listening (scrollers w i)) eqn:Hls;
      destruct (elementSize (scrollers w i)),
               (frameElementSize (scrollers w i));
      cbn [stateOf]; split;
      first [ exact (He i)
            | apply enabledInv_keeps; [apply Hg1 | apply Hg2 | exact (He i)] ].
  }
  pose proof (Ha i) as Hai. pose proof (He i) as Hei.
  destruct c; cbn [call]; cbv zeta; first [apply Hm | apply Hl].
  - cbn [stateOf]. intros Hls. exact (Hei Hls).
  - cbn [stateOf]. intros Hls. exact (Hei Hls).
  - apply enabledInv_enable; assumption.
  - apply listenInv_add. split; assumption.
  - apply enabledInv_enable; assumption.
  - apply listenInv_reset. split; assumption.
  - apply enabledInv_enable; assumption.
  - apply listenInv_resume. split; assumption.
  - apply (Hh (fun e f => setScrollTop e f aScrollTop)).
    + intros e f. apply keepsEnabled_setScrollTop.
    + intros e f. apply keepsAttachment_setScrollTop.
  - apply (Hh (fun e f s => fst (onTouchStart e f aEvent live s))).
    + intros e f. apply keepsEnabled_onTouchStart.
    + intros e f. apply keepsAttachment_onTouchStart.
  - apply (Hh (fun e f => onTouchMove e f aEvent)).
    + intros e f. apply keepsEnabled_onTouchMove.
    + intros e f. apply keepsAttachment_onTouchMove.
  - apply (Hh (fun e f s => fst (onTouchEnd e f target s))).
    + intros e f. apply keepsEnabled_onTouchEnd.
    + intros e f. apply keepsAttachment_onTouchEnd.
  - apply (Hh (fun e f => onTransitionEnd e f target)).
    + intros e f. apply keepsEnabled_onTransitionEnd.
    + intros e f. apply keepsAttachment_onTransitionEnd.
  - cbn [stateOf]. apply enabledInv_keeps;
      [ apply keepsEnabled_onScrollBarTimeout
      | apply keepsAttachment_onScrollBarTimeout | exact Hei ].
Qed.

Lemma worldEnabledInv_run (history : list Step) :
  forall w,
    worldAttachedInv w -> (forall j, enabledInv (scrollers w j)) ->
    forall j, enabledInv (scrollers (run history w) j).
Proof.
  induction history as [ | [[env i] c] history IH]; intros w Ha He;
    [exact He | ].
  cbn [run fold_left]. apply IH.
  - apply worldAttachedInv_call; exact Ha.
  - apply worldEnabledInv_call; assumption.
Qed.

Lemma reachable_enabledInv (w : World) (i : nat) :
  reachable w -> enabledInv (scrollers w i).
Proof.
  intros [history ->]. apply worldEnabledInv_run.
  - intros j Hl. discriminate Hl.
  - intros j Hl. discriminate Hl.
Qed.

(** X24: in every state the page can reach, an instance that has listeners
    is flagged enabled; and [remove], [suspend] and [enable(false)] leave
    the instance without a listener however they end, so after any of them
    the instance handles no event until it is enabled again. *)
Theorem only_enabled_listens (w : World) (env : Env) (i : nat) :
  reachable w ->
  (listening (scrollers w i) = true -> enabled_ (scrollers w i) = Some true)
  /\ listening (scrollers (step w (env, i, CallRemove)) i) = false
  /\ listening (scrollers (step w (env, i, CallSuspend)) i) = false
  /\ listening (scrollers (step w (env, i, CallEnable false)) i) = false.
Proof.
  intros Hw.
  pose proof (reachable_enabledInv w i Hw) as He.
  pose proof (reachable_worldAttachedInv w Hw i) as Ha.
  split; [exact He | ].
  repeat split; cbn [step call]; cbv zeta; rewrite scrollers_lifecycle;
    apply disabled_stops_listening; assumption.
Qed.

Lemma only_enabled_listens_witness :
  listening (scrollers (step attachedWorld (page, 0%nat, CallRemove)) 0%nat)
  = false.
Proof.
  assert (H : reachable attachedWorld)
    by (exists [(page, 0%nat, CallAdd 7%nat)]; reflexivity).
  destruct (only_enabled_listens attachedWorld page 0%nat H) as (_ & H1 & _).
  exact H1.
Defined.

(** ** Sizes of 0 *)

(** X25: the scrollbar line height is [frame * frame / content], held at
    [SCROLLBAR_MIN_HEIGHT] from below, only while neither height is 0.  For
    a content of height 0 in a frame with a height the division by zero
    makes it infinite; for a frame of height 0 around a content with a
    height it is the minimum; when both are 0 (elements that are not
    displayed) it is [NaN], which the comparison with the minimum lets
    through.  Whatever the sizes, it is never below the minimum. *)
Theorem getScrollBarLineHeight_zero_sizes (e f : Size) (eh fh : R) :
  height e = Fin eh -> height f = Fin fh ->
  (eh <> 0 -> fh <> 0 ->
   getScrollBarLineHeight e f = Fin (Rmax 5 (fh * fh / eh)))
  /\ (eh = 0 -> 0 < fh -> getScrollBarLineHeight e f = PosInf)
  /\ (eh <> 0 -> fh = 0 -> getScrollBarLineHeight e f = Fin 5)
  /\ (eh = 0 -> fh = 0 -> getScrollBarLineHeight e f = NaN)
  /\ ltb (getScrollBarLineHeight e f) SCROLLBAR_MIN_HEIGHT = false.
Proof.
  intros He Hf.
  split; [ | split; [ | split; [ | split]]].
  - intros He0 Hf0.
    rewrite (getScrollBarLineHeight_Fin e f eh fh He Hf He0 Hf0).
    f_equal. f_equal. field. split; assumption.
  - intros -> Hf0. unfold getScrollBarLineHeight; cbv zeta.
    rewrite He, Hf. unfold div.
    destruct (Req_dec_T fh 0); [lra | ].
    replace (0 / fh) with 0 by (field; lra).
    destruct (Req_dec_T 0 0); [ | lra].
    unfold signum. rdec. reflexivity.
  - intros He0 ->. unfold getScrollBarLineHeight; cbv zeta.
    rewrite He, Hf. unfold div.
    destruct (Req_dec_T 0 0); [ | lra].
    unfold signum. destruct (Rlt_dec eh 0); [ | destruct (Rlt_dec 0 eh)];
      try lra; cbn [inf_of]; unfold SCROLLBAR_MIN_HEIGHT, ltb, Rltb;
      rdec; reflexivity.
  - intros -> ->. unfold getScrollBarLineHeight; cbv zeta.
    rewrite He, Hf. unfold div.
    destruct (Req_dec_T 0 0); [ | lra].
    unfold signum. rdec. reflexivity.
  - unfold getScrollBarLineHeight; cbv zeta.
    destruct (ltb (div (height f) (div (height e) (height f)))
                SCROLLBAR_MIN_HEIGHT) eqn:H; [ | exact H].
    unfold SCROLLBAR_MIN_HEIGHT, ltb, Rltb. rdec; reflexivity.
Qed.

Lemma getScrollBarLineHeight_zero_sizes_witness :
  getScrollBarLineHeight (mkSize (Fin 320) (Fin 0)) frame300 = PosInf.
Proof.
  destruct (getScrollBarLineHeight_zero_sizes (mkSize (Fin 320) (Fin 0))
              frame300 0 300 eq_refl eq_refl) as (_ & H & _).
  apply H; [reflexivity | lra].
Defined.
